(** * tidal_dl_ng.download: stream manifest resolution and segmented download

    A shallow embedding of [src/tidal_dl_ng/download.py] (class [Download])
    and the properties of its manifest normalizer, rendition selection,
    write loop and single-item orchestration.

    Strings are [string]; file contents are [list Byte.byte]; Python [int]s
    are [Z]; the file system is a finite map from paths to contents; the
    stateful code runs in a state-and-exception monad over a [World]. *)

From Stdlib Require Import ZArith String Ascii List Bool Lia DecimalString Sorted.
From Stdlib Require DecimalNat DecimalFacts QArith Qminmax.
From stdpp Require Import base option gmap strings list fin_maps.

Import ListNotations.

Local Open Scope Z_scope.

(** ** Python string primitives used by the module *)

Module PyStr.

(** [needle in hay] on [str]. *)
Fixpoint contains (needle hay : string) : bool :=
String.prefix needle hay
|| match hay with
   | EmptyString => false
   | String _ rest => contains needle rest
   end.

(** The declarative reading of [in]: the needle occurs somewhere. *)
Definition Substring (needle hay : string) : Prop :=
∃ pre post : string, hay = pre +:+ needle +:+ post.

(** [s.replace(old, new)] for a non-empty [old] (the only use in the module
  is with the literal ["$Number$"]): every non-overlapping occurrence,
  scanning from the left. [skip] counts the characters of an occurrence
  that are still to be dropped. *)
Fixpoint replace_from (old new : string) (skip : nat) (s : string) : string :=
match s with
| EmptyString => EmptyString
| String c rest =>
    match skip with
    | S k => replace_from old new k rest
    | O =>
        if String.prefix old s
        then new +:+ replace_from old new (Nat.pred (String.length old)) rest
        else String c (replace_from old new O rest)
    end
end.

Definition replace (old new s : string) : string := replace_from old new O s.

(** [str(n)] for a non-negative [int]. *)
Definition str_of_nat (n : nat) : string :=
NilZero.string_of_uint (Nat.to_uint n).

End PyStr.

(** ** [Download.is_encrypted] and [Download.get_file_extension] *)

Definition is_encrypted (encryption_type : string) : bool :=
  negb (String.eqb encryption_type "NONE").

Definition get_file_extension (stream_url stream_codec : string) : string :=
  if PyStr.contains ".flac" stream_url then ".flac"
  else if PyStr.contains ".mp4" stream_url then ".mp4"
  else if PyStr.contains ".ts" stream_url then ".ts"
  else ".m4a".

(** ** Data model *)

(** [tidal_dl_ng.model.tidal.StreamManifest]. *)
Record StreamManifest := {
  urls : list string;
  codecs : string;
  file_extension : string;
  encryption_type : string;
  encryption_key : option string;
  mime_type : string
}.

(** The object tree [MPEGDASHParser.parse] returns, restricted to the
    attributes the module reads. The parser leaves [Ss] at [None] for a
    [SegmentTimeline] without an [S] element. *)
Module Dash.
Record S := { r : option Z }.
Record SegmentTimeline := { Ss : option (list S) }.
Record SegmentTemplate := {
  media : string;
  segment_timelines : list SegmentTimeline
}.
Record Representation := {
  codecs : string;
  segment_templates : list SegmentTemplate
}.
Record AdaptationSet := {
  mime_type : string;
  representations : list Representation
}.
Record Period := { adaptation_sets : list AdaptationSet }.
Record MPD := { periods : list Period }.
End Dash.

(** The object [json.loads] returns for the proprietary envelope. Fields are
    typed as in the wire format
    [{urls:[string], codecs:string, mimeType:string, encryptionType:string,
      encryptionKey?:string|null}]; a field that is [None] here is a key
    missing from the object, and subscripting it raises [KeyError]. The
    value under [encryptionKey] is a string or [null], which [json.loads]
    gives as Python's [None]: [Some None] here. *)
Module Bts.
Record Envelope := {
  urls : option (list string);
  codecs : option string;
  mimeType : option string;
  encryptionType : option string;
  encryptionKey : option (option string)
}.
End Bts.

(** The objects of the [m3u8] library, restricted to the attributes read. *)
Module Hls.
Record StreamInfo := {
  resolution : option (Z * Z);
  codecs : string
}.
Record Playlist := {
  uri : string;
  stream_info : StreamInfo
}.
Record M3U8 := {
  is_variant : bool;
  playlists : list Playlist;
  files : list string
}.
End Hls.

(** Media handles of [tidalapi]: the class of the object and its id. *)
Inductive MediaClass := Track | Video | Album | Playlist | Mix.

Record Media := {
  media_class : MediaClass;
  media_ident : string
}.

(** The value passed as [media_type]: a member of [MediaType] or any other
    value, which compares unequal to all five members. *)
Inductive MediaType :=
| TRACK | VIDEO | ALBUM | PLAYLIST | MIX
| OtherMediaType (tag : string).

(** [SkipExisting]: [Disabled] has a falsy [value], the other members a
    truthy one. *)
Inductive SkipExisting := Disabled | Filename | ExtensionIgnore.

Definition skip_existing_value (s : SkipExisting) : bool :=
  match s with
  | Disabled => false
  | Filename | ExtensionIgnore => true
  end.

(** What [self.settings.data] provides to this module. *)
Record Settings := {
  quality_video : Z;
  video_convert_mp4 : bool;
  lyrics_save : bool
}.

(** ** Exceptions, events and the world *)

Inductive Exn :=
| MediaMissing
| MediaUnknown
| UnknownManifestFormat
| HTTPError (status : Z)          (* raised by [raise_for_status] *)
| RequestError (msg : string)     (* timeout or connection failure: a
                                     [RequestException] that is no [HTTPError] *)
| IndexError
| KeyError (key : string)
| TypeError
| AttributeError
| OSError (path : string)
| ExternalError (msg : string).   (* raised inside an external collaborator *)

Inductive LogLevel := LInfo | LDebug.

Inductive Event :=
| EvResolve (t : MediaClass) (id : string)   (* [Track(session, id)] and the like *)
| EvStream (m : Media)                       (* [media.stream()] *)
| EvGetUrl (m : Media)                       (* [media.get_url()] *)
| EvM3u8Load (uri : string)                  (* [m3u8.load(uri)] *)
| EvGet (url : string)                       (* [requests.get(url, ...)] *)
| EvLyrics (m : Media)                       (* [track.lyrics()] *)
| EvLog (lvl : LogLevel) (msg : string)      (* [fn_logger.info], [fn_logger.debug] *)
| EvLogExn (e : Exn)                         (* [fn_logger(e)] *)
| EvPrint (msg : string)
| EvGuiItemName (name : string)              (* [progress_gui.item_name.emit] *)
| EvGuiItem (percentage : QArith_base.Q).    (* [progress_gui.item.emit] *)

(** Requests that leave the machine: to instantiate a media object from
    its id, or to fetch a manifest, a playlist, content or lyrics. *)
Definition is_fetch (ev : Event) : bool :=
  match ev with
  | EvResolve _ _ | EvStream _ | EvGetUrl _ | EvM3u8Load _ | EvGet _ | EvLyrics _ => true
  | _ => false
  end.

Definition is_content_fetch (ev : Event) : bool :=
  match ev with
  | EvGet _ => true
  | _ => false
  end.

(** A task of [rich.progress.Progress]. [total] is kept as the fraction
    [total_num / total_den] ([total_den > 0]) so that the float
    [total_size_in_bytes / block_size] needs no rounding: the library's test
    [completed >= total] is [completed * total_den >= total_num]. *)
Record Task := {
  total_num : Z;
  total_den : Z;
  completed : Z;
  finished : bool
}.

Abbreviation Bytes := (list Byte.byte).

Record World := {
  fs : gmap string Bytes;      (* regular files, by path *)
  trace : list Event;          (* what the collaborators were asked, oldest first *)
  tasks : list Task            (* [progress.tasks] *)
}.

(** A response of [requests.get(..., stream=True)]. *)
Record Response := {
  status_code : Z;
  content_length : option Z;                 (* the header, when present *)
  iter_content : option Z → list Bytes;      (* chunks for a [chunk_size] *)
  body_error : option string                 (* connection lost after the chunks *)
}.

(** ** The state-and-exception monad *)

Inductive Outcome (A : Type) :=
| Return (a : A)
| Raise (e : Exn)
| OutOfFuel.
Arguments Return {A} a.
Arguments Raise {A} e.
Arguments OutOfFuel {A}.

Definition M (A : Type) : Type := World → Outcome A * World.

Definition ret {A} (a : A) : M A := λ w, (Return a, w).

Definition bind {A B} (m : M A) (k : A → M B) : M B :=
  λ w, match m w with
       | (Return a, w') => k a w'
       | (Raise e, w') => (Raise e, w')
       | (OutOfFuel, w') => (OutOfFuel, w')
       end.

Definition raise {A} (e : Exn) : M A := λ w, (Raise e, w).

Definition out_of_fuel {A} : M A := λ w, (OutOfFuel, w).

#[global] Instance M_ret : MRet M := @ret.
#[global] Instance M_bind : MBind M := λ A B k m, bind m k.

(** [try: body except HTTPError as e: handler(e)]. *)
Definition try_except_HTTPError (body : M unit) (handler : Exn → M unit) : M unit :=
  λ w, match body w with
       | (Raise (HTTPError s), w') => handler (HTTPError s) w'
       | r => r
       end.

(** A [with] block whose exit action runs on every way out, by return and
    by exception. A body that has not ended has not left the block, and
    the exit action has not run. *)
Definition finally {A} (body : M A) (cleanup : World → World) : M A :=
  λ w, match body w with
       | (OutOfFuel, w') => (OutOfFuel, w')
       | (o, w') => (o, cleanup w')
       end.

Definition get_world : M World := λ w, (Return w, w).

Definition emit (ev : Event) : M unit :=
  λ w, (Return tt, {| fs := fs w; trace := trace w ++ [ev]; tasks := tasks w |}).

Definition put_fs (f : gmap string Bytes) : M unit :=
  λ w, (Return tt, {| fs := f; trace := trace w; tasks := tasks w |}).

Definition put_tasks (t : list Task) : M unit :=
  λ w, (Return tt, {| fs := fs w; trace := trace w; tasks := t |}).

(** [l[i]] on a Python list. *)
Definition subscript {A} (l : list A) (i : nat) : M A :=
  match l !! i with
  | Some x => ret x
  | None => raise IndexError
  end.

(** [for x in l] on a value that is a list or [None]: [None] is not
    iterable. *)
Definition iter {A} (l : option (list A)) : M (list A) :=
  match l with
  | Some l => ret l
  | None => raise TypeError
  end.

(** [d[key]] on the decoded JSON object. *)
Definition getitem {A} (field : option A) (key : string) : M A :=
  match field with
  | Some x => ret x
  | None => raise (KeyError key)
  end.

Fixpoint for_each {A} (l : list A) (body : A → M unit) : M unit :=
  match l with
  | [] => ret tt
  | x :: rest => body x ;; for_each rest body
  end.

(** ** Collaborators *)

(** Everything the module calls and does not define. The oracles of the
    session and the network answer a request given the events so far, so
    that a server may answer the same URL differently on a second attempt;
    [inl] is the exception raised inside the collaborator. The helpers are
    taken as total functions. [fn_logger] is both called ([fn_logger(e)])
    and used through [info] and [debug]; each use is an event of the
    trace. *)
Record Env := {
  (* [StreamManifestMimeType.MPD.value], [.BTS.value], [.VIDEO.value] *)
  MPD_value : string;
  BTS_value : string;
  VIDEO_value : string;
  (* decoders; [MPEGDASHParser.parse] is taken on the text of a document,
     which it parses from the string (given another text it would open its
     argument as a URL or a file: not modelled) *)
  b64decode_utf8 : string → option string;
  MPEGDASHParser_parse : string → option Dash.MPD;
  json_loads : string → option Bts.Envelope;
  (* session and network *)
  media_stream : list Event → Media → string + (string * string);
  media_get_url : list Event → Media → string + string;
  m3u8_load : list Event → string → string + Hls.M3U8;
  requests_get : list Event → string → string + Response;
  track_lyrics : list Event → Media → Z + string;   (* [inl]: an [HTTPError] *)
  (* helpers of the package and of the standard library *)
  name_builder_item : Media → string;
  format_path_media : string → Media → string;
  os_path_resolve : string → string → string;   (* [abspath(normpath(join(a, b)))] *)
  path_file_sanitize : string → string;         (* with [adapt=True] *)
  splitext : string → string * string;
  mkdtemp : string;                             (* the directory of [TemporaryDirectory] *)
  uuid4 : string;
  decrypt_security_token : string → option (Bytes * Bytes);
  cipher : Bytes → Bytes → Bytes → Bytes;       (* key, nonce, content *)
  metadata_save : Media → string → Bytes → option Bytes;   (* [Metadata(...).save()] *)
  ffmpeg_copy : Bytes → option Bytes
}.

(** The [Download] object: [self.settings.data] and [self.skip_existing]. *)
Record Download := {
  settings : Settings;
  skip_existing : SkipExisting
}.

(** The chunk size of the single-resource path. *)
Definition BLOCK_SIZE : Z := 4096.

Section Code.

Variable env : Env.
Variable self : Download.

(** *** Calls that leave the process *)

Definition call {A} (ev : Event) (oracle : list Event → string + A)
    (exn : string → Exn) : M A :=
  w ← get_world;
  emit ev;;
  match oracle (trace w) with
  | inl msg => raise (exn msg)
  | inr a => ret a
  end.

Definition requests_get_ (url : string) : M Response :=
  call (EvGet url) (λ h, requests_get env h url) RequestError.

Definition m3u8_load_ (uri : string) : M Hls.M3U8 :=
  call (EvM3u8Load uri) (λ h, m3u8_load env h uri) ExternalError.

Definition media_stream_ (media : Media) : M (string * string) :=
  call (EvStream media) (λ h, media_stream env h media) ExternalError.

(** Only [Video] has [get_url]. *)
Definition media_get_url_ (media : Media) : M string :=
  match media_class media with
  | Video => call (EvGetUrl media) (λ h, media_get_url env h media) ExternalError
  | _ => raise AttributeError
  end.

Definition raise_for_status (r : Response) : M unit :=
  if (400 <=? status_code r) && (status_code r <? 600)
  then raise (HTTPError (status_code r))
  else ret tt.

Definition from_decoder {A} (what : string) (o : option A) : M A :=
  match o with
  | Some a => ret a
  | None => raise (ExternalError what)
  end.

(** *** The progress collaborator ([rich.progress.Progress]) *)

Definition add_task (num den : Z) : M nat :=
  w ← get_world;
  put_tasks (tasks w ++ [{| total_num := num; total_den := den;
                            completed := 0; finished := false |}]);;
  ret (length (tasks w)).

Definition advance_task (t : Task) : Task :=
  let c := completed t + 1 in
  {| total_num := total_num t; total_den := total_den t; completed := c;
     finished := finished t || (total_num t <=? c * total_den t) |}.

Definition advance (p_task : nat) : M unit :=
  w ← get_world;
  match tasks w !! p_task with
  | Some t => put_tasks (<[p_task := advance_task t]> (tasks w))
  | None => raise (KeyError "task")
  end.

Definition task_finished (p_task : nat) : M bool :=
  w ← get_world;
  t ← subscript (tasks w) p_task;
  ret (finished t).

(** [Task.percentage]: [0.0] for a falsy [total], and
    [min(100.0, max(0.0, completed / total * 100.0))] otherwise; the float is
    kept as the exact rational. *)
Definition percentage (t : Task) : QArith_base.Q :=
  if total_num t =? 0 then QArith_base.inject_Z 0
  else
    let total :=
      QArith_base.Qdiv (QArith_base.inject_Z (total_num t))
                       (QArith_base.inject_Z (total_den t)) in
    Qminmax.Qmin (QArith_base.inject_Z 100)
      (Qminmax.Qmax (QArith_base.inject_Z 0)
         (QArith_base.Qmult
            (QArith_base.Qdiv (QArith_base.inject_Z (completed t)) total)
            (QArith_base.inject_Z 100))).

Definition task_percentage (p_task : nat) : M QArith_base.Q :=
  w ← get_world;
  t ← subscript (tasks w) p_task;
  ret (percentage t).

(** *** Files *)

(** [open(path_file, "wb")]: the file is created or truncated. *)
Definition open_wb (path_file : string) : M unit :=
  w ← get_world;
  put_fs (<[path_file := []]> (fs w)).

(** [f.write(data)] on the file opened at [path_file]. *)
Definition f_write (path_file : string) (data : Bytes) : M unit :=
  w ← get_world;
  put_fs (alter (λ content : Bytes, (content ++ data)%list) path_file (fs w)).

Definition read_file (path_file : string) : M Bytes :=
  w ← get_world;
  match fs w !! path_file with
  | Some content => ret content
  | None => raise (OSError path_file)
  end.

Definition write_file (path_file : string) (content : Bytes) : M unit :=
  w ← get_world;
  put_fs (<[path_file := content]> (fs w)).

(** [shutil.move(src, dst)] of a regular file. *)
Definition shutil_move (src dst : string) : M unit :=
  content ← read_file src;
  w ← get_world;
  put_fs (<[dst := content]> (delete src (fs w))).

(** [os.path.join] of a directory without trailing separator and a
    relative name. *)
Definition os_path_join (dir name : string) : string :=
  dir +:+ "/" +:+ name.

(** Leaving [tempfile.TemporaryDirectory]: the directory and what it holds
    are removed. *)
Definition rmtree (dir : string) (w : World) : World :=
  {| fs := filter (λ kv, String.prefix (dir +:+ "/") kv.1 = false) (fs w);
     trace := trace w;
     tasks := tasks w |}.

(** Modelled from the spec: [helper.path.check_file_exists] is defined
    outside [download.py]; the spec has it "check for an existing file at
    the computed path (optionally ignoring extension)". *)
Definition check_file_exists (files : gmap string Bytes) (path_file : string)
    (extension_ignore : bool) : bool :=
  if extension_ignore
  then existsb (λ kv, String.eqb (splitext env kv.1).1 (splitext env path_file).1)
               (map_to_list files)
  else bool_decide (is_Some (files !! path_file)).

(** Modelled from the spec: [helper.decryption.decrypt_file] is defined
    outside [download.py]; the spec has it read the input file, apply the
    cipher keyed by (key, nonce) and write the plaintext to a distinct
    output path, leaving the input file as it is. *)
Definition decrypt_file (path_in path_out : string) (key nonce : Bytes) : M unit :=
  content ← read_file path_in;
  write_file path_out (cipher env key nonce content).

(** *** [Download.metadata_write] *)

Definition metadata_write (track : Media) (path_file : string) : M bool :=
  lyrics ←
    (if lyrics_save (settings self)
     then
       w ← get_world;
       emit (EvLyrics track);;
       match track_lyrics env (trace w) track with
       | inr subtitles => ret subtitles
       | inl _ =>
           emit (EvPrint ("Could not retrieve lyrics for `"
                          +:+ name_builder_item env track +:+ "`."));;
           ret ""
       end
     else ret "");
  content ← read_file path_file;
  tagged ← from_decoder "Metadata.save" (metadata_save env track lyrics content);
  write_file path_file tagged;;
  ret true.

(** *** [Download._video_convert] *)

Definition _video_convert (path_file : string) : M string :=
  let path_file_out := (splitext env path_file).1 +:+ ".mp4" in
  content ← read_file path_file;
  converted ← from_decoder "ffmpeg" (ffmpeg_copy env content);
  write_file path_file_out converted;;
  ret path_file_out.

(** *** [Download._extract_video_stream] *)

(** [playlist.stream_info.resolution[1]]. *)
Definition resolution_height (playlist : Hls.Playlist) : M Z :=
  match Hls.resolution (Hls.stream_info playlist) with
  | Some (_, h) => ret h
  | None => raise TypeError
  end.

(** The [for playlist in m3u8_variant.playlists] loop, with its three
    locals; [None] stands for the initial [False]. *)
Fixpoint extract_loop (quality : Z) (playlists : list Hls.Playlist)
    (m3u8_playlist : option Hls.M3U8) (resolution_best : Z) (mime_type : string)
    : M (option Hls.M3U8 * string) :=
  match playlists with
  | [] => ret (m3u8_playlist, mime_type)
  | playlist :: rest =>
      h ← resolution_height playlist;
      if resolution_best <? h
      then
        loaded ← m3u8_load_ (Hls.uri playlist);
        let mime_type' := Hls.codecs (Hls.stream_info playlist) in
        if quality =? h
        then ret (Some loaded, mime_type')
        else extract_loop quality rest (Some loaded) h mime_type'
      else extract_loop quality rest m3u8_playlist resolution_best mime_type
  end.

(** [quality] is [settings.data.quality_video.value]; it is compared with
    the [int] [resolution[1]] and is taken as an [int] here. *)
Definition _extract_video_stream (m3u8_variant : Hls.M3U8) (quality : Z)
    : M (option Hls.M3U8 * string) :=
  if Hls.is_variant m3u8_variant
  then extract_loop quality (Hls.playlists m3u8_variant) None 0 ""
  else ret (None, "").

(** *** [Download.stream_manifest_parse] *)

(** [s.r if s.r else 1]: [None] and [0] are falsy. *)
Definition repeat_or_1 (s : Dash.S) : Z :=
  match Dash.r s with
  | Some 0 | None => 1
  | Some n => n
  end.

(** [segments_count = 1 + 1] followed by the loop over the timeline. *)
Definition count_segments (Ss : list Dash.S) : Z :=
  fold_left (λ segments_count s, segments_count + repeat_or_1 s) Ss (1 + 1).

(** [range(n)]. *)
Definition range (n : Z) : list nat := seq 0 (Z.to_nat n).

Definition segment_urls (media : string) (segments_count : Z) : list string :=
  map (λ index, PyStr.replace "$Number$" (PyStr.str_of_nat index) media)
      (range segments_count).

(** What a branch leaves in the locals [stream_urls], [codecs],
    [mime_type], [encryption_type], [encryption_key]. *)
Record ManifestLocals := {
  l_stream_urls : list string;
  l_codecs : string;
  l_mime_type : string;
  l_encryption_type : string;
  l_encryption_key : option string
}.

Definition parse_mpd (manifest : string) : M ManifestLocals :=
  manifest_parsed ← from_decoder "b64decode" (b64decode_utf8 env manifest);
  mpd ← from_decoder "MPEGDASHParser.parse" (MPEGDASHParser_parse env manifest_parsed);
  period ← subscript (Dash.periods mpd) 0;
  adaptation_set ← subscript (Dash.adaptation_sets period) 0;
  representation ← subscript (Dash.representations adaptation_set) 0;
  segment_template ← subscript (Dash.segment_templates representation) 0;
  segment_timeline ← subscript (Dash.segment_timelines segment_template) 0;
  Ss ← iter (Dash.Ss segment_timeline);
  let segments_count := count_segments Ss in
  ret {| l_stream_urls := segment_urls (Dash.media segment_template) segments_count;
         l_codecs := Dash.codecs representation;
         l_mime_type := Dash.mime_type adaptation_set;
         l_encryption_type := "NONE";
         l_encryption_key := None |}.

Definition parse_bts (manifest : string) : M ManifestLocals :=
  manifest_parsed ← from_decoder "b64decode" (b64decode_utf8 env manifest);
  stream_manifest ← from_decoder "json.loads" (json_loads env manifest_parsed);
  stream_urls ← getitem (Bts.urls stream_manifest) "urls";
  codecs ← getitem (Bts.codecs stream_manifest) "codecs";
  mime_type ← getitem (Bts.mimeType stream_manifest) "mimeType";
  encryption_type ← getitem (Bts.encryptionType stream_manifest) "encryptionType";
  encryption_key ←
    (if is_encrypted encryption_type
     then getitem (Bts.encryptionKey stream_manifest) "encryptionKey"
     else ret None);
  ret {| l_stream_urls := stream_urls;
         l_codecs := codecs;
         l_mime_type := mime_type;
         l_encryption_type := encryption_type;
         l_encryption_key := encryption_key |}.

Definition parse_video (manifest mime_type : string) : M ManifestLocals :=
  m3u8_variant ← m3u8_load_ manifest;
  '(m3u8_playlist, codecs) ←
    _extract_video_stream m3u8_variant (quality_video (settings self));
  stream_urls ←
    match m3u8_playlist with
    | Some playlist => ret (Hls.files playlist)
    | None => raise AttributeError        (* [False.files] *)
    end;
  ret {| l_stream_urls := stream_urls;
         l_codecs := codecs;
         l_mime_type := mime_type;
         l_encryption_type := "NONE";
         l_encryption_key := None |}.

Definition stream_manifest_parse (manifest mime_type : string) : M StreamManifest :=
  locals ←
    (if String.eqb mime_type (MPD_value env) then parse_mpd manifest
     else if String.eqb mime_type (BTS_value env) then parse_bts manifest
     else if String.eqb mime_type (VIDEO_value env) then parse_video manifest mime_type
     else raise UnknownManifestFormat);
  url0 ← subscript (l_stream_urls locals) 0;
  let file_extension := get_file_extension url0 (l_codecs locals) in
  ret {| urls := l_stream_urls locals;
         codecs := l_codecs locals;
         file_extension := file_extension;
         encryption_type := l_encryption_type locals;
         encryption_key := l_encryption_key locals;
         mime_type := l_mime_type locals |}.

(** *** [Download._download] *)

(** The body of [for data in r.iter_content(...)]. *)
Definition write_chunk (path_file : string) (p_task : nat) (progress_stdout : bool)
    (data : Bytes) : M unit :=
  f_write path_file data;;
  advance p_task;;
  if progress_stdout then ret tt
  else c ← task_percentage p_task; emit (EvGuiItem c).

(** The body of [for url in stream_manifest.urls]. *)
Definition fetch_url (block_size : option Z) (path_file : string) (p_task : nat)
    (progress_stdout : bool) (url : string) : M unit :=
  r ← requests_get_ url;
  raise_for_status r;;
  for_each (iter_content r block_size) (write_chunk path_file p_task progress_stdout);;
  match body_error r with
  | Some msg => raise (RequestError msg)
  | None => ret tt
  end.

(** [with open(path_file, "wb") as f]: one pass over all URLs. *)
Definition write_pass (sm_urls : list string) (block_size : option Z)
    (path_file : string) (p_task : nat) (progress_stdout : bool) : M unit :=
  open_wb path_file;;
  for_each sm_urls (fetch_url block_size path_file p_task progress_stdout).

(** [while not progress.tasks[p_task].finished: ...]; [fuel] bounds the
    number of passes. *)
Fixpoint write_loop (fuel : nat) (sm_urls : list string) (block_size : option Z)
    (path_file : string) (p_task : nat) (progress_stdout : bool) : M unit :=
  is_finished ← task_finished p_task;
  if (is_finished : bool) then ret tt
  else
    match fuel with
    | O => out_of_fuel
    | S fuel' =>
        write_pass sm_urls block_size path_file p_task progress_stdout;;
        write_loop fuel' sm_urls block_size path_file p_task progress_stdout
    end.

(** The [try] block. *)
Definition fetch_all (fuel : nat) (stream_manifest : StreamManifest)
    (media_name path_file : string) (progress_stdout : bool) : M unit :=
  let urls_count := length (urls stream_manifest) in
  '(progress_total, block_size) ←
    (if (1 <? urls_count)%nat
     then ret ((Z.of_nat urls_count, 1), None)
     else
       url0 ← subscript (urls stream_manifest) 0;
       r ← requests_get_ url0;
       raise_for_status r;;
       let total_size_in_bytes := default 0 (content_length r) in
       ret ((total_size_in_bytes, BLOCK_SIZE), Some BLOCK_SIZE));
  p_task ← add_task progress_total.1 progress_total.2;
  write_loop fuel (urls stream_manifest) block_size path_file p_task progress_stdout.

(** "Check if file is encrypted" and the decryption that follows. *)
Definition decrypt_if_needed (stream_manifest : StreamManifest) (path_file : string)
    : M string :=
  let needs_decryption := is_encrypted (encryption_type stream_manifest) in
  if needs_decryption
  then
    token ← match encryption_key stream_manifest with
            | Some k => ret k
            | None => raise TypeError        (* the token is [None] *)
            end;
    '(key, nonce) ← from_decoder "decrypt_security_token"
                       (decrypt_security_token env token);
    let tmp_path_file_decrypted := path_file +:+ "_decrypted" in
    decrypt_file path_file tmp_path_file_decrypted key nonce;;
    ret tmp_path_file_decrypted
  else ret path_file.

(** "Write metadata to file", unless the media is a [Video]. *)
Definition write_metadata (media : Media) (path_file : string) : M unit :=
  match media_class media with
  | Video => ret tt
  | _ => metadata_write media path_file;; ret tt
  end.

Definition _download (fuel : nat) (media : Media) (progress_gui : bool)
    (stream_manifest : StreamManifest) (path_file : string) : M string :=
  let media_name := name_builder_item env media in
  let progress_stdout := negb progress_gui in
  (if progress_gui then emit (EvGuiItemName media_name) else ret tt);;
  try_except_HTTPError
    (fetch_all fuel stream_manifest media_name path_file progress_stdout)
    (λ e, emit (EvLogExn e));;
  tmp_path_file_decrypted ← decrypt_if_needed stream_manifest path_file;
  write_metadata media tmp_path_file_decrypted;;
  ret tmp_path_file_decrypted.

(** *** [Download.instantiate_media] *)

Definition new_media (c : MediaClass) (id_media : string) : M Media :=
  emit (EvResolve c id_media);;
  ret {| media_class := c; media_ident := id_media |}.

Definition instantiate_media (media_type : MediaType) (id_media : string) : M Media :=
  match media_type with
  | TRACK => new_media Track id_media
  | VIDEO => new_media Video id_media
  | ALBUM => new_media Album id_media
  | PLAYLIST => new_media Playlist id_media
  | MIX => new_media Mix id_media
  | OtherMediaType _ => raise MediaUnknown
  end.

(** *** [Download.item] *)

(** Truthiness of [media_id and media_type]: a non-empty id and a type
    that is not [None]. *)
Definition complete_pair (media_id : option string) (media_type : option MediaType)
    : option (string * MediaType) :=
  match media_id, media_type with
  | Some id, Some t => if String.eqb id "" then None else Some (id, t)
  | _, _ => None
  end.

Definition resolve_media (media : option Media) (media_id : option string)
    (media_type : option MediaType) : M Media :=
  match complete_pair media_id media_type with
  | Some (id, t) => instantiate_media t id
  | None =>
      match media with
      | Some m => ret m
      | None => raise MediaMissing
      end
  end.

Definition is_Video (media : Media) : bool :=
  match media_class media with Video => true | _ => false end.

Definition is_Track (media : Media) : bool :=
  match media_class media with Track => true | _ => false end.

(** The [with tempfile.TemporaryDirectory(...)] block. [os.makedirs] has
    no counterpart: the file system of the model holds files only. *)
Definition download_and_place (fuel : nat) (media : Media) (progress_gui : bool)
    (stream_manifest : StreamManifest) (path_file : string) : M (bool * string) :=
  let tmp_path_dir := mkdtemp env in
  finally
    (let tmp_path_file :=
       os_path_join tmp_path_dir (uuid4 env +:+ file_extension stream_manifest) in
     tmp_path_file ← _download fuel media progress_gui stream_manifest tmp_path_file;
     '(tmp_path_file, path_file) ←
       (if is_Video media && video_convert_mp4 (settings self)
        then
          converted ← _video_convert tmp_path_file;
          ret (converted, (splitext env path_file).1 +:+ ".mp4")
        else ret (tmp_path_file, path_file));
     shutil_move tmp_path_file path_file;;
     ret (true, path_file))
    (rmtree tmp_path_dir).

(** "Populate StreamManifest for further download": the manifest string
    and its MIME type, from the stream of a track or the URL of a video. *)
Definition fetch_manifest (media : Media) : M (string * string) :=
  if is_Track media
  then media_stream_ media
  else url ← media_get_url_ media; ret (url, VIDEO_value env).

(** The final [path_file]: the resolved template path with the manifest's
    extension appended, sanitized. *)
Definition destination_path (path_base file_template : string) (media : Media)
    (stream_manifest : StreamManifest) : string :=
  let file_name_relative := format_path_media env file_template media in
  let path_file := os_path_resolve env path_base file_name_relative in
  path_file_sanitize env (path_file +:+ file_extension stream_manifest).

(** "Compute if and how downloads need to be skipped." *)
Definition compute_download_skip (files : gmap string Bytes) (path_file : string) : bool :=
  if skip_existing_value (skip_existing self)
  then
    let extension_ignore :=
      match skip_existing self with ExtensionIgnore => true | _ => false end in
    check_file_exists files path_file extension_ignore
  else false.

(** [item] from "If video download is not allowed end here" on, with the
    media handle at hand. *)
Definition item_resolved (fuel : nat) (path_base file_template : string)
    (media : Media) (video_download progress_gui : bool) : M (bool * string) :=
  if negb video_download
  then
    emit (EvLog LInfo
            ("Video downloads are deactivated (see settings). Skipping video: "
             +:+ name_builder_item env media));;
    ret (false, "")
  else
    '(manifest, mime_type) ← fetch_manifest media;
    stream_manifest ← stream_manifest_parse manifest mime_type;
    let path_file := destination_path path_base file_template media stream_manifest in
    w ← get_world;
    let download_skip := compute_download_skip (fs w) path_file in
    if negb download_skip
    then download_and_place fuel media progress_gui stream_manifest path_file
    else
      emit (EvLog LDebug
              ("Download skipped, since file exists: '" +:+ path_file +:+ "'"));;
      ret (false, path_file).

Definition item (fuel : nat) (path_base file_template : string)
    (media : option Media) (media_id : option string) (media_type : option MediaType)
    (video_download progress_gui : bool) : M (bool * string) :=
  media ← resolve_media media media_id media_type;
  item_resolved fuel path_base file_template media video_download progress_gui.

End Code.

(** ** A concrete service, for running the code *)

Module Example.

Definition MPD_mime : string := "application/dash+xml".
Definition BTS_mime : string := "application/vnd.tidal.bts".
Definition VIDEO_mime : string := "video/mp2t".

(** [os.path.splitext] on paths whose base name has no leading dot. *)
Fixpoint split_last_dot (s : string) : option (string * string) :=
  match s with
  | EmptyString => None
  | String c rest =>
      match split_last_dot rest with
      | Some (stem, ext) => Some (String c stem, ext)
      | None => if Ascii.eqb c "." then Some (EmptyString, s) else None
      end
  end.

Definition split_ext (p : string) : string * string :=
  match split_last_dot p with
  | Some (stem, ext) => if PyStr.contains "/" ext then (p, "") else (stem, ext)
  | None => (p, "")
  end.

(** The timeline [[{r:2},{r:None},{r:0}]]. *)
Definition timeline : list Dash.S :=
  [ {| Dash.r := Some 2 |}; {| Dash.r := None |}; {| Dash.r := Some 0 |} ].

Definition segment_template : Dash.SegmentTemplate :=
  {| Dash.media := "https://cdn.example/a/$Number$.mp4";
     Dash.segment_timelines := [ {| Dash.Ss := Some timeline |} ] |}.

Definition mpd : Dash.MPD :=
  {| Dash.periods :=
       [ {| Dash.adaptation_sets :=
              [ {| Dash.mime_type := "audio/mp4";
                   Dash.representations :=
                     [ {| Dash.codecs := "flac";
                          Dash.segment_templates := [segment_template] |} ] |} ] |} ] |}.

Definition envelope_plain : Bts.Envelope :=
  {| Bts.urls := Some ["https://cdn.example/t/1.flac"];
     Bts.codecs := Some "flac";
     Bts.mimeType := Some "audio/flac";
     Bts.encryptionType := Some "NONE";
     Bts.encryptionKey := None |}.

Definition envelope_encrypted : Bts.Envelope :=
  {| Bts.urls := Some ["https://cdn.example/t/2.flac"];
     Bts.codecs := Some "flac";
     Bts.mimeType := Some "audio/flac";
     Bts.encryptionType := Some "OLD_AES";
     Bts.encryptionKey := Some (Some "a2V5") |}.

(** The envelope [{..., encryptionType: "OLD_AES", encryptionKey: null}]. *)
Definition envelope_null_key : Bts.Envelope :=
  {| Bts.urls := Some ["https://cdn.example/t/4.flac"];
     Bts.codecs := Some "flac";
     Bts.mimeType := Some "audio/flac";
     Bts.encryptionType := Some "OLD_AES";
     Bts.encryptionKey := Some None |}.

Definition rendition (uri : string) (width height : Z) (codec : string) : Hls.Playlist :=
  {| Hls.uri := uri;
     Hls.stream_info := {| Hls.resolution := Some (width, height); Hls.codecs := codec |} |}.

Definition r360 := rendition "https://cdn.example/v/360.m3u8" 640 360 "avc1.360".
Definition r480 := rendition "https://cdn.example/v/480.m3u8" 854 480 "avc1.480".
Definition r720 := rendition "https://cdn.example/v/720.m3u8" 1280 720 "avc1.720".

Definition media_playlist (quality : string) : Hls.M3U8 :=
  {| Hls.is_variant := false;
     Hls.playlists := [];
     Hls.files := [ "https://cdn.example/v/" +:+ quality +:+ "/seg0.ts";
                    "https://cdn.example/v/" +:+ quality +:+ "/seg1.ts" ] |}.

Definition variant (renditions : list Hls.Playlist) : Hls.M3U8 :=
  {| Hls.is_variant := true; Hls.playlists := renditions; Hls.files := [] |}.

Definition load_playlist (history : list Event) (uri : string) : string + Hls.M3U8 :=
  if String.eqb uri "https://api.example/v/ascending.m3u8" then inr (variant [r360; r480; r720])
  else if String.eqb uri "https://api.example/v/descending.m3u8" then inr (variant [r720; r480])
  else if String.eqb uri "https://api.example/v/direct.m3u8" then inr (media_playlist "direct")
  else if String.eqb uri "https://cdn.example/v/360.m3u8" then inr (media_playlist "360")
  else if String.eqb uri "https://cdn.example/v/480.m3u8" then inr (media_playlist "480")
  else if String.eqb uri "https://cdn.example/v/720.m3u8" then inr (media_playlist "720")
  else inl "404".

Definition AB : Bytes := [Byte.x41; Byte.x42].
Definition CD : Bytes := [Byte.x43; Byte.x44].

Definition ok_response (chunks : list Bytes) : Response :=
  {| status_code := 200;
     content_length := Some (Z.of_nat (length (concat chunks)));
     iter_content := λ _, chunks;
     body_error := None |}.

Definition error_response (status : Z) : Response :=
  {| status_code := status;
     content_length := None;
     iter_content := λ _, [];
     body_error := None |}.

(** The second segment of the 720 rendition is answered with status 500,
    the host [down.example] does not answer at all. *)
Definition answer_get (history : list Event) (url : string) : string + Response :=
  if String.eqb url "https://cdn.example/v/720/seg1.ts" then inr (error_response 500)
  else if String.prefix "https://down.example/" url then inl "timed out"
  else if PyStr.contains "seg0" url then inr (ok_response [AB])
  else inr (ok_response [CD]).

Definition stream_of (history : list Event) (m : Media) : string + (string * string) :=
  if String.eqb (media_ident m) "t-plain" then inr ("plain", BTS_mime)
  else if String.eqb (media_ident m) "t-encrypted" then inr ("encrypted", BTS_mime)
  else if String.eqb (media_ident m) "t-dash" then inr ("dash", MPD_mime)
  else if String.eqb (media_ident m) "t-odd" then inr ("odd", "text/plain")
  else inl "404".

Definition url_of (history : list Event) (m : Media) : string + string :=
  inr ("https://api.example/v/" +:+ media_ident m +:+ ".m3u8").

Definition env : Env :=
  {| MPD_value := MPD_mime;
     BTS_value := BTS_mime;
     VIDEO_value := VIDEO_mime;
     b64decode_utf8 := λ s, Some s;
     MPEGDASHParser_parse := λ s, if String.eqb s "dash" then Some mpd else None;
     json_loads := λ s,
       if String.eqb s "plain" then Some envelope_plain
       else if String.eqb s "encrypted" then Some envelope_encrypted
       else if String.eqb s "null-key" then Some envelope_null_key
       else None;
     media_stream := stream_of;
     media_get_url := url_of;
     m3u8_load := load_playlist;
     requests_get := answer_get;
     track_lyrics := λ _ _, inr "la la";
     name_builder_item := λ m, media_ident m;
     format_path_media := λ template m, template +:+ media_ident m;
     os_path_resolve := λ base rel, base +:+ "/" +:+ rel;
     path_file_sanitize := λ p, p;
     splitext := split_ext;
     mkdtemp := "/tmp/tmpdl";
     uuid4 := "0000";
     decrypt_security_token := λ _, Some ([Byte.x00], [Byte.x01]);
     cipher := λ _ _ content, content;
     metadata_save := λ _ _ content, Some content;
     ffmpeg_copy := λ content, Some content |}.

Definition settings_for (quality : Z) : Settings :=
  {| quality_video := quality; video_convert_mp4 := false; lyrics_save := false |}.

Definition downloader (quality : Z) (skip : SkipExisting) : Download :=
  {| settings := settings_for quality; skip_existing := skip |}.

Definition video (id : string) : Media := {| media_class := Video; media_ident := id |}.
Definition track (id : string) : Media := {| media_class := Track; media_ident := id |}.

Definition empty_world : World := {| fs := ∅; trace := []; tasks := [] |}.

(** The manifest of the 720 rendition, as the playlist path builds it, and
    one whose only URL is on the host that does not answer. *)
Definition manifest_720 : StreamManifest :=
  {| urls := Hls.files (media_playlist "720");
     codecs := "avc1.720";
     file_extension := ".ts";
     encryption_type := "NONE";
     encryption_key := None;
     mime_type := VIDEO_mime |}.

(** The world in which the fetch of [manifest_720] into [path] ends: the
    first segment written, the second request answered with status 500. *)
Definition world_after_error (path : string) : World :=
  {| fs := {[ path := AB ]};
     trace := [ EvGet "https://cdn.example/v/720/seg0.ts";
                EvGet "https://cdn.example/v/720/seg1.ts" ];
     tasks := [ {| total_num := 2; total_den := 1; completed := 1; finished := false |} ] |}.

Definition manifest_down : StreamManifest :=
  {| urls := ["https://down.example/t/3.flac"];
     codecs := "flac";
     file_extension := ".flac";
     encryption_type := "NONE";
     encryption_key := None;
     mime_type := "audio/flac" |}.

Definition world_with (path : string) (content : Bytes) : World :=
  {| fs := {[ path := content ]}; trace := []; tasks := [] |}.

End Example.

(** ** Vocabulary of the statements *)

Definition Zsum (l : list Z) : Z := foldr Z.add 0 l.

(** [m] relates every start world to its end world by [R] and raises no
    exception of the class [bad]. *)
Definition respects {A} (R : World → World → Prop) (bad : Exn → Prop) (m : M A) : Prop :=
  ∀ w o w', m w = (o, w') → R w w' ∧ ∀ e, o = Raise e → ¬ bad e.

(** The three classification errors of the package. *)
Definition classification (e : Exn) : Prop :=
  e = MediaMissing ∨ e = MediaUnknown ∨ e = UnknownManifestFormat.

Definition add_event (ev : Event) (w : World) : World :=
  {| fs := fs w; trace := trace w ++ [ev]; tasks := tasks w |}.

(** The trace grew by events for which [allowed] holds. *)
Definition trace_extends (allowed : Event → bool) (w w' : World) : Prop :=
  ∃ evs, trace w' = trace w ++ evs ∧ forallb allowed evs = true.

Definition not_content_fetch (ev : Event) : bool := negb (is_content_fetch ev).

(** Files and tasks are as before, and no content was requested. *)
Definition quiet (w w' : World) : Prop :=
  fs w' = fs w ∧ tasks w' = tasks w ∧ trace_extends not_content_fetch w w'.

(** The requests for a manifest, a playlist or content made so far, and
    those for content alone. *)
Definition fetches (w : World) : list Event := List.filter is_fetch (trace w).

Definition content_fetches (w : World) : list Event :=
  List.filter is_content_fetch (trace w).

(** The five members of [MediaType] that [instantiate_media] knows, and the
    three manifest MIME types that [stream_manifest_parse] knows. *)
Definition recognized_media_type (t : MediaType) : Prop :=
  t = TRACK ∨ t = VIDEO ∨ t = ALBUM ∨ t = PLAYLIST ∨ t = MIX.

Definition recognized_manifest_mime (env : Env) (mime : string) : Prop :=
  mime = MPD_value env ∨ mime = BTS_value env ∨ mime = VIDEO_value env.

Definition anything (w w' : World) : Prop := True.

(** *** Rendition selection *)

(** The vertical resolution [stream_info.resolution[1]] of a rendition. *)
Definition height (p : Hls.Playlist) : Z :=
  match Hls.resolution (Hls.stream_info p) with
  | Some (_, h) => h
  | None => 0
  end.

Definition has_resolution (p : Hls.Playlist) : Prop :=
  is_Some (Hls.resolution (Hls.stream_info p)).

(** [m3u8.load] answers for the rendition, whatever happened before. *)
Definition loadable (env : Env) (p : Hls.Playlist) : Prop :=
  ∀ history, ∃ loaded, m3u8_load env history (Hls.uri p) = inr loaded.

(** The selection in the words of the spec: the maximum vertical resolution
    not exceeding the target. *)
Definition max_not_exceeding (quality : Z) (renditions : list Hls.Playlist)
    (p : Hls.Playlist) : Prop :=
  In p renditions
  ∧ height p ≤ quality
  ∧ ∀ q, In q renditions → height q ≤ quality → height q ≤ height p.

(** [p], listed after [before], has exactly the target resolution, which
    lies above [best], and every rendition before it lies below the target. *)
Definition exact_match (quality best : Z) (before : list Hls.Playlist)
    (p : Hls.Playlist) : Prop :=
  height p = quality ∧ best < quality ∧ Forall (λ q, height q < quality) before.

(** [p] is the first rendition of the highest resolution, which lies above
    [best]. *)
Definition first_highest (best : Z) (before : list Hls.Playlist) (p : Hls.Playlist)
    (after : list Hls.Playlist) : Prop :=
  best < height p
  ∧ Forall (λ q, height q < height p) before
  ∧ Forall (λ q, height q ≤ height p) after.

Definition no_exact_match (quality best : Z) (renditions : list Hls.Playlist) : Prop :=
  ∀ before p after,
    renditions = before ++ p :: after → ¬ exact_match quality best before p.

(** What the loop selects, started with [resolution_best = best]: the exact
    match if there is one, and the first highest rendition otherwise. *)
Definition selects (quality best : Z) (renditions before : list Hls.Playlist)
    (p : Hls.Playlist) (after : list Hls.Playlist) : Prop :=
  renditions = before ++ p :: after
  ∧ (exact_match quality best before p
     ∨ (no_exact_match quality best renditions ∧ first_highest best before p after)).

(** Tasks are as before, and no content was requested. *)
Definition no_more_fetching (w w' : World) : Prop :=
  tasks w' = tasks w ∧ trace_extends not_content_fetch w w'.

Definition unfinished (p_task : nat) (w : World) : Prop :=
  ∃ t, tasks w !! p_task = Some t ∧ finished t = false.

(** [path_file] created or emptied, as [open(path_file, "wb")] leaves it. *)
Definition truncated (path_file : string) (w : World) : World :=
  {| fs := <[path_file := []]> (fs w); trace := trace w; tasks := tasks w |}.

(** ** A service whose content host is down *)

Module Outage.

Definition envelope : Bts.Envelope :=
  {| Bts.urls := Some ["https://down.example/t/3.flac"];
     Bts.codecs := Some "flac";
     Bts.mimeType := Some "audio/flac";
     Bts.encryptionType := Some "NONE";
     Bts.encryptionKey := None |}.

(** As [Example.env], but every track has the manifest [envelope], whose
    only URL is on the host that does not answer. *)
Definition env : Env :=
  {| MPD_value := MPD_value Example.env;
     BTS_value := BTS_value Example.env;
     VIDEO_value := VIDEO_value Example.env;
     b64decode_utf8 := b64decode_utf8 Example.env;
     MPEGDASHParser_parse := MPEGDASHParser_parse Example.env;
     json_loads := λ _, Some envelope;
     media_stream := λ _ _, inr ("down", Example.BTS_mime);
     media_get_url := media_get_url Example.env;
     m3u8_load := m3u8_load Example.env;
     requests_get := requests_get Example.env;
     track_lyrics := track_lyrics Example.env;
     name_builder_item := name_builder_item Example.env;
     format_path_media := format_path_media Example.env;
     os_path_resolve := os_path_resolve Example.env;
     path_file_sanitize := path_file_sanitize Example.env;
     splitext := splitext Example.env;
     mkdtemp := mkdtemp Example.env;
     uuid4 := uuid4 Example.env;
     decrypt_security_token := decrypt_security_token Example.env;
     cipher := cipher Example.env;
     metadata_save := metadata_save Example.env;
     ffmpeg_copy := ffmpeg_copy Example.env |}.

End Outage.

(** ** A service whose content host answers with empty bodies *)

Module Hollow.

Definition response (url : string) : Response := Example.ok_response [].

(** As [Example.env], but every content request is answered with status 200
    and no content. *)
Definition env : Env :=
  {| MPD_value := MPD_value Example.env;
     BTS_value := BTS_value Example.env;
     VIDEO_value := VIDEO_value Example.env;
     b64decode_utf8 := b64decode_utf8 Example.env;
     MPEGDASHParser_parse := MPEGDASHParser_parse Example.env;
     json_loads := json_loads Example.env;
     media_stream := media_stream Example.env;
     media_get_url := media_get_url Example.env;
     m3u8_load := m3u8_load Example.env;
     requests_get := λ _ url, inr (response url);
     track_lyrics := track_lyrics Example.env;
     name_builder_item := name_builder_item Example.env;
     format_path_media := format_path_media Example.env;
     os_path_resolve := os_path_resolve Example.env;
     path_file_sanitize := path_file_sanitize Example.env;
     splitext := splitext Example.env;
     mkdtemp := mkdtemp Example.env;
     uuid4 := uuid4 Example.env;
     decrypt_security_token := decrypt_security_token Example.env;
     cipher := cipher Example.env;
     metadata_save := metadata_save Example.env;
     ffmpeg_copy := ffmpeg_copy Example.env |}.

End Hollow.

(** ** A service with an open-ended timeline *)

Module Live.

(** Two timeline entries with [r = -1]. *)
Definition timeline : list Dash.S :=
  [ {| Dash.r := Some (-1) |}; {| Dash.r := Some (-1) |} ].

Definition segment_template : Dash.SegmentTemplate :=
  {| Dash.media := "https://cdn.example/live/$Number$.mp4";
     Dash.segment_timelines := [ {| Dash.Ss := Some timeline |} ] |}.

Definition representation : Dash.Representation :=
  {| Dash.codecs := "mp4a"; Dash.segment_templates := [segment_template] |}.

Definition adaptation_set : Dash.AdaptationSet :=
  {| Dash.mime_type := "audio/mp4"; Dash.representations := [representation] |}.

Definition period : Dash.Period := {| Dash.adaptation_sets := [adaptation_set] |}.

Definition mpd : Dash.MPD := {| Dash.periods := [period] |}.

(** As [Example.env], but every adaptive-streaming manifest parses to [mpd]. *)
Definition env : Env :=
  {| MPD_value := MPD_value Example.env;
     BTS_value := BTS_value Example.env;
     VIDEO_value := VIDEO_value Example.env;
     b64decode_utf8 := b64decode_utf8 Example.env;
     MPEGDASHParser_parse := λ _, Some mpd;
     json_loads := json_loads Example.env;
     media_stream := media_stream Example.env;
     media_get_url := media_get_url Example.env;
     m3u8_load := m3u8_load Example.env;
     requests_get := requests_get Example.env;
     track_lyrics := track_lyrics Example.env;
     name_builder_item := name_builder_item Example.env;
     format_path_media := format_path_media Example.env;
     os_path_resolve := os_path_resolve Example.env;
     path_file_sanitize := path_file_sanitize Example.env;
     splitext := splitext Example.env;
     mkdtemp := mkdtemp Example.env;
     uuid4 := uuid4 Example.env;
     decrypt_security_token := decrypt_security_token Example.env;
     cipher := cipher Example.env;
     metadata_save := metadata_save Example.env;
     ffmpeg_copy := ffmpeg_copy Example.env |}.

End Live.

(** The manifest of the 480 rendition, as the playlist path builds it. *)
Definition example_manifest_480 : StreamManifest :=
  {| urls := Hls.files (Example.media_playlist "480");
     codecs := "avc1.480";
     file_extension := ".ts";
     encryption_type := "NONE";
     encryption_key := None;
     mime_type := Example.VIDEO_mime |}.

(** The answers of [Example.answer_get] for the URLs it serves. *)
Definition example_response (url : string) : Response :=
  if PyStr.contains "seg0" url
  then Example.ok_response [Example.AB]
  else Example.ok_response [Example.CD].

(** *** Files and the temporary directory *)

(** [k] lies in the directory [dir]. *)
Definition under (dir k : string) : Prop := String.prefix (dir +:+ "/") k = true.

(** Every file whose path is not [inside] is as before. *)
Definition outside_kept (inside : string → Prop) (w w' : World) : Prop :=
  ∀ k, ¬ inside k → fs w' !! k = fs w !! k.

Definition no_exception (e : Exn) : Prop := False.

(** The temporary file of [item] for a manifest. *)
Definition tmp_file (env : Env) (stream_manifest : StreamManifest) : string :=
  os_path_join (mkdtemp env) (uuid4 env +:+ file_extension stream_manifest).

(** *** A server that answers *)

(** Every request for one of [urls] is answered with [response url],
    whatever happened before, with a status that [raise_for_status] lets
    pass and a body that arrives whole. *)
Definition serves (env : Env) (response : string → Response) (urls : list string) : Prop :=
  ∀ url, In url urls →
    (∀ history, requests_get env history url = inr (response url))
    ∧ (400 <=? status_code (response url)) && (status_code (response url) <? 600) = false
    ∧ body_error (response url) = None.

(** The chunks of one pass over [urls], in the order they arrive. *)
Definition chunks_of (response : string → Response) (block_size : option Z)
    (urls : list string) : list Bytes :=
  flat_map (λ url, iter_content (response url) block_size) urls.

(** A task after [n] calls of [progress.advance]. *)
Definition advanced (n : nat) (t : Task) : Task := Nat.iter n advance_task t.

(** The file at [path_file] holds [content], the task [p_task] is [t]. *)
Definition writing_to (path_file : string) (p_task : nat) (content : Bytes) (t : Task)
    (w : World) : Prop :=
  fs w !! path_file = Some content ∧ tasks w !! p_task = Some t.

(** Files other than [path_file] are as in [w], the only new content
    requests are those for [urls], and no task was added. *)
Definition fetched_into (path_file : string) (urls : list string) (w w' : World) : Prop :=
  (∀ k, k ≠ path_file → fs w' !! k = fs w !! k)
  ∧ content_fetches w' = content_fetches w ++ map EvGet urls
  ∧ length (tasks w') = length (tasks w).

(** * Properties *)

(** ** Strings *)

Lemma prefix_spec (p s : string) :
  String.prefix p s = true ↔ ∃ t, s = p +:+ t.
Proof.
  revert s. induction p as [|c p IH]; intros s; simpl.
  - split; [intros _; exists s; reflexivity | destruct s; reflexivity].
  - destruct s as [|d s]; simpl.
    + split; [discriminate | intros [t Ht]; discriminate Ht].
    + destruct (Ascii.ascii_dec c d) as [->|Hne].
      * rewrite IH. split; intros [t Ht]; exists t.
        -- rewrite Ht. reflexivity.
        -- change (String d s = String d (p +:+ t)) in Ht. congruence.
      * split; [discriminate |].
        intros [t Ht]. change (String d s = String c (p +:+ t)) in Ht. congruence.
Qed.

Lemma contains_nil (needle : string) :
  PyStr.contains needle EmptyString = String.prefix needle EmptyString.
Proof. unfold PyStr.contains. apply orb_false_r. Qed.

Lemma contains_cons (needle : string) (c : ascii) (hay : string) :
  PyStr.contains needle (String c hay)
  = String.prefix needle (String c hay) || PyStr.contains needle hay.
Proof. reflexivity. Qed.

Lemma contains_spec (needle hay : string) :
  PyStr.contains needle hay = true ↔ PyStr.Substring needle hay.
Proof.
  split.
  - induction hay as [|c hay IH]; intros H.
    + rewrite contains_nil in H. apply prefix_spec in H as [t Ht].
      exists EmptyString, t. exact Ht.
    + rewrite contains_cons in H. apply orb_true_iff in H as [H|H].
      * apply prefix_spec in H as [t Ht]. exists EmptyString, t. exact Ht.
      * destruct (IH H) as (pre & post & ->). exists (String c pre), post. reflexivity.
  - intros (pre & post & ->). induction pre as [|c pre IH].
    + change (EmptyString +:+ needle +:+ post) with (needle +:+ post).
      assert (String.prefix needle (needle +:+ post) = true) as Hp
        by (apply prefix_spec; eexists; reflexivity).
      destruct (needle +:+ post).
      * rewrite contains_nil. exact Hp.
      * rewrite contains_cons, Hp. reflexivity.
    + change (String c pre +:+ needle +:+ post)
        with (String c (pre +:+ needle +:+ post)).
      rewrite contains_cons, IH. apply orb_true_r.
Qed.

Lemma contains_false_spec (needle hay : string) :
  PyStr.contains needle hay = false → ¬ PyStr.Substring needle hay.
Proof.
  intros Hf Hs. apply contains_spec in Hs. congruence.
Qed.

(** ** File-extension inference *)

(** C7. The extension is decided by the URL alone, by substring tests in the
    order [.flac], [.mp4], [.ts], with [.m4a] when none occurs; the codec
    argument has no influence on the result. *)
Theorem get_file_extension_by_url (stream_url stream_codec : string) :
  (PyStr.Substring ".flac" stream_url →
     get_file_extension stream_url stream_codec = ".flac")
  ∧ (¬ PyStr.Substring ".flac" stream_url → PyStr.Substring ".mp4" stream_url →
     get_file_extension stream_url stream_codec = ".mp4")
  ∧ (¬ PyStr.Substring ".flac" stream_url → ¬ PyStr.Substring ".mp4" stream_url →
     PyStr.Substring ".ts" stream_url →
     get_file_extension stream_url stream_codec = ".ts")
  ∧ (¬ PyStr.Substring ".flac" stream_url → ¬ PyStr.Substring ".mp4" stream_url →
     ¬ PyStr.Substring ".ts" stream_url →
     get_file_extension stream_url stream_codec = ".m4a")
  ∧ (∀ other_codec,
       get_file_extension stream_url other_codec
       = get_file_extension stream_url stream_codec).
Proof.
  unfold get_file_extension.
  destruct (PyStr.contains ".flac" stream_url) eqn:Hflac;
    [apply contains_spec in Hflac | apply contains_false_spec in Hflac];
  (destruct (PyStr.contains ".mp4" stream_url) eqn:Hmp4;
    [apply contains_spec in Hmp4 | apply contains_false_spec in Hmp4]);
  (destruct (PyStr.contains ".ts" stream_url) eqn:Hts;
    [apply contains_spec in Hts | apply contains_false_spec in Hts]);
  repeat split; intros; try reflexivity; tauto.
Qed.

Lemma get_file_extension_by_url_witness :
  get_file_extension "https://cdn.example/v/720/seg0.ts" "avc1" = ".ts".
Proof.
  destruct (get_file_extension_by_url "https://cdn.example/v/720/seg0.ts" "avc1")
    as (_ & _ & Hts & _).
  apply Hts.
  - apply contains_false_spec. vm_compute. reflexivity.
  - apply contains_false_spec. vm_compute. reflexivity.
  - apply contains_spec. vm_compute. reflexivity.
Defined.

(** ** The monad *)

Lemma bind_run {A B} (m : M A) (k : A → M B) (w : World) :
  (m ≫= k) w
  = match m w with
    | (Return a, w') => k a w'
    | (Raise e, w') => (Raise e, w')
    | (OutOfFuel, w') => (OutOfFuel, w')
    end.
Proof. reflexivity. Qed.

Lemma bind_Return {A B} (m : M A) (k : A → M B) (w w' : World) (b : B) :
  (m ≫= k) w = (Return b, w')
  ↔ ∃ a w1, m w = (Return a, w1) ∧ k a w1 = (Return b, w').
Proof.
  rewrite bind_run. split.
  - destruct (m w) as [[a|e|] w1]; intros H; try discriminate.
    exists a, w1. split; [reflexivity | exact H].
  - intros (a & w1 & -> & H). exact H.
Qed.

Lemma bind_Raise {A B} (m : M A) (k : A → M B) (w w' : World) (e : Exn) :
  (m ≫= k) w = (Raise e, w')
  ↔ m w = (Raise e, w') ∨ ∃ a w1, m w = (Return a, w1) ∧ k a w1 = (Raise e, w').
Proof.
  rewrite bind_run. split.
  - destruct (m w) as [[a|e'|] w1]; intros H; try discriminate.
    + right. exists a, w1. split; [reflexivity | exact H].
    + left. inversion H; subst. reflexivity.
  - intros [-> | (a & w1 & -> & H)]; [reflexivity | exact H].
Qed.

Lemma subscript_Some {A} (l : list A) (i : nat) (x : A) :
  l !! i = Some x → subscript l i = ret x.
Proof. unfold subscript. intros ->. reflexivity. Qed.

Lemma subscript_Return {A} (l : list A) (i : nat) (x : A) (w w' : World) :
  subscript l i w = (Return x, w') → l !! i = Some x ∧ w' = w.
Proof.
  unfold subscript. destruct (l !! i); cbv [ret raise]; intros H; inversion H; auto.
Qed.

(** ** Segments of the adaptive-streaming form *)

Lemma count_segments_from (Ss : list Dash.S) (start : Z) :
  fold_left (λ segments_count s, segments_count + repeat_or_1 s) Ss start
  = start + Zsum (map repeat_or_1 Ss).
Proof.
  revert start. induction Ss as [|s Ss IH]; intros start; simpl.
  - lia.
  - rewrite IH. lia.
Qed.

Lemma count_segments_sum (Ss : list Dash.S) :
  count_segments Ss = 2 + Zsum (map repeat_or_1 Ss).
Proof. unfold count_segments. rewrite count_segments_from. lia. Qed.

Lemma segment_urls_length (media : string) (n : Z) :
  length (segment_urls media n) = Z.to_nat n.
Proof. unfold segment_urls, range. rewrite length_map, length_seq. reflexivity. Qed.

Lemma segment_urls_lookup (media : string) (n : Z) (index : nat) :
  (index < Z.to_nat n)%nat →
  segment_urls media n !! index
  = Some (PyStr.replace "$Number$" (PyStr.str_of_nat index) media).
Proof.
  intros Hlt. unfold segment_urls, range.
  rewrite list_lookup_fmap, lookup_seq_lt by exact Hlt. reflexivity.
Qed.

(** C6. For an adaptive-streaming manifest the segment count is 2 plus the
    sum of [S.r if S.r else 1] over the timeline entries, and the URLs are
    the media pattern with [$Number$] replaced by the index, for the indices
    0, 1, ..., count - 1 in this order; the parse returns them. *)
Theorem mpd_segment_count_and_urls (env : Env) (self : Download)
    (manifest xml : string) (mpd : Dash.MPD) (period : Dash.Period)
    (adaptation_set : Dash.AdaptationSet) (representation : Dash.Representation)
    (segment_template : Dash.SegmentTemplate) (timeline : Dash.SegmentTimeline)
    (entries : list Dash.S) (w : World) :
  b64decode_utf8 env manifest = Some xml →
  MPEGDASHParser_parse env xml = Some mpd →
  Dash.periods mpd !! 0%nat = Some period →
  Dash.adaptation_sets period !! 0%nat = Some adaptation_set →
  Dash.representations adaptation_set !! 0%nat = Some representation →
  Dash.segment_templates representation !! 0%nat = Some segment_template →
  Dash.segment_timelines segment_template !! 0%nat = Some timeline →
  Dash.Ss timeline = Some entries →
  let segments_count := 2 + Zsum (map (λ s, match Dash.r s with
                                            | Some 0 | None => 1
                                            | Some n => n
                                            end) entries) in
  count_segments entries = segments_count
  ∧ ∃ stream_urls,
      length stream_urls = Z.to_nat segments_count
      ∧ (∀ index, (index < Z.to_nat segments_count)%nat →
           stream_urls !! index
           = Some (PyStr.replace "$Number$" (PyStr.str_of_nat index)
                     (Dash.media segment_template)))
      ∧ (∃ locals, parse_mpd env manifest w = (Return locals, w)
                   ∧ l_stream_urls locals = stream_urls)
      ∧ (0 < segments_count →
         ∃ sm, stream_manifest_parse env self manifest (MPD_value env) w = (Return sm, w)
               ∧ urls sm = stream_urls).
Proof.
  intros Hb64 Hxml Hp Ha Hr Ht Hl Hs segments_count.
  assert (count_segments entries = segments_count) as Hcount
    by apply count_segments_sum.
  split; [exact Hcount|].
  exists (segment_urls (Dash.media segment_template) segments_count).
  assert (parse_mpd env manifest w
          = (Return {| l_stream_urls := segment_urls (Dash.media segment_template) segments_count;
                       l_codecs := Dash.codecs representation;
                       l_mime_type := Dash.mime_type adaptation_set;
                       l_encryption_type := "NONE";
                       l_encryption_key := None |}, w)) as Hparse.
  { unfold parse_mpd. rewrite Hb64. cbn [from_decoder]. rewrite bind_run. cbn [ret].
    rewrite Hxml. cbn [from_decoder]. rewrite bind_run. cbn [ret].
    rewrite (subscript_Some _ _ _ Hp), bind_run. cbn [ret].
    rewrite (subscript_Some _ _ _ Ha), bind_run. cbn [ret].
    rewrite (subscript_Some _ _ _ Hr), bind_run. cbn [ret].
    rewrite (subscript_Some _ _ _ Ht), bind_run. cbn [ret].
    rewrite (subscript_Some _ _ _ Hl), bind_run. cbn [ret].
    rewrite Hs. cbn [iter]. rewrite bind_run. cbn [ret].
    rewrite Hcount. reflexivity. }
  split; [apply segment_urls_length|].
  split; [intros index Hlt; apply segment_urls_lookup; exact Hlt|].
  split; [eexists; split; [exact Hparse | reflexivity]|].
  intros Hpos.
  destruct (segment_urls (Dash.media segment_template) segments_count) as [|url0 rest] eqn:Hurls.
  { pose proof (segment_urls_length (Dash.media segment_template) segments_count) as Hlen.
    rewrite Hurls in Hlen. simpl in Hlen. lia. }
  eexists. split.
  - unfold stream_manifest_parse. rewrite String.eqb_refl, bind_run, Hparse.
    cbn [l_stream_urls]. reflexivity.
  - reflexivity.
Qed.

Lemma mpd_segment_count_and_urls_witness :
  count_segments Example.timeline = 6
  ∧ ∃ sm,
      stream_manifest_parse Example.env (Example.downloader 480 Disabled)
        "dash" Example.MPD_mime Example.empty_world
      = (Return sm, Example.empty_world)
      ∧ urls sm = [ "https://cdn.example/a/0.mp4"; "https://cdn.example/a/1.mp4";
                    "https://cdn.example/a/2.mp4"; "https://cdn.example/a/3.mp4";
                    "https://cdn.example/a/4.mp4"; "https://cdn.example/a/5.mp4" ].
Proof.
  destruct (mpd_segment_count_and_urls
              Example.env (Example.downloader 480 Disabled) "dash" "dash" Example.mpd
              _ _ _ Example.segment_template {| Dash.Ss := Some Example.timeline |}
              Example.timeline Example.empty_world
              eq_refl eq_refl eq_refl eq_refl eq_refl eq_refl eq_refl eq_refl)
    as (Hcount & stream_urls & _ & _ & _ & Hparse).
  split; [exact Hcount|].
  destruct Hparse as (sm & Hrun & _); [reflexivity|].
  exists sm. split; [exact Hrun|].
  vm_compute in Hrun. injection Hrun as <-. reflexivity.
Defined.

(** ** Reasoning about whole runs *)

Ltac respects_shape :=
  lazymatch goal with
  | |- respects _ _ (_ ≫= _) => fail
  | |- respects _ _ (if ?b then _ else _) => destruct b
  | |- respects _ _ (match ?x with _ => _ end) => destruct x
  end.

Section Respects.

Variable R : World → World → Prop.
Variable bad : Exn → Prop.
Hypothesis R_refl : ∀ w, R w w.
Hypothesis R_trans : ∀ w1 w2 w3, R w1 w2 → R w2 w3 → R w1 w3.

Lemma respects_ret {A} (a : A) : respects R bad (ret a).
Proof. intros w o w' H. inversion H; subst. split; [apply R_refl | discriminate]. Qed.

Lemma respects_raise {A} (e : Exn) : ¬ bad e → respects R bad (@raise A e).
Proof.
  intros He w o w' H. inversion H; subst. split; [apply R_refl|].
  intros e' [= <-]. exact He.
Qed.

Lemma respects_out_of_fuel {A} : respects R bad (@out_of_fuel A).
Proof. intros w o w' H. inversion H; subst. split; [apply R_refl | discriminate]. Qed.

Lemma respects_get_world : respects R bad get_world.
Proof. intros w o w' H. inversion H; subst. split; [apply R_refl | discriminate]. Qed.

Lemma respects_bind {A B} (m : M A) (k : A → M B) :
  respects R bad m → (∀ a, respects R bad (k a)) → respects R bad (m ≫= k).
Proof.
  intros Hm Hk w o w' H. rewrite bind_run in H.
  destruct (m w) as [[a|e|] w1] eqn:Hmw; destruct (Hm _ _ _ Hmw) as [HR Hbad].
  - destruct (Hk a _ _ _ H) as [HR' Hbad']. split; [eapply R_trans; eassumption | exact Hbad'].
  - inversion H; subst. split; [exact HR|]. intros e' [= <-]. apply Hbad. reflexivity.
  - inversion H; subst. split; [exact HR | discriminate].
Qed.

Lemma respects_for_each {A} (l : list A) (body : A → M unit) :
  (∀ x, respects R bad (body x)) → respects R bad (for_each l body).
Proof.
  intros Hbody. induction l as [|x l IH]; simpl.
  - apply respects_ret.
  - apply respects_bind; [apply Hbody | intros _; exact IH].
Qed.

Lemma respects_try (body : M unit) (handler : Exn → M unit) :
  respects R bad body → (∀ e, respects R bad (handler e)) →
  respects R bad (try_except_HTTPError body handler).
Proof.
  intros Hb Hh w o w' H. unfold try_except_HTTPError in H.
  destruct (body w) as [[a|e|] w1] eqn:Hbw; destruct (Hb _ _ _ Hbw) as [HR Hbad].
  - inversion H; subst. split; [exact HR | discriminate].
  - destruct e; try (inversion H; subst; split; [exact HR | exact Hbad]).
    destruct (Hh _ _ _ _ H) as [HR' Hbad'].
    split; [eapply R_trans; eassumption | exact Hbad'].
  - inversion H; subst. split; [exact HR | discriminate].
Qed.

Lemma respects_finally {A} (body : M A) (cleanup : World → World) :
  respects R bad body → (∀ w, R w (cleanup w)) →
  respects R bad (finally body cleanup).
Proof.
  intros Hb Hc w o w' H. unfold finally in H.
  destruct (body w) as [o1 w1] eqn:Hbw.
  destruct (Hb _ _ _ Hbw) as [HR Hbad].
  destruct o1; inversion H; subst;
    (split; [first [exact HR | eapply R_trans; [exact HR | apply Hc]] | exact Hbad]).
Qed.

Lemma respects_emit (ev : Event) :
  (∀ w, R w (add_event ev w)) → respects R bad (emit ev).
Proof. intros He w o w' H. inversion H; subst. split; [apply He | discriminate]. Qed.

Lemma respects_put_fs (f : gmap string Bytes) :
  (∀ w, R w {| fs := f; trace := trace w; tasks := tasks w |}) →
  respects R bad (put_fs f).
Proof. intros He w o w' H. inversion H; subst. split; [apply He | discriminate]. Qed.

Lemma respects_put_tasks (t : list Task) :
  (∀ w, R w {| fs := fs w; trace := trace w; tasks := t |}) →
  respects R bad (put_tasks t).
Proof. intros He w o w' H. inversion H; subst. split; [apply He | discriminate]. Qed.

(** *** Steps that neither touch files or tasks nor request content *)

Variable env : Env.
Variable self : Download.
Hypothesis bad_classification : ∀ e, bad e → classification e.
Hypothesis R_emit :
  ∀ ev w, not_content_fetch ev = true → R w (add_event ev w).

Ltac not_bad :=
  let Hb := fresh in
  intros Hb; apply bad_classification in Hb;
  destruct Hb as [Hb|[Hb|Hb]]; discriminate Hb.

Ltac respects_go :=
  repeat first
    [ apply respects_ret
    | apply respects_get_world
    | apply respects_out_of_fuel
    | apply respects_raise; not_bad
    | apply respects_emit; intros ?; apply R_emit; reflexivity
    | apply respects_bind; [|intros ?]
    | respects_shape
    | assumption ].

Lemma respects_subscript {A} (l : list A) (i : nat) : respects R bad (subscript l i).
Proof. unfold subscript. respects_go. Qed.

Lemma respects_iter {A} (l : option (list A)) : respects R bad (iter l).
Proof. unfold iter. respects_go. Qed.

Lemma respects_getitem {A} (field : option A) (key : string) :
  respects R bad (getitem field key).
Proof. unfold getitem. respects_go. Qed.

Lemma respects_from_decoder {A} (what : string) (o : option A) :
  respects R bad (from_decoder what o).
Proof. unfold from_decoder. respects_go. Qed.

Lemma respects_call {A} (ev : Event) (oracle : list Event → string + A)
    (exn : string → Exn) :
  not_content_fetch ev = true → (∀ msg, ¬ bad (exn msg)) →
  respects R bad (call ev oracle exn).
Proof.
  intros Hev Hexn. unfold call.
  apply respects_bind; [apply respects_get_world | intros w0].
  apply respects_bind;
    [apply respects_emit; intros ?; apply R_emit; exact Hev | intros _].
  destruct (oracle (trace w0)); [apply respects_raise, Hexn | apply respects_ret].
Qed.

Lemma respects_m3u8_load_ (uri : string) : respects R bad (m3u8_load_ env uri).
Proof. apply respects_call; [reflexivity | intros msg; not_bad]. Qed.

Lemma respects_media_stream_ (media : Media) : respects R bad (media_stream_ env media).
Proof. apply respects_call; [reflexivity | intros msg; not_bad]. Qed.

Lemma respects_media_get_url_ (media : Media) : respects R bad (media_get_url_ env media).
Proof.
  unfold media_get_url_.
  destruct (media_class media);
    first [apply respects_call; [reflexivity | intros msg; not_bad]
          | apply respects_raise; not_bad].
Qed.

Lemma respects_resolution_height (playlist : Hls.Playlist) :
  respects R bad (resolution_height playlist).
Proof. unfold resolution_height. respects_go. Qed.

Lemma respects_extract_loop (quality : Z) (playlists : list Hls.Playlist)
    (m3u8_playlist : option Hls.M3U8) (resolution_best : Z) (mime : string) :
  respects R bad (extract_loop env quality playlists m3u8_playlist resolution_best mime).
Proof.
  revert m3u8_playlist resolution_best mime.
  induction playlists as [|playlist rest IH]; intros sel best mime; simpl.
  - apply respects_ret.
  - apply respects_bind; [apply respects_resolution_height | intros h].
    destruct (best <? h); [|apply IH].
    apply respects_bind; [apply respects_m3u8_load_ | intros loaded].
    destruct (quality =? h); [apply respects_ret | apply IH].
Qed.

Lemma respects__extract_video_stream (m3u8_variant : Hls.M3U8) (quality : Z) :
  respects R bad (_extract_video_stream env m3u8_variant quality).
Proof.
  unfold _extract_video_stream.
  destruct (Hls.is_variant m3u8_variant);
    [apply respects_extract_loop | apply respects_ret].
Qed.

Lemma respects_parse_mpd (manifest : string) : respects R bad (parse_mpd env manifest).
Proof.
  unfold parse_mpd.
  repeat (apply respects_bind;
          [first [apply respects_from_decoder | apply respects_subscript
                 | apply respects_iter] | intros ?]).
  apply respects_ret.
Qed.

Lemma respects_parse_bts (manifest : string) : respects R bad (parse_bts env manifest).
Proof.
  unfold parse_bts.
  repeat (apply respects_bind;
          [first [apply respects_from_decoder | apply respects_getitem] | intros ?]).
  apply respects_bind; [|intros ?; apply respects_ret].
  destruct (is_encrypted _); [apply respects_getitem | apply respects_ret].
Qed.

Lemma respects_parse_video (manifest mime : string) :
  respects R bad (parse_video env self manifest mime).
Proof.
  unfold parse_video.
  apply respects_bind; [apply respects_m3u8_load_ | intros m3u8_variant].
  apply respects_bind; [apply respects__extract_video_stream | intros [sel codecs]].
  respects_go.
Qed.

Lemma respects_stream_manifest_parse (manifest mime : string) :
  ¬ bad UnknownManifestFormat →
  respects R bad (stream_manifest_parse env self manifest mime).
Proof.
  intros Hformat. unfold stream_manifest_parse.
  apply respects_bind.
  - destruct (String.eqb mime (MPD_value env)); [apply respects_parse_mpd|].
    destruct (String.eqb mime (BTS_value env)); [apply respects_parse_bts|].
    destruct (String.eqb mime (VIDEO_value env)); [apply respects_parse_video|].
    apply respects_raise, Hformat.
  - intros locals.
    apply respects_bind; [apply respects_subscript | intros url0; apply respects_ret].
Qed.

Lemma respects_fetch_manifest (media : Media) :
  respects R bad (fetch_manifest env media).
Proof.
  unfold fetch_manifest. destruct (is_Track media).
  - apply respects_media_stream_.
  - apply respects_bind; [apply respects_media_get_url_ | intros url; apply respects_ret].
Qed.

(** *** Steps that write files, advance tasks and request content *)

Hypothesis R_fs :
  ∀ f w, R w {| fs := f; trace := trace w; tasks := tasks w |}.
Hypothesis R_tasks :
  ∀ t w, R w {| fs := fs w; trace := trace w; tasks := t |}.
Hypothesis R_emit_any : ∀ ev w, R w (add_event ev w).

Ltac respects_all :=
  repeat first
    [ apply respects_ret
    | apply respects_get_world
    | apply respects_out_of_fuel
    | apply respects_subscript
    | apply respects_from_decoder
    | apply respects_raise; not_bad
    | apply respects_emit; intros ?; apply R_emit; reflexivity
    | apply respects_emit; intros ?; apply R_emit_any
    | apply respects_put_fs; intros ?; apply R_fs
    | apply respects_put_tasks; intros ?; apply R_tasks
    | apply respects_bind; [|intros ?]
    | respects_shape
    | assumption ].

Lemma respects_requests_get_ (url : string) : respects R bad (requests_get_ env url).
Proof. unfold requests_get_, call. respects_all. Qed.

Lemma respects_raise_for_status (r : Response) : respects R bad (raise_for_status r).
Proof. unfold raise_for_status. respects_all. Qed.

Lemma respects_add_task (num den : Z) : respects R bad (add_task num den).
Proof. unfold add_task. respects_all. Qed.

Lemma respects_advance (p_task : nat) : respects R bad (advance p_task).
Proof. unfold advance. respects_all. Qed.

Lemma respects_task_finished (p_task : nat) : respects R bad (task_finished p_task).
Proof. unfold task_finished. respects_all. Qed.

Lemma respects_task_percentage (p_task : nat) : respects R bad (task_percentage p_task).
Proof. unfold task_percentage. respects_all. Qed.

Lemma respects_open_wb (path_file : string) : respects R bad (open_wb path_file).
Proof. unfold open_wb. respects_all. Qed.

Lemma respects_f_write (path_file : string) (data : Bytes) :
  respects R bad (f_write path_file data).
Proof. unfold f_write. respects_all. Qed.

Lemma respects_read_file (path_file : string) : respects R bad (read_file path_file).
Proof. unfold read_file. respects_all. Qed.

Lemma respects_write_file (path_file : string) (content : Bytes) :
  respects R bad (write_file path_file content).
Proof. unfold write_file. respects_all. Qed.

Lemma respects_shutil_move (src dst : string) : respects R bad (shutil_move src dst).
Proof.
  unfold shutil_move.
  apply respects_bind; [apply respects_read_file | intros content]. respects_all.
Qed.

Lemma respects_decrypt_file (path_in path_out : string) (key nonce : Bytes) :
  respects R bad (decrypt_file env path_in path_out key nonce).
Proof.
  unfold decrypt_file.
  apply respects_bind; [apply respects_read_file | intros content].
  apply respects_write_file.
Qed.

Lemma respects_metadata_write (track : Media) (path_file : string) :
  respects R bad (metadata_write env self track path_file).
Proof.
  unfold metadata_write.
  apply respects_bind; [respects_all | intros lyrics].
  apply respects_bind; [apply respects_read_file | intros content].
  apply respects_bind; [apply respects_from_decoder | intros tagged].
  apply respects_bind; [apply respects_write_file | intros _; apply respects_ret].
Qed.

Lemma respects__video_convert (path_file : string) :
  respects R bad (_video_convert env path_file).
Proof.
  unfold _video_convert.
  apply respects_bind; [apply respects_read_file | intros content].
  apply respects_bind; [apply respects_from_decoder | intros converted].
  apply respects_bind; [apply respects_write_file | intros _; apply respects_ret].
Qed.

Lemma respects_write_chunk (path_file : string) (p_task : nat) (progress_stdout : bool)
    (data : Bytes) :
  respects R bad (write_chunk path_file p_task progress_stdout data).
Proof.
  unfold write_chunk.
  apply respects_bind; [apply respects_f_write | intros _].
  apply respects_bind; [apply respects_advance | intros _].
  destruct progress_stdout; [apply respects_ret|].
  apply respects_bind; [apply respects_task_percentage | intros c]. respects_all.
Qed.

Lemma respects_fetch_url (block_size : option Z) (path_file : string) (p_task : nat)
    (progress_stdout : bool) (url : string) :
  respects R bad (fetch_url env block_size path_file p_task progress_stdout url).
Proof.
  unfold fetch_url.
  apply respects_bind; [apply respects_requests_get_ | intros r].
  apply respects_bind; [apply respects_raise_for_status | intros _].
  apply respects_bind;
    [apply respects_for_each; intros data; apply respects_write_chunk | intros _].
  respects_all.
Qed.

Lemma respects_write_pass (sm_urls : list string) (block_size : option Z)
    (path_file : string) (p_task : nat) (progress_stdout : bool) :
  respects R bad (write_pass env sm_urls block_size path_file p_task progress_stdout).
Proof.
  unfold write_pass.
  apply respects_bind; [apply respects_open_wb | intros _].
  apply respects_for_each. intros url. apply respects_fetch_url.
Qed.

Lemma respects_write_loop (fuel : nat) (sm_urls : list string) (block_size : option Z)
    (path_file : string) (p_task : nat) (progress_stdout : bool) :
  respects R bad (write_loop env fuel sm_urls block_size path_file p_task progress_stdout).
Proof.
  induction fuel as [|fuel IH]; simpl.
  - apply respects_bind; [apply respects_task_finished | intros b]. respects_all.
  - apply respects_bind; [apply respects_task_finished | intros b].
    destruct b; [apply respects_ret; assumption|].
    apply respects_bind; [apply respects_write_pass | intros _; exact IH].
Qed.

Lemma respects_fetch_all (fuel : nat) (stream_manifest : StreamManifest)
    (media_name path_file : string) (progress_stdout : bool) :
  respects R bad (fetch_all env fuel stream_manifest media_name path_file progress_stdout).
Proof.
  unfold fetch_all.
  apply respects_bind.
  - destruct (1 <? length (urls stream_manifest))%nat; [apply respects_ret; assumption|].
    apply respects_bind; [apply respects_subscript; assumption | intros url0].
    apply respects_bind; [apply respects_requests_get_ | intros r].
    apply respects_bind; [apply respects_raise_for_status | intros _].
    apply respects_ret; assumption.
  - intros [progress_total block_size].
    apply respects_bind; [apply respects_add_task | intros p_task].
    apply respects_write_loop.
Qed.

Lemma respects_decrypt_if_needed (stream_manifest : StreamManifest) (path_file : string) :
  respects R bad (decrypt_if_needed env stream_manifest path_file).
Proof.
  unfold decrypt_if_needed.
  destruct (is_encrypted _); [|apply respects_ret; assumption].
  apply respects_bind; [respects_all | intros token].
  apply respects_bind; [apply respects_from_decoder; assumption | intros [key nonce]].
  apply respects_bind; [apply respects_decrypt_file | intros _; apply respects_ret; assumption].
Qed.

Lemma respects_write_metadata (media : Media) (path_file : string) :
  respects R bad (write_metadata env self media path_file).
Proof.
  unfold write_metadata.
  destruct (media_class media);
    first [ apply respects_ret; assumption
          | apply respects_bind;
            [apply respects_metadata_write | intros _; apply respects_ret; assumption] ].
Qed.

Lemma respects__download (fuel : nat) (media : Media) (progress_gui : bool)
    (stream_manifest : StreamManifest) (path_file : string) :
  respects R bad (_download env self fuel media progress_gui stream_manifest path_file).
Proof.
  unfold _download.
  apply respects_bind; [respects_all | intros _].
  apply respects_bind.
  - apply respects_try; [apply respects_fetch_all | intros e; respects_all].
  - intros _.
    apply respects_bind; [apply respects_decrypt_if_needed | intros p].
    apply respects_bind; [apply respects_write_metadata | intros _; apply respects_ret].
Qed.

Lemma respects_download_and_place (fuel : nat) (media : Media) (progress_gui : bool)
    (stream_manifest : StreamManifest) (path_file : string) :
  respects R bad
    (download_and_place env self fuel media progress_gui stream_manifest path_file).
Proof.
  unfold download_and_place.
  apply respects_finally; try assumption; [|intros w; apply R_fs].
  apply respects_bind; [apply respects__download | intros tmp].
  apply respects_bind.
  - destruct (is_Video media && video_convert_mp4 (settings self));
      [|apply respects_ret; assumption].
    apply respects_bind; [apply respects__video_convert | intros c; apply respects_ret; assumption].
  - intros [tmp' path'].
    apply respects_bind; [apply respects_shutil_move | intros _; apply respects_ret; assumption].
Qed.

Lemma respects_item_resolved (fuel : nat) (path_base file_template : string)
    (media : Media) (video_download progress_gui : bool) :
  ¬ bad UnknownManifestFormat →
  respects R bad
    (item_resolved env self fuel path_base file_template media video_download progress_gui).
Proof.
  intros Hformat. unfold item_resolved.
  destruct (negb video_download); [respects_all|].
  apply respects_bind; [apply respects_fetch_manifest; assumption | intros [manifest mime]].
  apply respects_bind;
    [apply respects_stream_manifest_parse; assumption | intros stream_manifest].
  apply respects_bind; [apply respects_get_world | intros w0].
  destruct (negb _); [apply respects_download_and_place | respects_all].
Qed.

End Respects.

(** *** The relations used below *)

Lemma trace_extends_refl (allowed : Event → bool) (w : World) :
  trace_extends allowed w w.
Proof. exists []. split; [symmetry; apply app_nil_r | reflexivity]. Qed.

Lemma trace_extends_trans (allowed : Event → bool) (w1 w2 w3 : World) :
  trace_extends allowed w1 w2 → trace_extends allowed w2 w3 →
  trace_extends allowed w1 w3.
Proof.
  intros (evs1 & H1 & Ha1) (evs2 & H2 & Ha2). exists (evs1 ++ evs2). split.
  - rewrite H2, H1. symmetry. apply app_assoc.
  - rewrite forallb_app, Ha1, Ha2. reflexivity.
Qed.

Lemma trace_extends_emit (allowed : Event → bool) (ev : Event) (w : World) :
  allowed ev = true → trace_extends allowed w (add_event ev w).
Proof. intros Ha. exists [ev]. split; [reflexivity | simpl; rewrite Ha; reflexivity]. Qed.

Lemma quiet_refl (w : World) : quiet w w.
Proof. repeat split. apply trace_extends_refl. Qed.

Lemma quiet_trans (w1 w2 w3 : World) : quiet w1 w2 → quiet w2 w3 → quiet w1 w3.
Proof.
  intros (Hf1 & Ht1 & He1) (Hf2 & Ht2 & He2). repeat split; try congruence.
  eapply trace_extends_trans; eassumption.
Qed.

Lemma quiet_emit (ev : Event) (w : World) :
  not_content_fetch ev = true → quiet w (add_event ev w).
Proof. intros Ha. repeat split. apply trace_extends_emit, Ha. Qed.

(** The manifest stage leaves files and tasks alone and requests no content. *)
Lemma fetch_manifest_quiet (env : Env) (media : Media) (w w' : World)
    (o : Outcome (string * string)) :
  fetch_manifest env media w = (o, w') → quiet w w'.
Proof.
  intros H.
  apply (respects_fetch_manifest quiet (λ _, False) quiet_refl quiet_trans env
           ltac:(intros e []) quiet_emit media _ _ _ H).
Qed.

Lemma stream_manifest_parse_quiet (env : Env) (self : Download) (manifest mime : string)
    (w w' : World) (o : Outcome StreamManifest) :
  stream_manifest_parse env self manifest mime w = (o, w') → quiet w w'.
Proof.
  intros H.
  apply (respects_stream_manifest_parse quiet (λ _, False) quiet_refl quiet_trans env self
           ltac:(intros e []) quiet_emit manifest mime ltac:(intros []) _ _ _ H).
Qed.

Lemma quiet_content_fetches (w w' : World) :
  quiet w w' → content_fetches w' = content_fetches w.
Proof.
  intros (_ & _ & evs & Ht & Hall). unfold content_fetches. rewrite Ht, List.filter_app.
  assert (List.filter is_content_fetch evs = []) as ->; [|apply app_nil_r].
  clear Ht. induction evs as [|ev evs IH]; [reflexivity|].
  simpl in Hall. apply andb_true_iff in Hall as [Hev Hall].
  unfold not_content_fetch in Hev. apply negb_true_iff in Hev.
  simpl. rewrite Hev. apply IH, Hall.
Qed.

Lemma resolve_media_quiet (media : option Media) (media_id : option string)
    (media_type : option MediaType) (w w' : World) (o : Outcome Media) :
  resolve_media media media_id media_type w = (o, w') → quiet w w'.
Proof.
  unfold resolve_media, instantiate_media, new_media.
  destruct (complete_pair media_id media_type) as [[id t]|].
  - destruct t; intros H; inversion H; subst;
      first [apply quiet_emit; reflexivity | apply quiet_refl].
  - destruct media; intros H; inversion H; subst; apply quiet_refl.
Qed.

(** ** The "video download" switch *)

(** C10. With [video_download] false, [item] returns [(False, "")] for
    whatever media handle the resolution step yields, a track as well as a
    video: after the resolution it only writes one line to the log, and
    files and tasks are as before the call. No manifest, playlist, content
    or lyrics is requested; when a media handle was passed no request is
    made at all, and when an id and a type were passed the one request is
    the instantiation of the media object, which precedes the test of the
    switch. *)
Theorem video_download_off_skips_every_item (env : Env) (self : Download) (fuel : nat)
    (path_base file_template : string) (media : option Media)
    (media_id : option string) (media_type : option MediaType) (progress_gui : bool)
    (w w1 : World) (m : Media) :
  resolve_media media media_id media_type w = (Return m, w1) →
  let line :=
    EvLog LInfo ("Video downloads are deactivated (see settings). Skipping video: "
                 +:+ name_builder_item env m) in
  item env self fuel path_base file_template media media_id media_type
       false progress_gui w
  = (Return (false, ""), add_event line w1)
  ∧ fs w1 = fs w
  ∧ tasks w1 = tasks w
  ∧ fetches (add_event line w1)
    = fetches w ++ match complete_pair media_id media_type with
                   | Some (id, _) => [EvResolve (media_class m) id]
                   | None => []
                   end.
Proof.
  intros Hres line. split; [|split; [|split]].
  - unfold item. rewrite bind_run, Hres. unfold item_resolved. reflexivity.
  - apply resolve_media_quiet in Hres as (Hfs & _ & _). exact Hfs.
  - apply resolve_media_quiet in Hres as (_ & Ht & _). exact Ht.
  - unfold fetches, add_event, line. cbn [trace]. rewrite List.filter_app. cbn.
    rewrite app_nil_r.
    revert Hres. unfold resolve_media, instantiate_media, new_media.
    destruct (complete_pair media_id media_type) as [[id t]|].
    + destruct t; intros H; inversion H; subst; cbn [trace media_class];
        rewrite List.filter_app; reflexivity.
    + destruct media; intros H; inversion H; subst. symmetry. apply app_nil_r.
Qed.

Lemma video_download_off_skips_every_item_witness :
  let line :=
    EvLog LInfo "Video downloads are deactivated (see settings). Skipping video: 5" in
  let w1 := add_event (EvResolve Video "5") Example.empty_world in
  item Example.env (Example.downloader 480 Disabled) 3 "/music" ""
       None (Some "5") (Some VIDEO) false false Example.empty_world
  = (Return (false, ""), add_event line w1)
  ∧ fs w1 = fs Example.empty_world
  ∧ tasks w1 = tasks Example.empty_world
  ∧ fetches (add_event line w1) = [EvResolve Video "5"].
Proof.
  exact (video_download_off_skips_every_item
           Example.env (Example.downloader 480 Disabled) 3 "/music" ""
           None (Some "5") (Some VIDEO) false
           Example.empty_world (add_event (EvResolve Video "5") Example.empty_world)
           (Example.video "5") eq_refl).
Defined.

(** C10, as stated, fails: with [video_download] false and an id and a
    type passed, [item] returns [(False, "")] and has instantiated the media
    object from the id, a request to the service. *)
Lemma video_download_off_has_instantiated_the_media :
  let w := Example.empty_world in
  let run := item Example.env (Example.downloader 480 Disabled) 3 "/music" ""
               None (Some "5") (Some VIDEO) false false w in
  run.1 = Return (false, "")
  ∧ fetches run.2 = [EvResolve Video "5"]
  ∧ fetches run.2 ≠ fetches w.
Proof.
  cbv zeta. split; [vm_compute; reflexivity|]. split; [vm_compute; reflexivity|].
  vm_compute. discriminate.
Qed.

(** ** The encryption descriptor of a manifest *)

Lemma from_decoder_Return {A} (what : string) (o : option A) (a : A) (w w' : World) :
  from_decoder what o w = (Return a, w') → o = Some a ∧ w' = w.
Proof. destruct o; cbv [from_decoder ret raise]; intros H; inversion H; auto. Qed.

Lemma getitem_Return {A} (field : option A) (key : string) (a : A) (w w' : World) :
  getitem field key w = (Return a, w') → field = Some a ∧ w' = w.
Proof. destruct field; cbv [getitem ret raise]; intros H; inversion H; auto. Qed.

Lemma ret_Return {A} (a b : A) (w w' : World) :
  ret a w = (Return b, w') → a = b ∧ w' = w.
Proof. cbv [ret]. intros H; inversion H; auto. Qed.

Lemma parse_mpd_unencrypted (env : Env) (manifest : string) (w w' : World)
    (locals : ManifestLocals) :
  parse_mpd env manifest w = (Return locals, w') →
  l_encryption_type locals = "NONE" ∧ l_encryption_key locals = None.
Proof.
  unfold parse_mpd. intros H.
  repeat (apply bind_Return in H as (? & ? & _ & H)).
  apply ret_Return in H as [<- _]. split; reflexivity.
Qed.

Lemma parse_video_unencrypted (env : Env) (self : Download) (manifest mime : string)
    (w w' : World) (locals : ManifestLocals) :
  parse_video env self manifest mime w = (Return locals, w') →
  l_encryption_type locals = "NONE" ∧ l_encryption_key locals = None.
Proof.
  unfold parse_video. intros H.
  apply bind_Return in H as (m3u8_variant & w1 & _ & H).
  apply bind_Return in H as ([sel codecs] & w2 & _ & H).
  apply bind_Return in H as (stream_urls & w3 & _ & H).
  apply ret_Return in H as [<- _]. split; reflexivity.
Qed.

Lemma is_encrypted_spec (encryption_type : string) :
  is_encrypted encryption_type = true ↔ encryption_type ≠ "NONE".
Proof.
  unfold is_encrypted. rewrite negb_true_iff. apply String.eqb_neq.
Qed.

Lemma parse_bts_key (env : Env) (manifest : string) (w w' : World)
    (locals : ManifestLocals) :
  parse_bts env manifest w = (Return locals, w') →
  ∃ json envelope,
    b64decode_utf8 env manifest = Some json
    ∧ json_loads env json = Some envelope
    ∧ Bts.encryptionType envelope = Some (l_encryption_type locals)
    ∧ (if is_encrypted (l_encryption_type locals)
       then Bts.encryptionKey envelope = Some (l_encryption_key locals)
       else l_encryption_key locals = None).
Proof.
  unfold parse_bts. intros H.
  apply bind_Return in H as (json & w1 & Hjson & H).
  apply from_decoder_Return in Hjson as [Hjson _].
  apply bind_Return in H as (envelope & w2 & Henv & H).
  apply from_decoder_Return in Henv as [Henv _].
  apply bind_Return in H as (stream_urls & w3 & _ & H).
  apply bind_Return in H as (codecs & w4 & _ & H).
  apply bind_Return in H as (mime & w5 & _ & H).
  apply bind_Return in H as (etype & w6 & Htype & H).
  apply getitem_Return in Htype as [Htype _].
  apply bind_Return in H as (key & w7 & Hkey & H).
  apply ret_Return in H as [<- _]. cbn [l_encryption_type l_encryption_key].
  exists json, envelope. repeat split; try assumption.
  destruct (is_encrypted etype).
  - apply getitem_Return in Hkey as [Hkey _]. exact Hkey.
  - apply ret_Return in Hkey as [<- _]. reflexivity.
Qed.

(** C5. Every manifest the normalizer accepts yields a [StreamManifest]
    whose [encryption_key] is [None] whenever its [encryption_type] is
    ["NONE"]; the key is [None] with another type only for a JSON envelope
    that holds [null] under [encryptionKey]. The adaptive-streaming and the
    playlist paths always give ["NONE"] and [None]; the JSON path copies the
    type and takes the value under [encryptionKey], which must be present,
    exactly when the type differs from ["NONE"]. *)
Theorem encryption_key_only_when_encrypted (env : Env) (self : Download) :
  (∀ manifest mime w sm w',
     stream_manifest_parse env self manifest mime w = (Return sm, w') →
     (encryption_type sm = "NONE" → encryption_key sm = None)
     ∧ (encryption_key sm = None → encryption_type sm ≠ "NONE" →
        mime = BTS_value env
        ∧ ∃ json envelope,
            b64decode_utf8 env manifest = Some json
            ∧ json_loads env json = Some envelope
            ∧ Bts.encryptionKey envelope = Some None))
  ∧ (∀ manifest w locals w',
       parse_mpd env manifest w = (Return locals, w') →
       l_encryption_type locals = "NONE" ∧ l_encryption_key locals = None)
  ∧ (∀ manifest mime w locals w',
       parse_video env self manifest mime w = (Return locals, w') →
       l_encryption_type locals = "NONE" ∧ l_encryption_key locals = None)
  ∧ (∀ manifest w locals w',
       parse_bts env manifest w = (Return locals, w') →
       ∃ json envelope,
         b64decode_utf8 env manifest = Some json
         ∧ json_loads env json = Some envelope
         ∧ Bts.encryptionType envelope = Some (l_encryption_type locals)
         ∧ (l_encryption_type locals ≠ "NONE" →
            Bts.encryptionKey envelope = Some (l_encryption_key locals))
         ∧ (l_encryption_type locals = "NONE" → l_encryption_key locals = None)).
Proof.
  split; [|split; [|split]].
  - intros manifest mime w sm w' H. unfold stream_manifest_parse in H.
    apply bind_Return in H as (locals & w1 & Hlocals & H).
    apply bind_Return in H as (url0 & w2 & _ & H).
    apply ret_Return in H as [<- _]. cbn [encryption_key encryption_type].
    destruct (String.eqb mime (MPD_value env)).
    { apply parse_mpd_unencrypted in Hlocals as [-> ->].
      split; [reflexivity | intros _ Hne; contradiction]. }
    destruct (String.eqb mime (BTS_value env)) eqn:Hmime.
    { apply String.eqb_eq in Hmime.
      apply parse_bts_key in Hlocals as (json & envelope & Hj & He & _ & Hkey).
      destruct (is_encrypted (l_encryption_type locals)) eqn:Henc.
      - apply is_encrypted_spec in Henc. split; [intros; contradiction|].
        intros Hnone _. split; [exact Hmime|].
        exists json, envelope. rewrite <- Hnone. auto.
      - unfold is_encrypted in Henc. apply negb_false_iff, String.eqb_eq in Henc.
        split; [intros _; exact Hkey | intros _ Hne; contradiction]. }
    destruct (String.eqb mime (VIDEO_value env)).
    { apply parse_video_unencrypted in Hlocals as [-> ->].
      split; [reflexivity | intros _ Hne; contradiction]. }
    cbv [raise] in Hlocals. discriminate.
  - intros manifest w locals w'. apply parse_mpd_unencrypted.
  - intros manifest mime w locals w'. apply parse_video_unencrypted.
  - intros manifest w locals w' H.
    apply parse_bts_key in H as (json & envelope & Hj & He & Ht & Hkey).
    exists json, envelope. repeat split; try assumption.
    + intros Hne. apply is_encrypted_spec in Hne. rewrite Hne in Hkey. exact Hkey.
    + intros Hnone. rewrite Hnone in Hkey. exact Hkey.
Qed.

Lemma encryption_key_only_when_encrypted_witness :
  Example.BTS_mime = BTS_value Example.env
  ∧ ∃ json envelope,
      b64decode_utf8 Example.env "null-key" = Some json
      ∧ json_loads Example.env json = Some envelope
      ∧ Bts.encryptionKey envelope = Some None.
Proof.
  refine (proj2 (proj1 (encryption_key_only_when_encrypted
                          Example.env (Example.downloader 480 Disabled))
                   "null-key" Example.BTS_mime Example.empty_world
                   {| urls := ["https://cdn.example/t/4.flac"];
                      codecs := "flac";
                      file_extension := ".flac";
                      encryption_type := "OLD_AES";
                      encryption_key := None;
                      mime_type := "audio/flac" |}
                   Example.empty_world _)
            eq_refl _).
  - vm_compute. reflexivity.
  - discriminate.
Defined.

(** C5, as stated, fails: the envelope
    [{..., encryptionType: "OLD_AES", encryptionKey: null}] is accepted, and
    the [StreamManifest] has the type ["OLD_AES"] with the key [None]. *)
Lemma null_key_is_accepted_with_an_encrypted_type :
  ∃ sm,
    stream_manifest_parse Example.env (Example.downloader 480 Disabled)
      "null-key" Example.BTS_mime Example.empty_world
    = (Return sm, Example.empty_world)
    ∧ encryption_type sm = "OLD_AES"
    ∧ encryption_key sm = None
    ∧ ¬ (encryption_key sm = None ↔ encryption_type sm = "NONE").
Proof.
  eexists. split; [vm_compute; reflexivity|].
  split; [reflexivity|]. split; [reflexivity|].
  cbn [encryption_key encryption_type]. intros [H _]. specialize (H eq_refl).
  discriminate H.
Qed.

(** ** Skipping an existing file *)

Lemma check_file_exists_at (env : Env) (files : gmap string Bytes) (path_file : string)
    (extension_ignore : bool) :
  is_Some (files !! path_file) →
  check_file_exists env files path_file extension_ignore = true.
Proof.
  intros [content Hc]. unfold check_file_exists. destruct extension_ignore.
  - apply existsb_exists. exists (path_file, content). split.
    + apply list_elem_of_In, elem_of_map_to_list, Hc.
    + apply String.eqb_refl.
  - apply bool_decide_eq_true. eexists; exact Hc.
Qed.

(** C3, as the code has it. With a skip policy enabled and a file at the
    computed destination path, [item] returns [(False, path)], writes one
    line to the log, requests no content and leaves files and tasks as they
    were. The manifest has been requested before, since its extension is
    part of the path. *)
Theorem skip_existing_requests_no_content (env : Env) (self : Download) (fuel : nat)
    (path_base file_template : string) (media : option Media)
    (media_id : option string) (media_type : option MediaType) (progress_gui : bool)
    (w w1 w2 w3 : World) (m : Media) (manifest mime : string) (sm : StreamManifest) :
  resolve_media media media_id media_type w = (Return m, w1) →
  fetch_manifest env m w1 = (Return (manifest, mime), w2) →
  stream_manifest_parse env self manifest mime w2 = (Return sm, w3) →
  skip_existing_value (skip_existing self) = true →
  let path_file := destination_path env path_base file_template m sm in
  is_Some (fs w !! path_file) →
  let line :=
    EvLog LDebug ("Download skipped, since file exists: '" +:+ path_file +:+ "'") in
  item env self fuel path_base file_template media media_id media_type
       true progress_gui w
  = (Return (false, path_file), add_event line w3)
  ∧ fs w3 = fs w
  ∧ tasks w3 = tasks w
  ∧ content_fetches (add_event line w3) = content_fetches w.
Proof.
  intros Hres Hfetch Hparse Hskip path_file Hexists line.
  pose proof (resolve_media_quiet _ _ _ _ _ _ Hres) as Hq1.
  pose proof (fetch_manifest_quiet _ _ _ _ _ Hfetch) as Hq2.
  pose proof (stream_manifest_parse_quiet _ _ _ _ _ _ _ Hparse) as Hq3.
  pose proof (quiet_trans _ _ _ (quiet_trans _ _ _ Hq1 Hq2) Hq3) as Hq.
  assert (quiet w (add_event line w3)) as Hq'.
  { eapply quiet_trans; [exact Hq | apply quiet_emit; reflexivity]. }
  destruct Hq as (Hfs & Htasks & _).
  split; [|split; [exact Hfs | split; [exact Htasks | apply quiet_content_fetches, Hq']]].
  unfold item. rewrite bind_run, Hres. unfold item_resolved. cbn [negb].
  rewrite bind_run, Hfetch, bind_run, Hparse, bind_run. cbn [get_world].
  fold path_file. unfold compute_download_skip. rewrite Hskip, Hfs.
  rewrite check_file_exists_at by exact Hexists. reflexivity.
Qed.

Lemma skip_existing_requests_no_content_witness :
  item Example.env (Example.downloader 480 ExtensionIgnore) 3 "/music" ""
       (Some (Example.track "t-plain")) None None true false
       (Example.world_with "/music/t-plain.flac" Example.AB)
  = (Return (false, "/music/t-plain.flac"),
     {| fs := {[ "/music/t-plain.flac" := Example.AB ]};
        trace := [ EvStream (Example.track "t-plain");
                   EvLog LDebug "Download skipped, since file exists: '/music/t-plain.flac'" ];
        tasks := [] |}).
Proof.
  refine (proj1 (skip_existing_requests_no_content
                   Example.env (Example.downloader 480 ExtensionIgnore) 3 "/music" ""
                   (Some (Example.track "t-plain")) None None false
                   (Example.world_with "/music/t-plain.flac" Example.AB)
                   _ _ _ (Example.track "t-plain") "plain" Example.BTS_mime _
                   eq_refl eq_refl eq_refl eq_refl _)).
  vm_compute. eexists. reflexivity.
Defined.

(** C3, as stated, fails: with the [Filename] policy and the destination
    file in place, [item] returns [(False, path)] and has requested the
    manifest of the track. *)
Lemma skip_existing_has_requested_the_manifest :
  let w := Example.world_with "/music/t-plain.flac" Example.AB in
  let run := item Example.env (Example.downloader 480 Filename) 3 "/music" ""
               (Some (Example.track "t-plain")) None None true false w in
  skip_existing_value Filename = true
  ∧ is_Some (fs w !! "/music/t-plain.flac")
  ∧ run.1 = Return (false, "/music/t-plain.flac")
  ∧ fetches run.2 = [EvStream (Example.track "t-plain")]
  ∧ fetches run.2 ≠ fetches w.
Proof.
  cbv zeta. split; [reflexivity|]. split; [vm_compute; eexists; reflexivity|].
  split; [vm_compute; reflexivity|]. split; [vm_compute; reflexivity|].
  vm_compute. discriminate.
Qed.

(** ** Classification errors *)

Lemma resolve_media_MediaMissing (media : option Media) (media_id : option string)
    (media_type : option MediaType) (w w' : World) :
  resolve_media media media_id media_type w = (Raise MediaMissing, w') →
  media = None ∧ complete_pair media_id media_type = None.
Proof.
  unfold resolve_media, instantiate_media, new_media.
  destruct (complete_pair media_id media_type) as [[id t]|].
  - destruct t; intros H; inversion H.
  - destruct media; intros H; inversion H. split; reflexivity.
Qed.

Lemma item_resolved_not_MediaMissing (env : Env) (self : Download) (fuel : nat)
    (path_base file_template : string) (media : Media)
    (video_download progress_gui : bool) (w w' : World) (e : Exn) :
  item_resolved env self fuel path_base file_template media video_download progress_gui w
  = (Raise e, w') →
  e ≠ MediaMissing ∧ e ≠ MediaUnknown.
Proof.
  intros H.
  pose proof (respects_item_resolved anything (λ e, e = MediaMissing ∨ e = MediaUnknown)
                ltac:(intros ?; exact I) ltac:(intros ? ? ? _ _; exact I) env self
                ltac:(intros e0 [->| ->]; unfold classification; tauto)
                ltac:(intros ? ? _; exact I) ltac:(intros ? ?; exact I)
                ltac:(intros ? ?; exact I) ltac:(intros ? ?; exact I)
                fuel path_base file_template media video_download progress_gui
                ltac:(intros [?|?]; discriminate) _ _ _ H) as [_ Hbad].
  specialize (Hbad e eq_refl). tauto.
Qed.

Lemma instantiate_media_MediaUnknown (media_type : MediaType) (id_media : string)
    (w : World) :
  ((instantiate_media media_type id_media w).1 = Raise MediaUnknown
   ↔ ¬ recognized_media_type media_type)
  ∧ (¬ recognized_media_type media_type →
     instantiate_media media_type id_media w = (Raise MediaUnknown, w)).
Proof.
  unfold recognized_media_type.
  destruct media_type; cbn; (split; [split|]); intros H;
    try discriminate H; try reflexivity; try (exfalso; tauto).
  intros [?|[?|[?|[?|?]]]]; discriminate.
Qed.

Lemma stream_manifest_parse_format (env : Env) (self : Download) (manifest mime : string)
    (w : World) :
  ((stream_manifest_parse env self manifest mime w).1 = Raise UnknownManifestFormat
   ↔ ¬ recognized_manifest_mime env mime)
  ∧ (¬ recognized_manifest_mime env mime →
     stream_manifest_parse env self manifest mime w = (Raise UnknownManifestFormat, w)).
Proof.
  assert (∀ (m : M ManifestLocals),
            respects anything classification m →
            ∀ k : ManifestLocals → M StreamManifest,
            (∀ a, respects anything classification (k a)) →
            ((m ≫= k) w).1 ≠ Raise UnknownManifestFormat) as Hbranch.
  { intros m Hm k Hk Hraise.
    destruct ((m ≫= k) w) as [o w'] eqn:Hrun. cbn in Hraise. subst o.
    pose proof (respects_bind anything classification
                  ltac:(intros ? ? ? _ _; exact I) m k Hm Hk _ _ _ Hrun) as [_ Hbad].
    apply (Hbad _ eq_refl). unfold classification. tauto. }
  assert (∀ a : ManifestLocals,
            respects anything classification
              (url0 ← subscript (l_stream_urls a) 0;
               ret {| urls := l_stream_urls a; codecs := l_codecs a;
                      file_extension := get_file_extension url0 (l_codecs a);
                      encryption_type := l_encryption_type a;
                      encryption_key := l_encryption_key a;
                      mime_type := l_mime_type a |})) as Hrest.
  { intros a. apply respects_bind; [intros ? ? ? _ _; exact I | |].
    - apply respects_subscript; [intros ?; exact I | auto].
    - intros url0. apply respects_ret. intros ?; exact I. }
  unfold recognized_manifest_mime, stream_manifest_parse.
  destruct (String.eqb mime (MPD_value env)) eqn:Hmpd.
  { apply String.eqb_eq in Hmpd. split; [split|]; intros H; try (exfalso; tauto).
    exfalso. revert H. apply Hbranch; [|exact Hrest].
    apply respects_parse_mpd; [intros ?; exact I | intros ? ? ? _ _; exact I | auto]. }
  destruct (String.eqb mime (BTS_value env)) eqn:Hbts.
  { apply String.eqb_eq in Hbts. split; [split|]; intros H; try (exfalso; tauto).
    exfalso. revert H. apply Hbranch; [|exact Hrest].
    apply respects_parse_bts; [intros ?; exact I | intros ? ? ? _ _; exact I | auto]. }
  destruct (String.eqb mime (VIDEO_value env)) eqn:Hvideo.
  { apply String.eqb_eq in Hvideo. split; [split|]; intros H; try (exfalso; tauto).
    exfalso. revert H. apply Hbranch; [|exact Hrest].
    apply respects_parse_video;
      [intros ?; exact I | intros ? ? ? _ _; exact I | auto | intros ? ? _; exact I]. }
  apply String.eqb_neq in Hmpd, Hbts, Hvideo.
  split; [split|]; intros H; try reflexivity. tauto.
Qed.

(** C8. [item] raises [MediaMissing] exactly when neither a media handle
    nor a complete (type, id) pair is given; [instantiate_media] raises
    [MediaUnknown] exactly when the type is none of the five it knows;
    [stream_manifest_parse] raises [UnknownManifestFormat] exactly when the
    MIME type is none of the three it knows. Each of them leaves [item] at
    once: the world is as it was when the error arose and the caller gets
    the exception. *)
Theorem classification_errors (env : Env) (self : Download) :
  (∀ fuel path_base file_template media media_id media_type video_download
     progress_gui w,
     let run := item env self fuel path_base file_template media media_id media_type
                  video_download progress_gui w in
     (run.1 = Raise MediaMissing
      ↔ media = None ∧ complete_pair media_id media_type = None)
     ∧ (run.1 = Raise MediaMissing → run.2 = w))
  ∧ (∀ media_type id_media w,
       (instantiate_media media_type id_media w).1 = Raise MediaUnknown
       ↔ ¬ recognized_media_type media_type)
  ∧ (∀ fuel path_base file_template media media_id media_type video_download
       progress_gui w id t,
       complete_pair media_id media_type = Some (id, t) →
       ¬ recognized_media_type t →
       item env self fuel path_base file_template media media_id media_type
            video_download progress_gui w
       = (Raise MediaUnknown, w))
  ∧ (∀ manifest mime w,
       (stream_manifest_parse env self manifest mime w).1 = Raise UnknownManifestFormat
       ↔ ¬ recognized_manifest_mime env mime)
  ∧ (∀ fuel path_base file_template media media_id media_type progress_gui
       w w1 w2 m manifest mime,
       resolve_media media media_id media_type w = (Return m, w1) →
       fetch_manifest env m w1 = (Return (manifest, mime), w2) →
       ¬ recognized_manifest_mime env mime →
       item env self fuel path_base file_template media media_id media_type
            true progress_gui w
       = (Raise UnknownManifestFormat, w2)).
Proof.
  split; [|split; [|split; [|split]]].
  - intros fuel path_base file_template media media_id media_type video_download
      progress_gui w run.
    assert (media = None ∧ complete_pair media_id media_type = None →
            run = (Raise MediaMissing, w)) as Hback.
    { intros [-> Hpair]. unfold run, item, resolve_media. rewrite bind_run, Hpair.
      reflexivity. }
    assert (run.1 = Raise MediaMissing →
            media = None ∧ complete_pair media_id media_type = None) as Hforth.
    { destruct run as [o w'] eqn:Hrun. cbn. intros ->.
      unfold run, item in Hrun. apply bind_Raise in Hrun as [Hrun | (m & w1 & _ & Hrun)].
      - eapply resolve_media_MediaMissing, Hrun.
      - apply item_resolved_not_MediaMissing in Hrun as [Hne _]. congruence. }
    split; [split|].
    + exact Hforth.
    + intros Hcond. rewrite (Hback Hcond). reflexivity.
    + intros Hraise. rewrite (Hback (Hforth Hraise)). reflexivity.
  - intros media_type id_media w. apply instantiate_media_MediaUnknown.
  - intros fuel path_base file_template media media_id media_type video_download
      progress_gui w id t Hpair Hunknown.
    unfold item, resolve_media. rewrite bind_run, Hpair.
    rewrite (proj2 (instantiate_media_MediaUnknown t id w) Hunknown). reflexivity.
  - intros manifest mime w. apply stream_manifest_parse_format.
  - intros fuel path_base file_template media media_id media_type progress_gui
      w w1 w2 m manifest mime Hres Hfetch Hunknown.
    unfold item. rewrite bind_run, Hres. unfold item_resolved. cbn [negb].
    rewrite bind_run, Hfetch, bind_run.
    rewrite (proj2 (stream_manifest_parse_format env self manifest mime w2) Hunknown).
    reflexivity.
Qed.

Lemma classification_errors_witness :
  item Example.env (Example.downloader 480 Disabled) 3 "/music" "" None None None
       true false Example.empty_world
  = (Raise MediaMissing, Example.empty_world)
  ∧ item Example.env (Example.downloader 480 Disabled) 3 "/music" "" None
         (Some "7") (Some (OtherMediaType "artist")) true false Example.empty_world
    = (Raise MediaUnknown, Example.empty_world)
  ∧ item Example.env (Example.downloader 480 Disabled) 3 "/music" ""
         (Some (Example.track "t-odd")) None None true false Example.empty_world
    = (Raise UnknownManifestFormat,
       add_event (EvStream (Example.track "t-odd")) Example.empty_world).
Proof.
  destruct (classification_errors Example.env (Example.downloader 480 Disabled))
    as (Hmissing & _ & Hunknown & _ & Hformat).
  split; [|split].
  - specialize (Hmissing 3%nat "/music" "" None None None true false Example.empty_world).
    cbv zeta in Hmissing. destruct Hmissing as [[_ Hraise] Hworld].
    specialize (Hraise (conj eq_refl eq_refl)). specialize (Hworld Hraise).
    destruct (item _ _ _ _ _ _ _ _ _ _ _) as [o w']. cbn in *. congruence.
  - apply (Hunknown 3%nat "/music" "" None (Some "7") (Some (OtherMediaType "artist"))
             true false Example.empty_world "7" (OtherMediaType "artist") eq_refl).
    intros [?|[?|[?|[?|?]]]]; discriminate.
  - apply (Hformat 3%nat "/music" "" (Some (Example.track "t-odd")) None None false
             Example.empty_world Example.empty_world _ (Example.track "t-odd")
             "odd" "text/plain" eq_refl eq_refl).
    intros [?|[?|?]]; discriminate.
Defined.

(** ** Selection of the rendition *)

Lemma resolution_height_run (p : Hls.Playlist) (w : World) :
  has_resolution p → resolution_height p w = (Return (height p), w).
Proof.
  unfold has_resolution, resolution_height, height. intros [[wd h] ->]. reflexivity.
Qed.

Lemma m3u8_load_run (env : Env) (uri : string) (loaded : Hls.M3U8) (w : World) :
  m3u8_load env (trace w) uri = inr loaded →
  m3u8_load_ env uri w = (Return loaded, add_event (EvM3u8Load uri) w).
Proof.
  intros H. unfold m3u8_load_, call. rewrite bind_run. cbn [get_world].
  rewrite bind_run. cbn [emit]. rewrite H. reflexivity.
Qed.

Lemma selects_cons_skip (quality best : Z) (q : Hls.Playlist)
    (rest before : list Hls.Playlist) (p : Hls.Playlist) (after : list Hls.Playlist) :
  height q ≤ best →
  selects quality best rest before p after →
  selects quality best (q :: rest) (q :: before) p after.
Proof.
  intros Hle [-> Hsel]. split; [reflexivity|].
  destruct Hsel as [(Hq & Hbest & Hbefore) | (Hnone & Hbest & Hbefore & Hafter)].
  - left. split; [exact Hq|]. split; [exact Hbest|]. constructor; [lia | exact Hbefore].
  - right. split.
    + intros b p' a Hsplit (Hq' & Hbest' & Hb').
      destruct b as [|q' b]; cbn in Hsplit; injection Hsplit as <- Hrest.
      * lia.
      * apply Forall_cons in Hb' as [_ Hb'].
        apply (Hnone b p' a Hrest). split; [exact Hq'|]. split; [exact Hbest' | exact Hb'].
    + split; [exact Hbest|]. split; [|exact Hafter]. constructor; [lia | exact Hbefore].
Qed.

Lemma selects_cons_raise (quality best : Z) (q : Hls.Playlist)
    (rest before : list Hls.Playlist) (p : Hls.Playlist) (after : list Hls.Playlist) :
  best < height q → height q ≠ quality →
  selects quality (height q) rest before p after →
  selects quality best (q :: rest) (q :: before) p after.
Proof.
  intros Hlt Hne [-> Hsel]. split; [reflexivity|].
  destruct Hsel as [(Hq & Hbest & Hbefore) | (Hnone & Hbest & Hbefore & Hafter)].
  - left. split; [exact Hq|]. split; [lia|]. constructor; [lia | exact Hbefore].
  - right. split.
    + intros b p' a Hsplit (Hq' & Hbest' & Hb').
      destruct b as [|q' b]; cbn in Hsplit; injection Hsplit as <- Hrest.
      * congruence.
      * apply Forall_cons in Hb' as [Hqlt Hb'].
        apply (Hnone b p' a Hrest). split; [exact Hq'|]. split; [exact Hqlt | exact Hb'].
    + split; [lia|]. split; [|exact Hafter]. constructor; [lia | exact Hbefore].
Qed.

Lemma selects_head_highest (quality best : Z) (q : Hls.Playlist) (rest : list Hls.Playlist) :
  best < height q → height q ≠ quality →
  Forall (λ p, height p ≤ height q) rest →
  selects quality best (q :: rest) [] q rest.
Proof.
  intros Hlt Hne Hrest. split; [reflexivity|]. right. split.
  - intros b p' a Hsplit (Hq' & Hbest' & Hb').
    destruct b as [|q' b]; cbn in Hsplit; injection Hsplit as <- Hsplit.
    + congruence.
    + apply Forall_cons in Hb' as [Hqlt _].
      rewrite Hsplit in Hrest. apply Forall_app in Hrest as [_ Hrest].
      apply Forall_cons in Hrest as [Hp' _]. lia.
  - split; [exact Hlt|]. split; [constructor | exact Hrest].
Qed.

(** The loop, run to its end: either no rendition rises above
    [resolution_best] and the locals are returned as they were, or the
    rendition that [selects] names was loaded last and is returned with its
    codec attribute. *)
Lemma extract_loop_selects (env : Env) (quality : Z) (renditions : list Hls.Playlist) :
  Forall has_resolution renditions →
  Forall (loadable env) renditions →
  ∀ (m3u8_playlist : option Hls.M3U8) (best : Z) (mime : string) (w : World),
    (Forall (λ p, height p ≤ best) renditions
     ∧ extract_loop env quality renditions m3u8_playlist best mime w
       = (Return (m3u8_playlist, mime), w))
    ∨ (∃ before p after loaded w' earlier,
         selects quality best renditions before p after
         ∧ extract_loop env quality renditions m3u8_playlist best mime w
           = (Return (Some loaded, Hls.codecs (Hls.stream_info p)), w')
         ∧ m3u8_load env (trace w ++ earlier) (Hls.uri p) = inr loaded
         ∧ trace w' = trace w ++ earlier ++ [EvM3u8Load (Hls.uri p)]).
Proof.
  induction renditions as [|q rest IH]; intros Hres Hload sel best mime w.
  - left. split; [constructor | reflexivity].
  - apply Forall_cons in Hres as [Hq Hres]. apply Forall_cons in Hload as [Hlq Hload].
    specialize (IH Hres Hload). cbn [extract_loop].
    rewrite bind_run, (resolution_height_run q w Hq).
    destruct (best <? height q) eqn:Hcmp.
    + apply Z.ltb_lt in Hcmp. destruct (Hlq (trace w)) as [loaded Hloaded].
      rewrite bind_run, (m3u8_load_run env _ _ w Hloaded).
      destruct (quality =? height q) eqn:Heq.
      * apply Z.eqb_eq in Heq. right.
        exists [], q, rest, loaded, (add_event (EvM3u8Load (Hls.uri q)) w), [].
        split; [|split; [reflexivity | split; [rewrite app_nil_r; exact Hloaded | reflexivity]]].
        split; [reflexivity|]. left. split; [congruence|]. split; [lia | constructor].
      * apply Z.eqb_neq in Heq.
        destruct (IH (Some loaded) (height q) (Hls.codecs (Hls.stream_info q))
                    (add_event (EvM3u8Load (Hls.uri q)) w))
          as [[Hall Hrun] | (before & p & after & loaded' & w' & earlier
                             & Hsel & Hrun & Hl' & Htrace)].
        -- right.
           exists [], q, rest, loaded, (add_event (EvM3u8Load (Hls.uri q)) w), [].
           split; [apply selects_head_highest; [exact Hcmp | congruence | exact Hall]|].
           split; [exact Hrun|].
           split; [rewrite app_nil_r; exact Hloaded | reflexivity].
        -- right.
           exists (q :: before), p, after, loaded', w',
                  (EvM3u8Load (Hls.uri q) :: earlier).
           split; [apply selects_cons_raise; [exact Hcmp | congruence | exact Hsel]|].
           split; [exact Hrun|]. cbn [trace add_event] in Hl', Htrace.
           rewrite <- app_assoc in Hl', Htrace. split; [exact Hl' | exact Htrace].
    + apply Z.ltb_ge in Hcmp.
      destruct (IH sel best mime w)
        as [[Hall Hrun] | (before & p & after & loaded' & w' & earlier
                           & Hsel & Hrun & Hl' & Htrace)].
      * left. split; [constructor; [exact Hcmp | exact Hall] | exact Hrun].
      * right. exists (q :: before), p, after, loaded', w', earlier.
        split; [apply selects_cons_skip; [exact Hcmp | exact Hsel]|].
        split; [exact Hrun|]. split; [exact Hl' | exact Htrace].
Qed.

(** X15. The selection that [_extract_video_stream] computes. The
    renditions of a multivariant playlist are visited in listed order; a
    rendition replaces the selection only when it is strictly higher than
    all before it, and the visit stops at the first such rendition whose
    resolution equals the target. So the result is the first rendition with
    the target resolution when all renditions listed before it are lower
    than the target, and the first rendition of the highest resolution
    otherwise, which may exceed the target; it is returned as loaded by
    [m3u8.load], the last request made, with its codec attribute. Without a
    rendition of positive resolution nothing is selected. *)
Theorem extract_video_stream_selection (env : Env) (m3u8_variant : Hls.M3U8)
    (quality : Z) (w : World) :
  Hls.is_variant m3u8_variant = true →
  Forall has_resolution (Hls.playlists m3u8_variant) →
  Forall (loadable env) (Hls.playlists m3u8_variant) →
  (Forall (λ p, height p ≤ 0) (Hls.playlists m3u8_variant)
   ∧ _extract_video_stream env m3u8_variant quality w = (Return (None, ""), w))
  ∨ (∃ before p after loaded w' earlier,
       Hls.playlists m3u8_variant = before ++ p :: after
       ∧ (exact_match quality 0 before p
          ∨ (no_exact_match quality 0 (Hls.playlists m3u8_variant)
             ∧ first_highest 0 before p after))
       ∧ _extract_video_stream env m3u8_variant quality w
         = (Return (Some loaded, Hls.codecs (Hls.stream_info p)), w')
       ∧ m3u8_load env (trace w ++ earlier) (Hls.uri p) = inr loaded
       ∧ trace w' = trace w ++ earlier ++ [EvM3u8Load (Hls.uri p)]).
Proof.
  intros Hvariant Hres Hload. unfold _extract_video_stream. rewrite Hvariant.
  destruct (extract_loop_selects env quality _ Hres Hload None 0 "" w)
    as [[Hall Hrun] | (before & p & after & loaded & w' & earlier
                       & [Hsplit Hsel] & Hrun & Hl & Htrace)].
  - left. split; assumption.
  - right. exists before, p, after, loaded, w', earlier. repeat split; assumption.
Qed.

Lemma extract_video_stream_selection_witness :
  let renditions := [Example.r360; Example.r480; Example.r720] in
  let w := Example.empty_world in
  (Forall (λ p, height p ≤ 0) renditions
   ∧ _extract_video_stream Example.env (Example.variant renditions) 480 w
     = (Return (None, ""), w))
  ∨ (∃ before p after loaded w' earlier,
       renditions = before ++ p :: after
       ∧ (exact_match 480 0 before p
          ∨ (no_exact_match 480 0 renditions ∧ first_highest 0 before p after))
       ∧ _extract_video_stream Example.env (Example.variant renditions) 480 w
         = (Return (Some loaded, Hls.codecs (Hls.stream_info p)), w')
       ∧ m3u8_load Example.env (trace w ++ earlier) (Hls.uri p) = inr loaded
       ∧ trace w' = trace w ++ earlier ++ [EvM3u8Load (Hls.uri p)]).
Proof.
  apply (extract_video_stream_selection Example.env
           (Example.variant [Example.r360; Example.r480; Example.r720]) 480
           Example.empty_world eq_refl).
  - repeat constructor; eexists; reflexivity.
  - repeat constructor; intros history; eexists; reflexivity.
Defined.

(** The two selections the spec lists: target 480 among 360, 480, 720, and
    target 1080 with 720 the highest available. *)
Example selection_of_the_exact_match :
  (_extract_video_stream Example.env
     (Example.variant [Example.r360; Example.r480; Example.r720]) 480
     Example.empty_world).1
  = Return (Some (Example.media_playlist "480"), "avc1.480").
Proof. vm_compute. reflexivity. Qed.

Example selection_of_the_highest_available :
  (_extract_video_stream Example.env
     (Example.variant [Example.r360; Example.r480; Example.r720]) 1080
     Example.empty_world).1
  = Return (Some (Example.media_playlist "720"), "avc1.720").
Proof. vm_compute. reflexivity. Qed.

(** C4 fails on the code. With 720 listed before 480 and the target 480,
    the 720 rendition is selected, although the 480 rendition is listed, has
    exactly the target resolution and is the one with the maximum
    resolution not exceeding the target: the test for the target sits in
    the branch taken for a new highest rendition only. Listed as 480, 720
    the same renditions give 480. *)
Theorem higher_rendition_listed_first_is_selected :
  let renditions := [Example.r720; Example.r480] in
  (_extract_video_stream Example.env (Example.variant renditions) 480
     Example.empty_world).1
  = Return (Some (Example.media_playlist "720"),
            Hls.codecs (Hls.stream_info Example.r720))
  ∧ Example.load_playlist [] (Hls.uri Example.r720) = inr (Example.media_playlist "720")
  ∧ ¬ max_not_exceeding 480 renditions Example.r720
  ∧ max_not_exceeding 480 renditions Example.r480
  ∧ (_extract_video_stream Example.env
       (Example.variant [Example.r480; Example.r720]) 480 Example.empty_world).1
    = Return (Some (Example.media_playlist "480"),
              Hls.codecs (Hls.stream_info Example.r480)).
Proof.
  cbv zeta. split; [vm_compute; reflexivity|]. split; [reflexivity|]. split.
  - intros (_ & Hle & _). vm_compute in Hle. apply Hle. reflexivity.
  - split; [|vm_compute; reflexivity].
    split; [right; left; reflexivity|]. split; [vm_compute; discriminate|].
    intros q [<-|[<-|[]]] Hq; vm_compute in Hq |- *; [exfalso; apply Hq; reflexivity | discriminate].
Qed.

(** ** The playlist form *)

(** C9, as the code has it. For the playlist tag, when [m3u8.load] gives a
    multivariant playlist with a rendition of positive resolution, the parse
    returns a [StreamManifest] whose [urls] are the [files] of the media
    playlist loaded for the selected rendition, in their order, with the
    codec attribute of that rendition and no encryption. (A playlist that is
    not multivariant is not normalized by this path.) *)
Theorem playlist_manifest_urls (env : Env) (self : Download) (manifest : string)
    (m3u8_variant : Hls.M3U8) (w : World) :
  VIDEO_value env ≠ MPD_value env →
  VIDEO_value env ≠ BTS_value env →
  m3u8_load env (trace w) manifest = inr m3u8_variant →
  Hls.is_variant m3u8_variant = true →
  Forall has_resolution (Hls.playlists m3u8_variant) →
  Forall (loadable env) (Hls.playlists m3u8_variant) →
  Exists (λ p, 0 < height p) (Hls.playlists m3u8_variant) →
  (∀ history p loaded,
     In p (Hls.playlists m3u8_variant) →
     m3u8_load env history (Hls.uri p) = inr loaded → Hls.files loaded ≠ []) →
  ∃ before p after loaded earlier sm w',
    selects (quality_video (settings self)) 0 (Hls.playlists m3u8_variant) before p after
    ∧ m3u8_load env (trace w ++ EvM3u8Load manifest :: earlier) (Hls.uri p) = inr loaded
    ∧ stream_manifest_parse env self manifest (VIDEO_value env) w = (Return sm, w')
    ∧ urls sm = Hls.files loaded
    ∧ codecs sm = Hls.codecs (Hls.stream_info p)
    ∧ encryption_type sm = "NONE"
    ∧ encryption_key sm = None
    ∧ trace w' = trace w ++ EvM3u8Load manifest :: earlier ++ [EvM3u8Load (Hls.uri p)]
    ∧ fs w' = fs w.
Proof.
  intros Hmpd Hbts Htop Hvariant Hres Hload Hpositive Hfiles.
  pose proof (m3u8_load_run env manifest m3u8_variant w Htop) as Hrun_top.
  set (w1 := add_event (EvM3u8Load manifest) w) in *.
  destruct (extract_loop_selects env (quality_video (settings self)) _ Hres Hload
              None 0 "" w1)
    as [[Hall _] | (before & p & after & loaded & w' & earlier
                    & [Hsplit Hsel] & Hrun & Hl & Htrace)].
  all: assert (_extract_video_stream env m3u8_variant (quality_video (settings self))
               = extract_loop env (quality_video (settings self))
                   (Hls.playlists m3u8_variant) None 0 "") as Hunfold
         by (unfold _extract_video_stream; rewrite Hvariant; reflexivity).
  all: try rewrite <- Hunfold in Hrun.
  { exfalso. apply Exists_exists in Hpositive as (p & Hin & Hp).
    rewrite Forall_forall in Hall. specialize (Hall p Hin). cbn in Hall. lia. }
  assert (In p (Hls.playlists m3u8_variant)) as Hin.
  { rewrite Hsplit. apply in_or_app. right. left. reflexivity. }
  destruct (Hls.files loaded) as [|url0 more] eqn:Hf.
  { exfalso. exact (Hfiles _ _ _ Hin Hl Hf). }
  assert (trace w1 ++ earlier = trace w ++ EvM3u8Load manifest :: earlier) as Hhistory.
  { unfold w1. cbn [trace add_event]. rewrite <- app_assoc. reflexivity. }
  rewrite Hhistory in Hl.
  exists before, p, after, loaded, earlier. eexists. exists w'.
  split; [split; assumption|]. split; [exact Hl|].
  split.
  { unfold stream_manifest_parse.
    apply String.eqb_neq in Hmpd, Hbts. rewrite Hmpd, Hbts, String.eqb_refl.
    unfold parse_video. rewrite !bind_run, Hrun_top, bind_run, Hrun.
    cbn [ret l_stream_urls]. rewrite Hf. reflexivity. }
  cbn [urls codecs encryption_type encryption_key
       l_stream_urls l_codecs l_encryption_type l_encryption_key].
  split; [symmetry; exact Hf|]. split; [reflexivity|]. split; [reflexivity|].
  split; [reflexivity|]. split.
  - rewrite Htrace, app_assoc, Hhistory. rewrite <- app_assoc. reflexivity.
  - assert (quiet w1 w') as (Hfs & _).
    { apply (respects__extract_video_stream quiet (λ _, False) quiet_refl quiet_trans env
               ltac:(intros e []) quiet_emit m3u8_variant
               (quality_video (settings self)) _ _ _ Hrun). }
    exact Hfs.
Qed.

Lemma playlist_manifest_urls_witness :
  ∃ before p after loaded earlier sm w',
    selects 480 0 [Example.r360; Example.r480; Example.r720] before p after
    ∧ m3u8_load Example.env
        ([] ++ EvM3u8Load "https://api.example/v/ascending.m3u8" :: earlier)
        (Hls.uri p) = inr loaded
    ∧ stream_manifest_parse Example.env (Example.downloader 480 Disabled)
        "https://api.example/v/ascending.m3u8" Example.VIDEO_mime Example.empty_world
      = (Return sm, w')
    ∧ urls sm = Hls.files loaded
    ∧ codecs sm = Hls.codecs (Hls.stream_info p)
    ∧ encryption_type sm = "NONE"
    ∧ encryption_key sm = None
    ∧ trace w' = [] ++ EvM3u8Load "https://api.example/v/ascending.m3u8"
                   :: earlier ++ [EvM3u8Load (Hls.uri p)]
    ∧ fs w' = ∅.
Proof.
  apply (playlist_manifest_urls Example.env (Example.downloader 480 Disabled)
           "https://api.example/v/ascending.m3u8"
           (Example.variant [Example.r360; Example.r480; Example.r720])
           Example.empty_world).
  - vm_compute. discriminate.
  - vm_compute. discriminate.
  - reflexivity.
  - reflexivity.
  - repeat constructor; eexists; reflexivity.
  - repeat constructor; intros history; eexists; reflexivity.
  - constructor. vm_compute. reflexivity.
  - intros history p loaded [<-|[<-|[<-|[]]]] [= <-]; discriminate.
Defined.

(** C9, as stated, fails: a playlist that is not multivariant, though it
    lists segment files, makes the parse raise [AttributeError], after its
    one request. *)
Lemma direct_media_playlist_is_not_normalized :
  let manifest := "https://api.example/v/direct.m3u8" in
  Example.load_playlist [] manifest = inr (Example.media_playlist "direct")
  ∧ Hls.is_variant (Example.media_playlist "direct") = false
  ∧ Hls.files (Example.media_playlist "direct")
    = [ "https://cdn.example/v/direct/seg0.ts"; "https://cdn.example/v/direct/seg1.ts" ]
  ∧ stream_manifest_parse Example.env (Example.downloader 480 Disabled)
      manifest Example.VIDEO_mime Example.empty_world
    = (Raise AttributeError, add_event (EvM3u8Load manifest) Example.empty_world).
Proof.
  cbv zeta. repeat split; vm_compute; reflexivity.
Qed.

(** ** Transport errors and the write loop *)

Lemma no_more_fetching_refl (w : World) : no_more_fetching w w.
Proof. split; [reflexivity | apply trace_extends_refl]. Qed.

Lemma no_more_fetching_trans (w1 w2 w3 : World) :
  no_more_fetching w1 w2 → no_more_fetching w2 w3 → no_more_fetching w1 w3.
Proof.
  intros [Ht1 He1] [Ht2 He2]. split; [congruence|].
  eapply trace_extends_trans; eassumption.
Qed.

Lemma no_more_fetching_emit (ev : Event) (w : World) :
  not_content_fetch ev = true → no_more_fetching w (add_event ev w).
Proof. intros Ha. split; [reflexivity | apply trace_extends_emit, Ha]. Qed.

Lemma no_more_fetching_fs (f : gmap string Bytes) (w : World) :
  no_more_fetching w {| fs := f; trace := trace w; tasks := tasks w |}.
Proof.
  split; [reflexivity|]. exists []. split; [symmetry; apply app_nil_r | reflexivity].
Qed.

(** What [_download] does after the [try] statement requests no content and
    leaves the tasks alone. *)
Lemma after_the_try_no_more_fetching (env : Env) (self : Download) (media : Media)
    (stream_manifest : StreamManifest) (path_file : string) (w w' : World)
    (o : Outcome string) :
  (tmp_path_file_decrypted ← decrypt_if_needed env stream_manifest path_file;
   write_metadata env self media tmp_path_file_decrypted;;
   ret tmp_path_file_decrypted) w = (o, w') →
  no_more_fetching w w'.
Proof.
  intros H.
  refine (proj1 (respects_bind no_more_fetching (λ _, False)
                   no_more_fetching_trans _ _ _ _ _ _ _ H)).
  - apply respects_decrypt_if_needed;
      [apply no_more_fetching_refl | apply no_more_fetching_trans
      | intros e [] | apply no_more_fetching_fs].
  - intros tmp. apply respects_bind; [apply no_more_fetching_trans | |].
    + apply respects_write_metadata;
        [apply no_more_fetching_refl | apply no_more_fetching_trans
        | intros e [] | apply no_more_fetching_emit | apply no_more_fetching_fs].
    + intros _. apply respects_ret, no_more_fetching_refl.
Qed.

Lemma task_finished_run (p_task : nat) (w : World) (t : Task) :
  tasks w !! p_task = Some t → task_finished p_task w = (Return (finished t), w).
Proof.
  intros Ht. unfold task_finished. rewrite bind_run. cbn [get_world].
  rewrite (subscript_Some _ _ _ Ht). reflexivity.
Qed.

(** C2, as the code has it. An [HTTPError] raised anywhere in the fetch is
    reported to the logger and ends the fetch: [_download] goes on with
    what follows the [try] statement, requests no content any more and
    leaves the progress task as it was. Any other transport error leaves
    [_download] at once, unlogged. Inside the write loop a pass that raises
    ends the loop; the whole fetch is attempted again, from the first URL
    and on the truncated file, exactly when a pass ends without error while
    the task is unfinished; a finished task ends the loop. *)
Theorem transport_errors_and_retry (env : Env) (self : Download) :
  (∀ fuel media (progress_gui : bool) stream_manifest path_file (w : World) status w1,
     let media_name := name_builder_item env media in
     let w0 := if progress_gui then add_event (EvGuiItemName media_name) w else w in
     fetch_all env fuel stream_manifest media_name path_file (negb progress_gui) w0
     = (Raise (HTTPError status), w1) →
     ∃ o w2 later,
       _download env self fuel media progress_gui stream_manifest path_file w = (o, w2)
       ∧ trace w2 = trace w1 ++ EvLogExn (HTTPError status) :: later
       ∧ forallb not_content_fetch later = true
       ∧ tasks w2 = tasks w1)
  ∧ (∀ fuel media (progress_gui : bool) stream_manifest path_file (w : World) msg w1,
       let media_name := name_builder_item env media in
       let w0 := if progress_gui then add_event (EvGuiItemName media_name) w else w in
       fetch_all env fuel stream_manifest media_name path_file (negb progress_gui) w0
       = (Raise (RequestError msg), w1) →
       _download env self fuel media progress_gui stream_manifest path_file w
       = (Raise (RequestError msg), w1))
  ∧ (∀ fuel sm_urls block_size path_file p_task progress_stdout w e w1,
       unfinished p_task w →
       write_pass env sm_urls block_size path_file p_task progress_stdout w
       = (Raise e, w1) →
       write_loop env (S fuel) sm_urls block_size path_file p_task progress_stdout w
       = (Raise e, w1))
  ∧ (∀ fuel sm_urls block_size path_file p_task progress_stdout w w1,
       unfinished p_task w →
       write_pass env sm_urls block_size path_file p_task progress_stdout w
       = (Return tt, w1) →
       write_loop env (S fuel) sm_urls block_size path_file p_task progress_stdout w
       = write_loop env fuel sm_urls block_size path_file p_task progress_stdout w1)
  ∧ (∀ sm_urls block_size path_file p_task progress_stdout w,
       write_pass env sm_urls block_size path_file p_task progress_stdout w
       = for_each sm_urls (fetch_url env block_size path_file p_task progress_stdout)
           (truncated path_file w))
  ∧ (∀ fuel sm_urls block_size path_file p_task progress_stdout w t,
       tasks w !! p_task = Some t → finished t = true →
       write_loop env fuel sm_urls block_size path_file p_task progress_stdout w
       = (Return tt, w)).
Proof.
  split; [|split; [|split; [|split; [|split]]]].
  - intros fuel media progress_gui sm path_file w status w1 media_name w0 Hfetch.
    destruct ((tmp ← decrypt_if_needed env sm path_file;
               write_metadata env self media tmp;; ret tmp)
                (add_event (EvLogExn (HTTPError status)) w1)) as [o w2] eqn:Hafter.
    pose proof (after_the_try_no_more_fetching _ _ _ _ _ _ _ _ Hafter)
      as (Htasks & later & Htrace & Hlater).
    exists o, w2, later. split; [|split; [|split]].
    + unfold _download. rewrite bind_run.
      assert ((if progress_gui then emit (EvGuiItemName (name_builder_item env media))
               else ret tt) w = (Return tt, w0)) as ->
        by (unfold w0, media_name; destruct progress_gui; reflexivity).
      rewrite bind_run. unfold try_except_HTTPError.
      fold media_name. rewrite Hfetch. exact Hafter.
    + rewrite Htrace. cbn [trace add_event]. rewrite <- app_assoc. reflexivity.
    + exact Hlater.
    + exact Htasks.
  - intros fuel media progress_gui sm path_file w msg w1 media_name w0 Hfetch.
    unfold _download. rewrite bind_run.
    assert ((if progress_gui then emit (EvGuiItemName (name_builder_item env media))
             else ret tt) w = (Return tt, w0)) as ->
      by (unfold w0, media_name; destruct progress_gui; reflexivity).
    rewrite bind_run. unfold try_except_HTTPError.
    fold media_name. rewrite Hfetch. reflexivity.
  - intros fuel sm_urls block_size path_file p_task stdout w e w1 (t & Ht & Hf) Hpass.
    cbn [write_loop]. rewrite bind_run, (task_finished_run _ _ _ Ht), Hf.
    rewrite bind_run, Hpass. reflexivity.
  - intros fuel sm_urls block_size path_file p_task stdout w w1 (t & Ht & Hf) Hpass.
    cbn [write_loop]. rewrite bind_run, (task_finished_run _ _ _ Ht), Hf.
    rewrite bind_run, Hpass. reflexivity.
  - intros. reflexivity.
  - intros fuel sm_urls block_size path_file p_task stdout w t Ht Hf.
    destruct fuel; cbn [write_loop];
      rewrite bind_run, (task_finished_run _ _ _ Ht), Hf; reflexivity.
Qed.

Lemma transport_errors_and_retry_witness :
  ∃ o w2 later,
    _download Example.env (Example.downloader 720 Disabled) 5 (Example.video "ascending")
      false Example.manifest_720 "/tmp/tmpdl/0000.ts" Example.empty_world
    = (o, w2)
    ∧ trace w2
      = trace (Example.world_after_error "/tmp/tmpdl/0000.ts")
        ++ EvLogExn (HTTPError 500) :: later
    ∧ forallb not_content_fetch later = true
    ∧ tasks w2 = tasks (Example.world_after_error "/tmp/tmpdl/0000.ts").
Proof.
  apply (proj1 (transport_errors_and_retry Example.env (Example.downloader 720 Disabled))
           5%nat (Example.video "ascending") false Example.manifest_720
           "/tmp/tmpdl/0000.ts" Example.empty_world 500
           (Example.world_after_error "/tmp/tmpdl/0000.ts")).
  vm_compute. reflexivity.
Defined.

(** C2, as stated, fails: the second segment is answered with status 500
    while the task is unfinished; the error is logged and, however many
    passes are allowed, no URL is requested a second time. And a request
    that times out is not logged at all. *)
Lemma http_error_is_logged_but_not_retried :
  (∀ fuel,
     let run := _download Example.env (Example.downloader 720 Disabled) (S fuel)
                  (Example.video "ascending") false Example.manifest_720
                  "/tmp/tmpdl/0000.ts" Example.empty_world in
     run.1 = Return "/tmp/tmpdl/0000.ts"
     ∧ trace run.2 = [ EvGet "https://cdn.example/v/720/seg0.ts";
                       EvGet "https://cdn.example/v/720/seg1.ts";
                       EvLogExn (HTTPError 500) ]
     ∧ tasks run.2 = [ {| total_num := 2; total_den := 1;
                          completed := 1; finished := false |} ])
  ∧ (∀ fuel,
       let run := _download Example.env (Example.downloader 720 Disabled) fuel
                    (Example.track "t-down") false Example.manifest_down
                    "/tmp/tmpdl/0000.flac" Example.empty_world in
       run.1 = Raise (RequestError "timed out")
       ∧ trace run.2 = [ EvGet "https://down.example/t/3.flac" ]).
Proof.
  split; intros fuel; cbv zeta; repeat split; vm_compute; reflexivity.
Qed.

(** ** Atomicity of the placement *)

(** C1 fails on the code. The video "ascending" at quality 720 has two
    segments; the request for the second is answered with status 500.
    [_download] logs the [HTTPError] and returns, and [item] moves the file
    that holds the first segment only to the destination and reports a
    download. At quality 480, where both requests succeed, the destination
    holds both segments. *)
Theorem partial_file_is_moved_to_the_destination :
  let run := item Example.env (Example.downloader 720 Disabled) 5 "/music" ""
               (Some (Example.video "ascending")) None None true false
               Example.empty_world in
  let complete := item Example.env (Example.downloader 480 Disabled) 5 "/music" ""
                    (Some (Example.video "ascending")) None None true false
                    Example.empty_world in
  run.1 = Return (true, "/music/ascending.ts")
  ∧ fs run.2 = {[ "/music/ascending.ts" := Example.AB ]}
  ∧ last (trace run.2) = Some (EvLogExn (HTTPError 500))
  ∧ complete.1 = Return (true, "/music/ascending.ts")
  ∧ fs complete.2 = {[ "/music/ascending.ts" := (Example.AB ++ Example.CD)%list ]}.
Proof.
  cbv zeta. repeat split; vm_compute; reflexivity.
Qed.


(** * Further properties of the code *)

(** ** The files a download may touch *)

Lemma append_assoc (a b c : string) : (a +:+ b) +:+ c = a +:+ b +:+ c.
Proof.
  induction a as [|x a IH]; [reflexivity|].
  change (String x ((a +:+ b) +:+ c) = String x (a +:+ b +:+ c)). rewrite IH. reflexivity.
Qed.

Lemma under_join (dir name : string) : under dir (os_path_join dir name).
Proof.
  unfold under, os_path_join. apply prefix_spec. exists name.
  symmetry. apply append_assoc.
Qed.

Lemma under_append (dir k suffix : string) : under dir k → under dir (k +:+ suffix).
Proof.
  unfold under. intros H. apply prefix_spec in H as [t ->]. apply prefix_spec.
  exists (t +:+ suffix). apply append_assoc.
Qed.

Section Footprint.

Variable env : Env.
Variable self : Download.
Variable inside : string → Prop.

Lemma kept_refl (w : World) : outside_kept inside w w.
Proof. intros k _. reflexivity. Qed.

Lemma kept_trans (w1 w2 w3 : World) :
  outside_kept inside w1 w2 → outside_kept inside w2 w3 → outside_kept inside w1 w3.
Proof. intros H1 H2 k Hk. rewrite (H2 k Hk). apply H1, Hk. Qed.

Lemma kept_emit (ev : Event) (w : World) : outside_kept inside w (add_event ev w).
Proof. intros k _. reflexivity. Qed.

Lemma kept_tasks (t : list Task) (w : World) :
  outside_kept inside w {| fs := fs w; trace := trace w; tasks := t |}.
Proof. intros k _. reflexivity. Qed.

Ltac kept_side :=
  first [ exact kept_refl | exact kept_trans
        | solve [intros ? ?; apply kept_emit]
        | solve [intros ? ?; apply kept_tasks]
        | solve [intros ? []] ].

Lemma kept_bind {A B} (m : M A) (k : A → M B) :
  respects (outside_kept inside) no_exception m →
  (∀ a, respects (outside_kept inside) no_exception (k a)) →
  respects (outside_kept inside) no_exception (m ≫= k).
Proof. apply respects_bind. exact kept_trans. Qed.

Lemma kept_ret {A} (a : A) : respects (outside_kept inside) no_exception (ret a).
Proof. apply respects_ret. exact kept_refl. Qed.

Lemma kept_raise {A} (e : Exn) : respects (outside_kept inside) no_exception (@raise A e).
Proof. apply respects_raise; [exact kept_refl | intros []]. Qed.

Lemma kept_open_wb (path_file : string) :
  inside path_file → respects (outside_kept inside) no_exception (open_wb path_file).
Proof.
  intros Hin w o w' H. inversion H; subst. split; [|discriminate].
  intros k Hk. cbn. apply lookup_insert_ne. intros ->. exact (Hk Hin).
Qed.

Lemma kept_f_write (path_file : string) (data : Bytes) :
  inside path_file →
  respects (outside_kept inside) no_exception (f_write path_file data).
Proof.
  intros Hin w o w' H. inversion H; subst. split; [|discriminate].
  intros k Hk. cbn. apply lookup_alter_ne. intros ->. exact (Hk Hin).
Qed.

Lemma kept_write_file (path_file : string) (content : Bytes) :
  inside path_file →
  respects (outside_kept inside) no_exception (write_file path_file content).
Proof.
  intros Hin w o w' H. inversion H; subst. split; [|discriminate].
  intros k Hk. cbn. apply lookup_insert_ne. intros ->. exact (Hk Hin).
Qed.

Lemma kept_read_file (path_file : string) :
  respects (outside_kept inside) no_exception (read_file path_file).
Proof. apply respects_read_file; kept_side. Qed.

Lemma kept_write_chunk (path_file : string) (p_task : nat) (progress_stdout : bool)
    (data : Bytes) :
  inside path_file →
  respects (outside_kept inside) no_exception
    (write_chunk path_file p_task progress_stdout data).
Proof.
  intros Hin. unfold write_chunk.
  apply kept_bind; [apply kept_f_write, Hin | intros _].
  apply kept_bind; [apply respects_advance; kept_side | intros _].
  destruct progress_stdout; [apply kept_ret|].
  apply kept_bind; [apply respects_task_percentage; kept_side | intros c].
  apply respects_emit. intros w. apply kept_emit.
Qed.

Lemma kept_fetch_url (block_size : option Z) (path_file : string) (p_task : nat)
    (progress_stdout : bool) (url : string) :
  inside path_file →
  respects (outside_kept inside) no_exception
    (fetch_url env block_size path_file p_task progress_stdout url).
Proof.
  intros Hin. unfold fetch_url.
  apply kept_bind; [apply respects_requests_get_; kept_side | intros r].
  apply kept_bind; [apply respects_raise_for_status; kept_side | intros _].
  apply kept_bind.
  - apply respects_for_each; [exact kept_refl | exact kept_trans |].
    intros data. apply kept_write_chunk, Hin.
  - intros _. destruct (body_error r); [apply kept_raise | apply kept_ret].
Qed.

Lemma kept_write_loop (fuel : nat) (sm_urls : list string) (block_size : option Z)
    (path_file : string) (p_task : nat) (progress_stdout : bool) :
  inside path_file →
  respects (outside_kept inside) no_exception
    (write_loop env fuel sm_urls block_size path_file p_task progress_stdout).
Proof.
  intros Hin. induction fuel as [|fuel IH]; cbn [write_loop];
    (apply kept_bind; [apply respects_task_finished; kept_side | intros b]);
    destruct b; try apply kept_ret.
  - apply respects_out_of_fuel. exact kept_refl.
  - apply kept_bind; [|intros _; exact IH]. unfold write_pass.
    apply kept_bind; [apply kept_open_wb, Hin | intros _].
    apply respects_for_each; [exact kept_refl | exact kept_trans |].
    intros url. apply kept_fetch_url, Hin.
Qed.

Lemma kept_fetch_all (fuel : nat) (stream_manifest : StreamManifest)
    (media_name path_file : string) (progress_stdout : bool) :
  inside path_file →
  respects (outside_kept inside) no_exception
    (fetch_all env fuel stream_manifest media_name path_file progress_stdout).
Proof.
  intros Hin. unfold fetch_all. apply kept_bind.
  - destruct (1 <? length (urls stream_manifest))%nat; [apply kept_ret|].
    apply kept_bind; [apply respects_subscript; kept_side | intros url0].
    apply kept_bind; [apply respects_requests_get_; kept_side | intros r].
    apply kept_bind; [apply respects_raise_for_status; kept_side | intros _].
    apply kept_ret.
  - intros [progress_total block_size].
    apply kept_bind; [apply respects_add_task; kept_side | intros p_task].
    apply kept_write_loop, Hin.
Qed.

Lemma kept_decrypt_if_needed (stream_manifest : StreamManifest) (path_file : string) :
  inside (path_file +:+ "_decrypted") →
  respects (outside_kept inside) no_exception
    (decrypt_if_needed env stream_manifest path_file).
Proof.
  intros Hin. unfold decrypt_if_needed.
  destruct (is_encrypted _); [|apply kept_ret].
  apply kept_bind.
  { destruct (encryption_key stream_manifest); [apply kept_ret | apply kept_raise]. }
  intros token.
  apply kept_bind; [apply respects_from_decoder; kept_side | intros [key nonce]].
  apply kept_bind; [|intros _; apply kept_ret]. unfold decrypt_file.
  apply kept_bind; [apply kept_read_file | intros content].
  apply kept_write_file, Hin.
Qed.

Lemma kept_write_metadata (media : Media) (path_file : string) :
  inside path_file →
  respects (outside_kept inside) no_exception (write_metadata env self media path_file).
Proof.
  intros Hin.
  assert (respects (outside_kept inside) no_exception
            (metadata_write env self media path_file;; ret tt)) as Htrack.
  { apply kept_bind; [|intros _; apply kept_ret]. unfold metadata_write.
    apply kept_bind.
    - destruct (lyrics_save (settings self)); [|apply kept_ret].
      apply kept_bind; [apply respects_get_world; exact kept_refl | intros w0].
      apply kept_bind; [apply respects_emit; intros w; apply kept_emit | intros _].
      destruct (track_lyrics env (trace w0) media); [|apply kept_ret].
      apply kept_bind; [apply respects_emit; intros w; apply kept_emit | intros _].
      apply kept_ret.
    - intros lyrics.
      apply kept_bind; [apply kept_read_file | intros content].
      apply kept_bind; [apply respects_from_decoder; kept_side | intros tagged].
      apply kept_bind; [apply kept_write_file, Hin | intros _; apply kept_ret]. }
  unfold write_metadata. destruct (media_class media); first [apply kept_ret | exact Htrack].
Qed.

Lemma decrypt_if_needed_path (stream_manifest : StreamManifest) (path_file : string)
    (w w' : World) (p : string) :
  decrypt_if_needed env stream_manifest path_file w = (Return p, w') →
  p = path_file ∨ p = path_file +:+ "_decrypted".
Proof.
  unfold decrypt_if_needed. destruct (is_encrypted _).
  - intros H. apply bind_Return in H as (token & w1 & _ & H).
    apply bind_Return in H as ([key nonce] & w2 & _ & H).
    apply bind_Return in H as (u & w3 & _ & H).
    apply ret_Return in H as [<- _]. right. reflexivity.
  - intros H. apply ret_Return in H as [<- _]. left. reflexivity.
Qed.

Lemma _download_path (fuel : nat) (media : Media) (progress_gui : bool)
    (stream_manifest : StreamManifest) (path_file : string) (w w' : World) (p : string) :
  _download env self fuel media progress_gui stream_manifest path_file w = (Return p, w') →
  p = path_file ∨ p = path_file +:+ "_decrypted".
Proof.
  unfold _download. intros H.
  apply bind_Return in H as (u1 & w1 & _ & H).
  apply bind_Return in H as (u2 & w2 & _ & H).
  apply bind_Return in H as (p' & w3 & Hp & H).
  apply bind_Return in H as (u3 & w4 & _ & H).
  apply ret_Return in H as [<- _]. eapply decrypt_if_needed_path, Hp.
Qed.

Lemma kept__download (fuel : nat) (media : Media) (progress_gui : bool)
    (stream_manifest : StreamManifest) (path_file : string) :
  inside path_file → inside (path_file +:+ "_decrypted") →
  respects (outside_kept inside) no_exception
    (_download env self fuel media progress_gui stream_manifest path_file).
Proof.
  intros Hin Hdec. unfold _download.
  apply kept_bind.
  { destruct progress_gui; [apply respects_emit; intros w; apply kept_emit | apply kept_ret]. }
  intros _. apply kept_bind.
  { apply respects_try; [exact kept_trans | apply kept_fetch_all, Hin |].
    intros e. apply respects_emit. intros w. apply kept_emit. }
  intros _.
  assert (∀ w o w',
            (p ← decrypt_if_needed env stream_manifest path_file;
             write_metadata env self media p;; ret p) w = (o, w') →
            outside_kept inside w w') as Hrest.
  { intros w o w' H. rewrite bind_run in H.
    destruct (decrypt_if_needed env stream_manifest path_file w) as [[p|e|] w1] eqn:Hd;
      pose proof (proj1 (kept_decrypt_if_needed _ _ Hdec _ _ _ Hd)) as Hk1;
      try (inversion H; subst; exact Hk1).
    assert (inside p) as Hp.
    { destruct (decrypt_if_needed_path _ _ _ _ _ Hd) as [-> | ->]; assumption. }
    eapply kept_trans; [exact Hk1|].
    refine (proj1 (kept_bind _ _ (kept_write_metadata media p Hp)
                     (λ _, kept_ret p) _ _ _ H)). }
  intros w o w' H. split; [eapply Hrest, H | intros e _ []].
Qed.

End Footprint.

Lemma rmtree_under (dir k : string) (w : World) :
  under dir k → fs (rmtree dir w) !! k = None.
Proof.
  unfold under, rmtree. intros Hk. cbn [fs]. apply map_lookup_filter_None_2.
  right. intros x _. cbn. rewrite Hk. discriminate.
Qed.

Lemma rmtree_outside (dir k : string) (w : World) :
  ¬ under dir k → fs (rmtree dir w) !! k = fs w !! k.
Proof.
  unfold under, rmtree. intros Hk. cbn [fs]. rewrite map_lookup_filter.
  destruct (fs w !! k) as [x|]; [|reflexivity]. cbn.
  rewrite option_guard_True; [reflexivity|].
  cbn. destruct (String.prefix (dir +:+ "/") k); [exfalso; apply Hk|]; reflexivity.
Qed.

Lemma kept__video_convert (env : Env) (inside : string → Prop) (path_file : string) :
  inside ((splitext env path_file).1 +:+ ".mp4") →
  respects (outside_kept inside) no_exception (_video_convert env path_file).
Proof.
  intros Hin. unfold _video_convert.
  apply kept_bind; [apply kept_read_file | intros content].
  apply kept_bind.
  { apply respects_from_decoder; [exact (kept_refl inside) | intros ? []]. }
  intros converted.
  apply kept_bind; [apply kept_write_file, Hin | intros _; apply kept_ret].
Qed.

(** The [with tempfile.TemporaryDirectory(...)] block: once it has ended,
    by return or by exception, nothing is left in the directory; whatever
    its end, files outside the directory are as before, but for the
    destination of a run that returns; a run that returns reports [True]
    and has put a file at the path it returns. *)
Lemma download_and_place_effect (env : Env) (self : Download) (fuel : nat)
    (media : Media) (progress_gui : bool) (stream_manifest : StreamManifest)
    (path_file : string) (w w' : World) (o : Outcome (bool * string)) :
  download_and_place env self fuel media progress_gui stream_manifest path_file w
  = (o, w') →
  (o ≠ OutOfFuel → ∀ k, under (mkdtemp env) k → fs w' !! k = None)
  ∧ ((∀ p, under (mkdtemp env) p →
           under (mkdtemp env) ((splitext env p).1 +:+ ".mp4")) →
     ∀ k, ¬ under (mkdtemp env) k → (∀ p, o = Return (true, p) → k ≠ p) →
          fs w' !! k = fs w !! k)
  ∧ (∀ b p, o = Return (b, p) →
       b = true
       ∧ p = (if is_Video media && video_convert_mp4 (settings self)
              then (splitext env path_file).1 +:+ ".mp4" else path_file)
       ∧ (¬ under (mkdtemp env) p → is_Some (fs w' !! p))).
Proof.
  unfold download_and_place, finally.
  set (dir := mkdtemp env). set (tmp := os_path_join dir _).
  set (body := _download env self fuel media progress_gui stream_manifest tmp ≫= _).
  destruct (body w) as [o1 w1] eqn:Hbody. intros Hend.
  assert (((∀ p, under dir p → under dir ((splitext env p).1 +:+ ".mp4")) →
           ∀ k, ¬ under dir k → (∀ p, o1 = Return (true, p) → k ≠ p) →
                fs (rmtree dir w1) !! k = fs w !! k)
          ∧ (∀ b p, o1 = Return (b, p) →
               b = true
               ∧ p = (if is_Video media && video_convert_mp4 (settings self)
                      then (splitext env path_file).1 +:+ ".mp4" else path_file)
               ∧ (¬ under dir p → is_Some (fs (rmtree dir w1) !! p)))) as Hcleaned;
    [clear Hend
    | destruct Hcleaned as [Hframe Hret]; destruct o1; inversion Hend; subst;
      (split; [first [intros _ k Hk; apply rmtree_under, Hk | intros Hne; contradiction]|]);
      (split; [|first [exact Hret | intros b p [=]]]);
      first [exact Hframe
            | intros Hsplit k Hk Hne;
              rewrite <- (rmtree_outside dir k w') by exact Hk;
              exact (Hframe Hsplit k Hk ltac:(intros p [=]))]].
  assert (under dir tmp) as Htmp by apply under_join.
  assert (under dir (tmp +:+ "_decrypted")) as Hdec by apply under_append, Htmp.
  unfold body in Hbody. rewrite bind_run in Hbody.
  destruct (_download env self fuel media progress_gui stream_manifest tmp w)
    as [[t|e|] wd] eqn:Hd.
  2,3: inversion Hbody; subst; split; [|intros b p [=]];
       intros Hsplit k Hk _; rewrite rmtree_outside by exact Hk;
       exact (proj1 (kept__download env self (under dir) fuel media progress_gui
                       stream_manifest tmp Htmp Hdec _ _ _ Hd) k Hk).
  pose proof (proj1 (kept__download env self (under dir) fuel media progress_gui
                       stream_manifest tmp Htmp Hdec _ _ _ Hd)) as Hk1.
  assert (under dir t) as Ht.
  { destruct (_download_path _ _ _ _ _ _ _ _ _ _ Hd) as [-> | ->]; assumption. }
  rewrite bind_run in Hbody.
  destruct (is_Video media && video_convert_mp4 (settings self)).
  - rewrite bind_run in Hbody.
    destruct (_video_convert env t wd) as [[c|e|] wc] eqn:Hc.
    2,3: inversion Hbody; subst; split; [|intros b p [=]];
         intros Hsplit k Hk _; rewrite rmtree_outside by exact Hk;
         rewrite (proj1 (kept__video_convert env (under dir) t (Hsplit t Ht) _ _ _ Hc) k Hk);
         apply Hk1, Hk.
    assert (c = (splitext env t).1 +:+ ".mp4") as ->.
    { unfold _video_convert in Hc.
      apply bind_Return in Hc as (? & ? & _ & Hc).
      apply bind_Return in Hc as (? & ? & _ & Hc).
      apply bind_Return in Hc as (? & ? & _ & Hc).
      apply ret_Return in Hc as [<- _]. reflexivity. }
    cbn [ret] in Hbody. rewrite bind_run in Hbody. unfold shutil_move in Hbody.
    rewrite bind_run in Hbody. unfold read_file in Hbody. rewrite bind_run in Hbody.
    cbn [get_world] in Hbody.
    destruct (fs wc !! ((splitext env t).1 +:+ ".mp4")) as [content|] eqn:Hsrc;
      cbn in Hbody; inversion Hbody; subst; clear Hbody.
    + split.
      * intros Hsplit k Hk Hne. rewrite rmtree_outside by exact Hk. cbn [fs].
        rewrite lookup_insert_ne by (intros Heq; exact (Hne _ eq_refl (eq_sym Heq))).
        rewrite lookup_delete_ne
          by (intros Heq; apply Hk; rewrite <- Heq; exact (Hsplit t Ht)).
        rewrite (proj1 (kept__video_convert env (under dir) t (Hsplit t Ht) _ _ _ Hc) k Hk).
        apply Hk1, Hk.
      * intros b p [= <- <-]. split; [reflexivity|]. split; [reflexivity|].
        intros Hp. rewrite rmtree_outside by exact Hp. cbn [fs].
        rewrite lookup_insert_eq. eexists; reflexivity.
    + split; [|intros b p [=]].
      intros Hsplit k Hk _. rewrite rmtree_outside by exact Hk.
      rewrite (proj1 (kept__video_convert env (under dir) t (Hsplit t Ht) _ _ _ Hc) k Hk).
      apply Hk1, Hk.
  - cbn [ret] in Hbody. rewrite bind_run in Hbody. unfold shutil_move in Hbody.
    rewrite bind_run in Hbody. unfold read_file in Hbody. rewrite bind_run in Hbody.
    cbn [get_world] in Hbody.
    destruct (fs wd !! t) as [content|] eqn:Hsrc;
      cbn in Hbody; inversion Hbody; subst; clear Hbody.
    + split.
      * intros Hsplit k Hk Hne. rewrite rmtree_outside by exact Hk. cbn [fs].
        rewrite lookup_insert_ne by (intros Heq; exact (Hne _ eq_refl (eq_sym Heq))).
        rewrite lookup_delete_ne by (intros Heq; apply Hk; rewrite <- Heq; exact Ht).
        apply Hk1, Hk.
      * intros b p [= <- <-]. split; [reflexivity|]. split; [reflexivity|].
        intros Hp. rewrite rmtree_outside by exact Hp. cbn [fs].
        rewrite lookup_insert_eq. eexists; reflexivity.
    + split; [|intros b p [=]].
      intros Hsplit k Hk _. rewrite rmtree_outside by exact Hk. apply Hk1, Hk.
Qed.

(** A run of [item] either never reaches the temporary directory, and then
    leaves every file alone and reports no download, or ends as the
    temporary-directory block ends, entered with the files as they were,
    for the media handle of the resolution step, the manifest parsed from
    what this handle gave, and the destination computed from both. *)
Lemma item_reaches_download_or_not (env : Env) (self : Download) (fuel : nat)
    (path_base file_template : string) (media : option Media)
    (media_id : option string) (media_type : option MediaType)
    (video_download progress_gui : bool) (w w' : World) (o : Outcome (bool * string)) :
  item env self fuel path_base file_template media media_id media_type
       video_download progress_gui w = (o, w') →
  (fs w' = fs w ∧ ∀ p, o ≠ Return (true, p))
  ∨ (∃ m w1 manifest mime w2 stream_manifest w3,
       resolve_media media media_id media_type w = (Return m, w1)
       ∧ fetch_manifest env m w1 = (Return (manifest, mime), w2)
       ∧ stream_manifest_parse env self manifest mime w2 = (Return stream_manifest, w3)
       ∧ fs w3 = fs w
       ∧ download_and_place env self fuel m progress_gui stream_manifest
           (destination_path env path_base file_template m stream_manifest) w3
         = (o, w')).
Proof.
  unfold item. rewrite bind_run.
  destruct (resolve_media media media_id media_type w) as [[m|e|] w1] eqn:Hres;
    pose proof (resolve_media_quiet _ _ _ _ _ _ Hres) as (Hfs1 & _);
    try (intros [= <- <-]; left; split; [exact Hfs1 | discriminate]).
  unfold item_resolved. destruct video_download; cbn [negb].
  2: { intros [= <- <-]. left. split; [exact Hfs1 | discriminate]. }
  rewrite bind_run.
  destruct (fetch_manifest env m w1) as [[[manifest mime]|e|] w2] eqn:Hfetch;
    pose proof (fetch_manifest_quiet _ _ _ _ _ Hfetch) as (Hfs2 & _);
    try (intros [= <- <-]; left; split; [congruence | discriminate]).
  rewrite bind_run.
  destruct (stream_manifest_parse env self manifest mime w2) as [[sm|e|] w3] eqn:Hparse;
    pose proof (stream_manifest_parse_quiet _ _ _ _ _ _ _ Hparse) as (Hfs3 & _);
    try (intros [= <- <-]; left; split; [congruence | discriminate]).
  rewrite bind_run. cbn [get_world].
  destruct (compute_download_skip env self (fs w3) _); cbn [negb].
  - intros [= <- <-]. left. split; [cbn; congruence | discriminate].
  - intros Hrun. right. exists m, w1, manifest, mime, w2, sm, w3.
    split; [reflexivity|]. split; [exact Hfetch|]. split; [exact Hparse|].
    split; [congruence | exact Hrun].
Qed.

(** X1. Outside the temporary directory [item] changes at most the file at
    the path it returns together with [True]: every other file is as before
    the call, also when [item] raises, and when it returns [False] no file
    has changed at all. Assumed of [os.path.splitext]: the stem of a path in
    the temporary directory, with [.mp4] appended, is a path in it. *)
Theorem item_changes_only_the_destination (env : Env) (self : Download) (fuel : nat)
    (path_base file_template : string) (media : option Media)
    (media_id : option string) (media_type : option MediaType)
    (video_download progress_gui : bool) (w w' : World) (o : Outcome (bool * string)) :
  (∀ p, under (mkdtemp env) p → under (mkdtemp env) ((splitext env p).1 +:+ ".mp4")) →
  item env self fuel path_base file_template media media_id media_type
       video_download progress_gui w = (o, w') →
  ∀ k, ¬ under (mkdtemp env) k → (∀ p, o = Return (true, p) → k ≠ p) →
       fs w' !! k = fs w !! k.
Proof.
  intros Hsplit Hrun k Hk Hne.
  destruct (item_reaches_download_or_not _ _ _ _ _ _ _ _ _ _ _ _ _ Hrun)
    as [[Hfs _] | (m & w1 & manifest & mime & w2 & sm & w3 & _ & _ & _ & Hfs & Hplace)].
  - rewrite Hfs. reflexivity.
  - destruct (download_and_place_effect _ _ _ _ _ _ _ _ _ _ Hplace) as (_ & Hframe & _).
    rewrite (Hframe Hsplit k Hk Hne), Hfs. reflexivity.
Qed.

(** X2. When [item] returns [True] with a path outside the temporary
    directory, a file is at that path, and the path is the destination
    computed for the media handle of this run and the manifest parsed in
    this run: the sanitized template path with the manifest's extension or,
    for a video with the conversion switched on, its stem with [.mp4]. *)
Theorem reported_download_is_in_place (env : Env) (self : Download) (fuel : nat)
    (path_base file_template : string) (media : option Media)
    (media_id : option string) (media_type : option MediaType)
    (video_download progress_gui : bool) (w w' : World) (p : string) :
  item env self fuel path_base file_template media media_id media_type
       video_download progress_gui w = (Return (true, p), w') →
  ¬ under (mkdtemp env) p →
  is_Some (fs w' !! p)
  ∧ ∃ m w1 manifest mime w2 stream_manifest w3,
      resolve_media media media_id media_type w = (Return m, w1)
      ∧ fetch_manifest env m w1 = (Return (manifest, mime), w2)
      ∧ stream_manifest_parse env self manifest mime w2 = (Return stream_manifest, w3)
      ∧ let path_file := destination_path env path_base file_template m stream_manifest in
        p = (if is_Video m && video_convert_mp4 (settings self)
             then (splitext env path_file).1 +:+ ".mp4" else path_file).
Proof.
  intros Hrun Hp.
  destruct (item_reaches_download_or_not _ _ _ _ _ _ _ _ _ _ _ _ _ Hrun)
    as [[_ Hno] | (m & w1 & manifest & mime & w2 & sm & w3
                   & Hres & Hfetch & Hparse & Hfs & Hplace)].
  - exfalso. exact (Hno p eq_refl).
  - destruct (download_and_place_effect _ _ _ _ _ _ _ _ _ _ Hplace) as (_ & _ & Hret).
    destruct (Hret true p eq_refl) as (_ & Hpath & Hsome).
    split; [exact (Hsome Hp)|].
    exists m, w1, manifest, mime, w2, sm, w3. auto.
Qed.


(** The stem that [Example.split_ext] gives for a path in a directory is in
    the directory. *)
Lemma split_last_dot_append (p stem ext : string) :
  Example.split_last_dot p = Some (stem, ext) → p = stem +:+ ext.
Proof.
  revert stem ext. induction p as [|c p IH]; intros stem ext; cbn [Example.split_last_dot].
  - discriminate.
  - destruct (Example.split_last_dot p) as [[stem' ext']|].
    + intros [= <- <-]. rewrite (IH stem' ext' eq_refl) at 1. reflexivity.
    + destruct (Ascii.eqb c "."); [|discriminate]. intros [= <- <-]. reflexivity.
Qed.

Lemma directory_is_prefix_of_stem (dir rest stem ext : string) :
  dir +:+ "/" +:+ rest = stem +:+ ext →
  PyStr.contains "/" ext = false →
  String.prefix (dir +:+ "/") stem = true.
Proof.
  revert stem. induction dir as [|c dir IH]; intros stem Heq Hext.
  - destruct stem as [|c' stem].
    + exfalso. apply contains_false_spec in Hext. apply Hext.
      exists EmptyString, rest. symmetry. exact Heq.
    + injection Heq as <- _. apply prefix_spec. exists stem. reflexivity.
  - destruct stem as [|c' stem].
    + exfalso. apply contains_false_spec in Hext. apply Hext.
      exists (String c dir), rest. symmetry. exact Heq.
    + injection Heq as <- Heq. specialize (IH stem Heq Hext).
      apply prefix_spec in IH as [t ->]. apply prefix_spec. exists t. reflexivity.
Qed.

Lemma example_stem_stays_in_directory (dir p : string) :
  under dir p → under dir ((Example.split_ext p).1 +:+ ".mp4").
Proof.
  intros Hp. unfold Example.split_ext.
  destruct (Example.split_last_dot p) as [[stem ext]|] eqn:Hsplit;
    [|apply under_append, Hp].
  destruct (PyStr.contains "/" ext) eqn:Hext; [apply under_append, Hp|].
  cbn [fst]. apply under_append. unfold under in *.
  apply prefix_spec in Hp as [rest Hp]. apply split_last_dot_append in Hsplit.
  apply (directory_is_prefix_of_stem dir rest stem ext); [|exact Hext].
  rewrite <- Hsplit, Hp. symmetry. apply append_assoc.
Qed.

Lemma item_changes_only_the_destination_witness :
  let w := Example.world_with "/music/keep.flac" Example.AB in
  let run := item Outage.env (Example.downloader 480 Disabled) 3 "/music" ""
               (Some (Example.track "t")) None None true false w in
  run.1 = Raise (RequestError "timed out")
  ∧ fs run.2 !! "/music/t.flac" = fs w !! "/music/t.flac"
  ∧ fs run.2 !! "/music/keep.flac" = fs w !! "/music/keep.flac".
Proof.
  cbv zeta. split; [vm_compute; reflexivity|].
  split;
    (eapply (item_changes_only_the_destination Outage.env);
     [ exact (example_stem_stays_in_directory "/tmp/tmpdl")
     | apply surjective_pairing
     | vm_compute; discriminate
     | intros p Hp; vm_compute in Hp; discriminate Hp ]).
Defined.

Lemma reported_download_is_in_place_witness :
  let run := item Example.env (Example.downloader 480 Disabled) 3 "/music" ""
               (Some (Example.track "t-plain")) None None true false
               Example.empty_world in
  run.1 = Return (true, "/music/t-plain.flac")
  ∧ is_Some (fs run.2 !! "/music/t-plain.flac").
Proof.
  cbv zeta. split; [vm_compute; reflexivity|].
  refine (proj1 (reported_download_is_in_place Example.env
                   (Example.downloader 480 Disabled) 3 "/music" ""
                   (Some (Example.track "t-plain")) None None true false
                   Example.empty_world _ "/music/t-plain.flac" _ _)).
  - vm_compute. reflexivity.
  - vm_compute. discriminate.
Defined.


(** ** What one pass writes *)

Lemma advanced_succ (n : nat) (t : Task) :
  advanced n (advance_task t) = advanced (S n) t.
Proof. unfold advanced. symmetry. apply Nat.iter_succ_r. Qed.

Lemma advanced_add (n m : nat) (t : Task) :
  advanced m (advanced n t) = advanced (n + m) t.
Proof.
  unfold advanced. rewrite Nat.add_comm. symmetry. apply Nat.iter_add.
Qed.

Lemma advanced_total (n : nat) (t : Task) :
  total_num (advanced n t) = total_num t
  ∧ total_den (advanced n t) = total_den t
  ∧ completed (advanced n t) = completed t + Z.of_nat n.
Proof.
  induction n as [|n (IHn & IHd & IHc)].
  - cbn. repeat split. lia.
  - change (advanced (S n) t) with (advance_task (advanced n t)).
    cbn [total_num total_den completed advance_task]. rewrite IHc.
    repeat split; try assumption. lia.
Qed.

Lemma advanced_finished (n : nat) (t : Task) :
  0 <= total_den t →
  finished (advanced n t)
  = finished t
    || (0 <? n)%nat && (total_num t <=? (completed t + Z.of_nat n) * total_den t).
Proof.
  intros Hden. induction n as [|n IH].
  - cbn. rewrite orb_false_r. reflexivity.
  - destruct (advanced_total n t) as (Hn & Hd & Hc).
    change (advanced (S n) t) with (advance_task (advanced n t)).
    cbn [finished advance_task]. rewrite IH, Hn, Hd, Hc.
    replace (completed t + Z.of_nat n + 1) with (completed t + Z.of_nat (S n)) by lia.
    destruct (finished t); [reflexivity|]. cbn [orb].
    change (0 <? S n)%nat with true. cbn [andb].
    destruct (total_num t <=? (completed t + Z.of_nat (S n)) * total_den t) eqn:Hlast.
    + apply orb_true_r.
    + rewrite orb_false_r. destruct (0 <? n)%nat; [|reflexivity]. cbn [andb].
      apply Z.leb_gt in Hlast. apply Z.leb_gt. nia.
Qed.

Section OnePass.

Variable env : Env.
Variable response : string → Response.
Variable block_size : option Z.
Variable path_file : string.
Variable p_task : nat.
Variable progress_stdout : bool.

Lemma content_fetches_add (ev : Event) (w : World) :
  content_fetches (add_event ev w)
  = content_fetches w ++ (if is_content_fetch ev then [ev] else []).
Proof. unfold content_fetches, add_event. cbn [trace]. apply List.filter_app. Qed.

Lemma write_chunk_run (data content : Bytes) (t : Task) (w : World) :
  writing_to path_file p_task content t w →
  ∃ w', write_chunk path_file p_task progress_stdout data w = (Return tt, w')
        ∧ writing_to path_file p_task (content ++ data) (advance_task t) w'
        ∧ fetched_into path_file [] w w'.
Proof.
  intros [Hfile Htask].
  assert (p_task < length (tasks w))%nat as Hlt by (eapply lookup_lt_Some, Htask).
  unfold write_chunk, f_write, advance.
  rewrite !bind_run. cbn [get_world put_fs]. rewrite !bind_run. cbn [get_world tasks].
  rewrite Htask. cbn [put_tasks].
  destruct progress_stdout.
  - eexists. split; [reflexivity|]. split; [split|split; [|split]]; cbn.
    + rewrite lookup_alter_eq, Hfile. reflexivity.
    + apply list_lookup_insert_eq, Hlt.
    + intros k Hk. apply lookup_alter_ne. congruence.
    + rewrite app_nil_r. reflexivity.
    + apply length_insert.
  - unfold task_percentage. rewrite !bind_run. cbn [get_world tasks].
    rewrite (subscript_Some _ _ _ (list_lookup_insert_eq _ _ _ Hlt)).
    rewrite bind_run. cbn [ret emit].
    eexists. split; [reflexivity|]. split; [split|split; [|split]]; cbn.
    + rewrite lookup_alter_eq, Hfile. reflexivity.
    + apply list_lookup_insert_eq, Hlt.
    + intros k Hk. apply lookup_alter_ne. congruence.
    + unfold content_fetches. cbn [trace]. rewrite List.filter_app. reflexivity.
    + apply length_insert.
Qed.

Lemma fetched_trans (urls1 urls2 : list string) (w1 w2 w3 : World) :
  fetched_into path_file urls1 w1 w2 → fetched_into path_file urls2 w2 w3 → fetched_into path_file (urls1 ++ urls2) w1 w3.
Proof.
  intros (Hk1 & Hf1 & Hl1) (Hk2 & Hf2 & Hl2). split; [|split].
  - intros k Hk. rewrite Hk2, Hk1 by exact Hk. reflexivity.
  - rewrite Hf2, Hf1, map_app, app_assoc. reflexivity.
  - congruence.
Qed.

Lemma write_chunks_run (chunks : list Bytes) (content : Bytes) (t : Task) (w : World) :
  writing_to path_file p_task content t w →
  ∃ w', for_each chunks (write_chunk path_file p_task progress_stdout) w = (Return tt, w')
        ∧ writing_to path_file p_task (content ++ concat chunks) (advanced (length chunks) t) w'
        ∧ fetched_into path_file [] w w'.
Proof.
  revert content t w. induction chunks as [|data chunks IH]; intros content t w Hw.
  - exists w. split; [reflexivity|]. cbn. rewrite app_nil_r.
    split; [exact Hw|]. repeat split. cbn. rewrite app_nil_r. reflexivity.
  - destruct (write_chunk_run data content t w Hw) as (w1 & Hrun1 & Hw1 & Hf1).
    destruct (IH _ _ _ Hw1) as (w2 & Hrun2 & Hw2 & Hf2).
    exists w2. cbn [for_each]. rewrite bind_run, Hrun1. split; [exact Hrun2|].
    split; [|exact (fetched_trans [] [] _ _ _ Hf1 Hf2)].
    cbn [concat length]. rewrite <- advanced_succ, app_assoc. exact Hw2.
Qed.

Lemma fetch_url_run (url : string) (content : Bytes) (t : Task) (w : World) :
  serves env response [url] →
  writing_to path_file p_task content t w →
  ∃ w', fetch_url env block_size path_file p_task progress_stdout url w = (Return tt, w')
        ∧ writing_to path_file p_task (content ++ concat (iter_content (response url) block_size))
            (advanced (length (iter_content (response url) block_size)) t) w'
        ∧ fetched_into path_file [url] w w'.
Proof.
  intros Hserves Hw. destruct (Hserves url (or_introl eq_refl)) as (Hget & Hstatus & Hbody).
  unfold fetch_url, requests_get_, call. rewrite !bind_run. cbn [get_world emit].
  rewrite !bind_run. cbn [emit]. rewrite Hget. cbn [ret].
  unfold raise_for_status. rewrite Hstatus, bind_run. cbn [ret]. rewrite bind_run.
  assert (writing_to path_file p_task content t (add_event (EvGet url) w)) as Hw0 by exact Hw.
  destruct (write_chunks_run (iter_content (response url) block_size) content t _ Hw0)
    as (w1 & Hrun & Hw1 & Hk & Hf & Hl).
  unfold add_event in Hrun. rewrite Hrun, Hbody. exists w1. split; [reflexivity|]. split; [exact Hw1|].
  split; [exact Hk|]. split; [|exact Hl].
  rewrite Hf, content_fetches_add. cbn. rewrite app_nil_r. reflexivity.
Qed.

Lemma serves_cons (url : string) (urls : list string) :
  serves env response (url :: urls) → serves env response [url] ∧ serves env response urls.
Proof.
  intros H. split; intros u Hu; apply H.
  - destruct Hu as [<-|[]]. left. reflexivity.
  - right. exact Hu.
Qed.

Lemma fetch_urls_run (urls : list string) (content : Bytes) (t : Task) (w : World) :
  serves env response urls →
  writing_to path_file p_task content t w →
  ∃ w', for_each urls (fetch_url env block_size path_file p_task progress_stdout) w
        = (Return tt, w')
        ∧ writing_to path_file p_task (content ++ concat (chunks_of response block_size urls))
            (advanced (length (chunks_of response block_size urls)) t) w'
        ∧ fetched_into path_file urls w w'.
Proof.
  revert content t w. induction urls as [|url urls IH]; intros content t w Hserves Hw.
  - exists w. split; [reflexivity|]. cbn. rewrite app_nil_r.
    split; [exact Hw|]. repeat split. cbn. rewrite app_nil_r. reflexivity.
  - apply serves_cons in Hserves as [Hurl Hurls].
    destruct (fetch_url_run url content t w Hurl Hw) as (w1 & Hrun1 & Hw1 & Hf1).
    destruct (IH _ _ _ Hurls Hw1) as (w2 & Hrun2 & Hw2 & Hf2).
    exists w2. cbn [for_each]. rewrite bind_run, Hrun1. split; [exact Hrun2|].
    split; [|exact (fetched_trans [url] urls _ _ _ Hf1 Hf2)].
    unfold chunks_of in *. cbn [flat_map]. rewrite concat_app, length_app, app_assoc.
    rewrite <- advanced_add. exact Hw2.
Qed.

End OnePass.

(** X4. One pass over the URLs of a server that answers every request:
    the file, created or truncated first, ends up holding the chunks of the
    responses in URL order and arrival order; the task has advanced once per
    chunk; every URL was requested exactly once, in order; no other file
    has changed. *)
Theorem pass_writes_the_chunks_in_order (env : Env) (response : string → Response)
    (block_size : option Z) (path_file : string) (p_task : nat) (progress_stdout : bool)
    (sm_urls : list string) (w : World) (t : Task) :
  serves env response sm_urls →
  tasks w !! p_task = Some t →
  ∃ w',
    write_pass env sm_urls block_size path_file p_task progress_stdout w = (Return tt, w')
    ∧ fs w' !! path_file = Some (concat (chunks_of response block_size sm_urls))
    ∧ tasks w' !! p_task
      = Some (advanced (length (chunks_of response block_size sm_urls)) t)
    ∧ (∀ k, k ≠ path_file → fs w' !! k = fs w !! k)
    ∧ content_fetches w' = content_fetches w ++ map EvGet sm_urls.
Proof.
  intros Hserves Htask.
  assert (writing_to path_file p_task [] t (truncated path_file w)) as Hw0.
  { split; [apply lookup_insert_eq | exact Htask]. }
  destruct (fetch_urls_run env response block_size path_file p_task progress_stdout
              sm_urls [] t _ Hserves Hw0) as (w' & Hrun & [Hfile Ht] & Hk & Hf & _).
  exists w'. split; [exact Hrun|]. split; [exact Hfile|]. split; [exact Ht|].
  split; [|exact Hf].
  intros k Hne. rewrite (Hk k Hne). cbn. apply lookup_insert_ne. congruence.
Qed.

Lemma pass_writes_the_chunks_in_order_witness :
  ∃ w',
    write_pass Example.env (Hls.files (Example.media_playlist "480")) None
      "/tmp/tmpdl/0000.ts" 0 true
      (truncated "/music/old.ts"
         {| fs := ∅; trace := [];
            tasks := [ {| total_num := 2; total_den := 1;
                          completed := 0; finished := false |} ] |})
    = (Return tt, w')
    ∧ fs w' !! "/tmp/tmpdl/0000.ts" = Some (Example.AB ++ Example.CD)%list
    ∧ fs w' !! "/music/old.ts" = Some []
    ∧ content_fetches w' = [ EvGet "https://cdn.example/v/480/seg0.ts";
                             EvGet "https://cdn.example/v/480/seg1.ts" ].
Proof.
  destruct (pass_writes_the_chunks_in_order Example.env example_response
              None "/tmp/tmpdl/0000.ts" 0 true
              (Hls.files (Example.media_playlist "480"))
              (truncated "/music/old.ts"
                 {| fs := ∅; trace := [];
                    tasks := [ {| total_num := 2; total_den := 1;
                                  completed := 0; finished := false |} ] |})
              {| total_num := 2; total_den := 1; completed := 0; finished := false |})
    as (w' & Hrun & Hfile & _ & Hother & Hfetches).
  - intros url [<-|[<-|[]]]; repeat split; intros; reflexivity.
  - reflexivity.
  - exists w'. split; [exact Hrun|]. split; [exact Hfile|].
    split; [rewrite Hother by discriminate; reflexivity | exact Hfetches].
Defined.

(** ** The write loop as a whole *)

Lemma write_loop_finished (env : Env) (fuel : nat) (sm_urls : list string)
    (block_size : option Z) (path_file : string) (p_task : nat) (progress_stdout : bool)
    (w : World) (t : Task) :
  tasks w !! p_task = Some t → finished t = true →
  write_loop env fuel sm_urls block_size path_file p_task progress_stdout w
  = (Return tt, w).
Proof.
  intros Ht Hf.
  destruct fuel; cbn [write_loop];
    rewrite bind_run, (task_finished_run _ _ _ Ht), Hf; reflexivity.
Qed.

(** The loop ends after one pass when the pass delivers enough chunks. *)
Lemma write_loop_one_pass (env : Env) (response : string → Response) (fuel : nat)
    (sm_urls : list string) (block_size : option Z) (path_file : string)
    (p_task : nat) (progress_stdout : bool) (w : World) (t : Task) :
  serves env response sm_urls →
  tasks w !! p_task = Some t →
  finished t = false →
  0 <= total_den t →
  chunks_of response block_size sm_urls ≠ [] →
  total_num t
  <= (completed t + Z.of_nat (length (chunks_of response block_size sm_urls)))
     * total_den t →
  ∃ w',
    write_loop env (S fuel) sm_urls block_size path_file p_task progress_stdout w
    = (Return tt, w')
    ∧ fs w' !! path_file = Some (concat (chunks_of response block_size sm_urls))
    ∧ (∃ t', tasks w' !! p_task = Some t' ∧ finished t' = true)
    ∧ (∀ k, k ≠ path_file → fs w' !! k = fs w !! k)
    ∧ content_fetches w' = content_fetches w ++ map EvGet sm_urls.
Proof.
  intros Hserves Ht Hunfinished Hden Hsome Henough.
  assert (writing_to path_file p_task [] t (truncated path_file w)) as Hw0.
  { split; [apply lookup_insert_eq | exact Ht]. }
  destruct (fetch_urls_run env response block_size path_file p_task progress_stdout
              sm_urls [] t _ Hserves Hw0) as (w' & Hpass & [Hfile Ht'] & Hk & Hfetches & _).
  assert (∀ k, k ≠ path_file → fs w' !! k = fs w !! k) as Hother.
  { intros k Hne. rewrite (Hk k Hne). cbn. apply lookup_insert_ne. congruence. }
  change (for_each sm_urls
            (fetch_url env block_size path_file p_task progress_stdout)
            (truncated path_file w))
    with (write_pass env sm_urls block_size path_file p_task progress_stdout w) in Hpass.
  assert (finished (advanced (length (chunks_of response block_size sm_urls)) t) = true)
    as Hdone.
  { rewrite advanced_finished by exact Hden. rewrite Hunfinished. cbn [orb].
    apply andb_true_iff. split.
    - apply Nat.ltb_lt. destruct (chunks_of response block_size sm_urls);
        [congruence | cbn; lia].
    - apply Z.leb_le. exact Henough. }
  exists w'. split.
  - cbn [write_loop]. rewrite bind_run, (task_finished_run _ _ _ Ht), Hunfinished.
    rewrite bind_run, Hpass. eapply write_loop_finished; eassumption.
  - split; [exact Hfile|]. split; [eexists; split; eassumption|].
    split; assumption.
Qed.

(** X5. A manifest with more than one URL, on a server that answers every
    request and delivers at least as many chunks as there are URLs, is
    fetched in a single pass of the write loop, whatever the number of
    passes allowed: every URL is requested exactly once, in order; the file
    holds the chunks in URL order; the new progress task is finished. *)
Theorem segmented_fetch_takes_one_pass (env : Env) (response : string → Response)
    (fuel : nat) (stream_manifest : StreamManifest) (media_name path_file : string)
    (progress_stdout : bool) (w : World) :
  (1 < length (urls stream_manifest))%nat →
  serves env response (urls stream_manifest) →
  (length (urls stream_manifest)
   ≤ length (chunks_of response None (urls stream_manifest)))%nat →
  ∃ w',
    fetch_all env (S fuel) stream_manifest media_name path_file progress_stdout w
    = (Return tt, w')
    ∧ fs w' !! path_file
      = Some (concat (chunks_of response None (urls stream_manifest)))
    ∧ (∃ t, tasks w' !! length (tasks w) = Some t ∧ finished t = true)
    ∧ (∀ k, k ≠ path_file → fs w' !! k = fs w !! k)
    ∧ content_fetches w' = content_fetches w ++ map EvGet (urls stream_manifest).
Proof.
  intros Hmany Hserves Hchunks.
  unfold fetch_all. apply Nat.ltb_lt in Hmany as Hltb. rewrite Hltb.
  rewrite bind_run. cbn [ret fst snd]. unfold add_task.
  rewrite !bind_run. cbn [get_world put_tasks ret].
  set (t0 := {| total_num := Z.of_nat (length (urls stream_manifest)); total_den := 1;
                completed := 0; finished := false |}).
  set (w1 := {| fs := fs w; trace := trace w; tasks := tasks w ++ [t0] |}).
  destruct (write_loop_one_pass env response fuel (urls stream_manifest) None path_file
              (length (tasks w)) progress_stdout w1 t0) as (w' & Hrun & Hrest).
  - exact Hserves.
  - apply list_lookup_middle. reflexivity.
  - reflexivity.
  - cbn. lia.
  - intros Hnil. rewrite Hnil in Hchunks. cbn in Hchunks. lia.
  - cbn [total_num total_den completed t0]. lia.
  - exists w'. split; [exact Hrun | exact Hrest].
Qed.

Lemma segmented_fetch_takes_one_pass_witness :
  ∃ w',
    fetch_all Example.env 1 example_manifest_480 "ascending" "/tmp/tmpdl/0000.ts" true
      Example.empty_world
    = (Return tt, w')
    ∧ fs w' !! "/tmp/tmpdl/0000.ts" = Some (Example.AB ++ Example.CD)%list
    ∧ content_fetches w' = [ EvGet "https://cdn.example/v/480/seg0.ts";
                             EvGet "https://cdn.example/v/480/seg1.ts" ].
Proof.
  destruct (segmented_fetch_takes_one_pass Example.env example_response 0
              example_manifest_480 "ascending" "/tmp/tmpdl/0000.ts" true
              Example.empty_world)
    as (w' & Hrun & Hfile & _ & _ & Hfetches).
  - vm_compute. lia.
  - intros url [<-|[<-|[]]]; repeat split; intros; reflexivity.
  - vm_compute. lia.
  - exists w'. split; [exact Hrun|]. split; [exact Hfile | exact Hfetches].
Defined.



(** A pass that delivers no chunk leaves the task as it was, and the loop
    uses up whatever number of passes it is allowed. *)
Lemma write_loop_without_chunks (env : Env) (response : string → Response)
    (sm_urls : list string) (block_size : option Z) (path_file : string)
    (p_task : nat) (progress_stdout : bool) (t : Task) :
  serves env response sm_urls →
  chunks_of response block_size sm_urls = [] →
  finished t = false →
  ∀ (fuel : nat) (w : World),
    tasks w !! p_task = Some t →
    (write_loop env fuel sm_urls block_size path_file p_task progress_stdout w).1
    = OutOfFuel.
Proof.
  intros Hserves Hnone Hunfinished fuel.
  induction fuel as [|fuel IH]; intros w Ht; cbn [write_loop];
    rewrite bind_run, (task_finished_run _ _ _ Ht), Hunfinished; [reflexivity|].
  assert (writing_to path_file p_task [] t (truncated path_file w)) as Hw0.
  { split; [apply lookup_insert_eq | exact Ht]. }
  destruct (fetch_urls_run env response block_size path_file p_task progress_stdout
              sm_urls [] t _ Hserves Hw0) as (w' & Hpass & [_ Ht'] & _).
  change (for_each sm_urls
            (fetch_url env block_size path_file p_task progress_stdout)
            (truncated path_file w))
    with (write_pass env sm_urls block_size path_file p_task progress_stdout w) in Hpass.
  rewrite bind_run, Hpass. apply IH. rewrite Hnone in Ht'. exact Ht'.
Qed.

Lemma chunks_of_nil (response : string → Response) (block_size : option Z)
    (sm_urls : list string) :
  (∀ url, In url sm_urls → iter_content (response url) block_size = []) →
  chunks_of response block_size sm_urls = [].
Proof.
  unfold chunks_of. induction sm_urls as [|url l IH]; intros H; [reflexivity|].
  cbn [flat_map]. rewrite (H url (or_introl eq_refl)). apply IH.
  intros u Hu. apply H. right. exact Hu.
Qed.

(** X7. When the server answers every request of a manifest with a body
    that delivers no chunk (an empty resource), [_download] does not return
    within any number of passes of the write loop: the task is never
    advanced, so it never finishes. *)
Theorem empty_bodies_are_fetched_without_end (env : Env) (self : Download)
    (response : string → Response) (fuel : nat) (media : Media) (progress_gui : bool)
    (stream_manifest : StreamManifest) (path_file : string) (w : World) :
  urls stream_manifest ≠ [] →
  serves env response (urls stream_manifest) →
  (∀ url block_size, In url (urls stream_manifest) →
     iter_content (response url) block_size = []) →
  (_download env self fuel media progress_gui stream_manifest path_file w).1 = OutOfFuel.
Proof.
  intros Hsome Hserves Hempty.
  assert (∀ block_size, chunks_of response block_size (urls stream_manifest) = [])
    as Hnone.
  { intros block_size. apply chunks_of_nil. intros url Hurl. apply Hempty, Hurl. }
  assert (∀ w0, (fetch_all env fuel stream_manifest (name_builder_item env media)
                   path_file (negb progress_gui) w0).1 = OutOfFuel) as Hfetch.
  { intros w0. unfold fetch_all. rewrite bind_run.
    destruct (1 <? length (urls stream_manifest))%nat eqn:Hmany.
    - cbn [ret fst snd]. unfold add_task. rewrite !bind_run.
      cbn [get_world put_tasks ret].
      eapply write_loop_without_chunks;
        [exact Hserves | apply Hnone | | apply list_lookup_middle; reflexivity].
      reflexivity.
    - destruct (urls stream_manifest) as [|url l] eqn:Hurls; [congruence|].
      destruct (Hserves url (or_introl eq_refl)) as (Hget & Hstatus & _).
      rewrite !bind_run. cbn [subscript lookup list_lookup ret].
      unfold requests_get_, call. rewrite !bind_run. cbn [get_world emit].
      rewrite !bind_run. cbn [emit]. rewrite Hget. cbn [ret].
      unfold raise_for_status. rewrite Hstatus. rewrite !bind_run. cbn [ret fst snd].
      unfold add_task. rewrite !bind_run. cbn [get_world put_tasks ret tasks fs trace].
      eapply write_loop_without_chunks;
        [exact Hserves | apply Hnone | | apply list_lookup_middle; reflexivity].
      reflexivity. }
  unfold _download. rewrite bind_run.
  destruct ((if progress_gui then emit (EvGuiItemName (name_builder_item env media))
             else ret tt) w) as [o0 w0] eqn:Hgui.
  assert (o0 = Return tt) as -> by (destruct progress_gui; inversion Hgui; reflexivity).
  rewrite bind_run. unfold try_except_HTTPError.
  specialize (Hfetch w0).
  destruct (fetch_all env fuel stream_manifest (name_builder_item env media) path_file
              (negb progress_gui) w0) as [o1 w1].
  cbn in Hfetch. subst o1. reflexivity.
Qed.

Lemma empty_bodies_are_fetched_without_end_witness :
  (_download Hollow.env (Example.downloader 480 Disabled) 1000
     (Example.track "t-plain") false
     {| urls := ["https://cdn.example/t/1.flac"]; codecs := "flac";
        file_extension := ".flac"; encryption_type := "NONE";
        encryption_key := None; mime_type := "audio/flac" |}
     "/tmp/tmpdl/0000.flac" Example.empty_world).1
  = OutOfFuel.
Proof.
  apply (empty_bodies_are_fetched_without_end Hollow.env
           (Example.downloader 480 Disabled) Hollow.response).
  - discriminate.
  - intros url _. repeat split; intros; reflexivity.
  - intros url block_size _. reflexivity.
Defined.

(** ** What the normalizer returns and what it leaves alone *)

(** X8. Every [StreamManifest] that [stream_manifest_parse] returns has at
    least one URL, and its [file_extension] is the one inferred from the
    first URL, one of [.flac], [.mp4], [.ts], [.m4a]. *)
Theorem accepted_manifest_has_a_first_url (env : Env) (self : Download)
    (manifest mime : string) (w w' : World) (sm : StreamManifest) :
  stream_manifest_parse env self manifest mime w = (Return sm, w') →
  ∃ url0,
    urls sm !! 0%nat = Some url0
    ∧ file_extension sm = get_file_extension url0 (codecs sm)
    ∧ In (file_extension sm) [".flac"; ".mp4"; ".ts"; ".m4a"].
Proof.
  unfold stream_manifest_parse. intros H.
  apply bind_Return in H as (locals & w1 & _ & H).
  apply bind_Return in H as (url0 & w2 & Hurl & H).
  apply subscript_Return in Hurl as [Hurl _].
  apply ret_Return in H as [<- _]. cbn [urls file_extension codecs].
  exists url0. split; [exact Hurl|]. split; [reflexivity|].
  unfold get_file_extension.
  destruct (PyStr.contains ".flac" url0); [cbn; tauto|].
  destruct (PyStr.contains ".mp4" url0); [cbn; tauto|].
  destruct (PyStr.contains ".ts" url0); cbn; tauto.
Qed.

Lemma accepted_manifest_has_a_first_url_witness :
  ∃ sm url0,
    stream_manifest_parse Example.env (Example.downloader 480 Disabled)
      "dash" Example.MPD_mime Example.empty_world
    = (Return sm, Example.empty_world)
    ∧ urls sm !! 0%nat = Some url0
    ∧ file_extension sm = get_file_extension url0 (codecs sm)
    ∧ In (file_extension sm) [".flac"; ".mp4"; ".ts"; ".m4a"].
Proof.
  eexists.
  destruct (accepted_manifest_has_a_first_url Example.env
              (Example.downloader 480 Disabled) "dash" Example.MPD_mime
              Example.empty_world Example.empty_world _ eq_refl)
    as (url0 & Hfirst & Hext & Hin).
  exists url0. split; [reflexivity|]. split; [exact Hfirst|]. split; assumption.
Defined.

Lemma parse_bts_world (env : Env) (manifest : string) (w w' : World)
    (o : Outcome ManifestLocals) :
  parse_bts env manifest w = (o, w') → w' = w.
Proof.
  unfold parse_bts, from_decoder, getitem. intros H.
  do 6 (rewrite bind_run in H;
        match type of H with
        | context [match ?x with Some _ => _ | None => _ end] => destruct x
        end; cbn [ret raise] in H; [|inversion H; reflexivity]).
  rewrite bind_run in H. destruct (is_encrypted _).
  - destruct (Bts.encryptionKey _); cbn [ret raise] in H; inversion H; reflexivity.
  - inversion H. reflexivity.
Qed.

(** X9. Whatever its outcome, [stream_manifest_parse] writes no file,
    touches no progress task and requests no content; for the JSON form it
    leaves the world as it is altogether, no request of any kind being
    made. *)
Theorem parsing_only_loads_playlists (env : Env) (self : Download)
    (manifest mime : string) (w w' : World) (o : Outcome StreamManifest) :
  stream_manifest_parse env self manifest mime w = (o, w') →
  fs w' = fs w
  ∧ tasks w' = tasks w
  ∧ content_fetches w' = content_fetches w
  ∧ (mime ≠ MPD_value env → mime = BTS_value env → w' = w).
Proof.
  intros H.
  pose proof (stream_manifest_parse_quiet _ _ _ _ _ _ _ H) as Hq.
  split; [apply Hq|]. split; [apply Hq|]. split; [apply quiet_content_fetches, Hq|].
  intros Hmpd Hbts. unfold stream_manifest_parse in H. rewrite bind_run in H.
  apply String.eqb_neq in Hmpd. apply String.eqb_eq in Hbts. rewrite Hmpd, Hbts in H.
  destruct (parse_bts env manifest w) as [[locals|e|] w1] eqn:Hp;
    apply parse_bts_world in Hp as ->; try (inversion H; reflexivity).
  rewrite bind_run in H. unfold subscript in H.
  destruct (l_stream_urls locals !! 0%nat); cbn [ret raise] in H;
    inversion H; reflexivity.
Qed.

Lemma parsing_only_loads_playlists_witness :
  let run := stream_manifest_parse Example.env (Example.downloader 480 Disabled)
               "https://api.example/v/ascending.m3u8" Example.VIDEO_mime
               (Example.world_with "/music/a.ts" Example.AB) in
  fs run.2 = fs (Example.world_with "/music/a.ts" Example.AB)
  ∧ tasks run.2 = []
  ∧ content_fetches run.2 = [].
Proof.
  cbv zeta.
  destruct (parsing_only_loads_playlists Example.env (Example.downloader 480 Disabled)
              "https://api.example/v/ascending.m3u8" Example.VIDEO_mime
              (Example.world_with "/music/a.ts" Example.AB) _ _
              (surjective_pairing _)) as (Hfs & Htasks & Hfetches & _).
  split; [exact Hfs|]. split; [exact Htasks | exact Hfetches].
Defined.

(** ** Edge cases of the adaptive-streaming and the JSON form *)

Lemma Zsum_repeat_lower_bound (Ss : list Dash.S) :
  Forall (λ s, match Dash.r s with Some n => 0 <= n | None => True end) Ss →
  Z.of_nat (length Ss) <= Zsum (map repeat_or_1 Ss).
Proof.
  induction 1 as [|s Ss Hs _ IH]; cbn [length map Zsum foldr]; [lia|].
  fold (Zsum (map repeat_or_1 Ss)).
  assert (1 <= repeat_or_1 s).
  { unfold repeat_or_1. destruct (Dash.r s) as [[|n|n]|]; lia. }
  lia.
Qed.

(** X10. For an adaptive-streaming manifest whose timeline has entries,
    none with a negative repeat count, the segment count is at least 2
    plus the number of entries; so the parse returns at least two URLs (the
    manifest is never treated as a single resource), the first one with
    index 0. A timeline without entries, for which the parser leaves [Ss]
    at [None], is rejected with [TypeError] by the loop over the entries. *)
Theorem mpd_without_negative_repeats_is_segmented (env : Env) (self : Download)
    (manifest xml : string) (mpd : Dash.MPD) (period : Dash.Period)
    (adaptation_set : Dash.AdaptationSet) (representation : Dash.Representation)
    (segment_template : Dash.SegmentTemplate) (timeline : Dash.SegmentTimeline)
    (w : World) :
  b64decode_utf8 env manifest = Some xml →
  MPEGDASHParser_parse env xml = Some mpd →
  Dash.periods mpd !! 0%nat = Some period →
  Dash.adaptation_sets period !! 0%nat = Some adaptation_set →
  Dash.representations adaptation_set !! 0%nat = Some representation →
  Dash.segment_templates representation !! 0%nat = Some segment_template →
  Dash.segment_timelines segment_template !! 0%nat = Some timeline →
  (Dash.Ss timeline = None →
   stream_manifest_parse env self manifest (MPD_value env) w = (Raise TypeError, w))
  ∧ (∀ entries,
       Dash.Ss timeline = Some entries →
       Forall (λ s, match Dash.r s with Some n => 0 <= n | None => True end) entries →
       2 + Z.of_nat (length entries) <= count_segments entries
       ∧ ∃ sm,
           stream_manifest_parse env self manifest (MPD_value env) w = (Return sm, w)
           ∧ (1 < length (urls sm))%nat
           ∧ length (urls sm) = Z.to_nat (count_segments entries)
           ∧ urls sm !! 0%nat
             = Some (PyStr.replace "$Number$" "0" (Dash.media segment_template))).
Proof.
  intros Hb64 Hxml Hp Ha Hr Ht Hl.
  assert (parse_mpd env manifest w
          = (iter (Dash.Ss timeline) ≫= λ Ss,
               ret {| l_stream_urls :=
                        segment_urls (Dash.media segment_template) (count_segments Ss);
                      l_codecs := Dash.codecs representation;
                      l_mime_type := Dash.mime_type adaptation_set;
                      l_encryption_type := "NONE";
                      l_encryption_key := None |}) w) as Hparse.
  { unfold parse_mpd. rewrite Hb64. cbn [from_decoder]. rewrite bind_run. cbn [ret].
    rewrite Hxml. cbn [from_decoder]. rewrite bind_run. cbn [ret].
    rewrite (subscript_Some _ _ _ Hp), bind_run. cbn [ret].
    rewrite (subscript_Some _ _ _ Ha), bind_run. cbn [ret].
    rewrite (subscript_Some _ _ _ Hr), bind_run. cbn [ret].
    rewrite (subscript_Some _ _ _ Ht), bind_run. cbn [ret].
    rewrite (subscript_Some _ _ _ Hl), bind_run. reflexivity. }
  unfold stream_manifest_parse. rewrite String.eqb_refl, bind_run, Hparse. split.
  - intros ->. reflexivity.
  - intros entries -> Hnonneg.
    pose proof (Zsum_repeat_lower_bound _ Hnonneg) as Hsum.
    pose proof (count_segments_sum entries) as Hcount.
    split; [lia|].
    assert (segment_urls (Dash.media segment_template) (count_segments entries) !! 0%nat
            = Some (PyStr.replace "$Number$" "0" (Dash.media segment_template))) as Hfirst.
    { apply (segment_urls_lookup _ _ 0). lia. }
    cbn [iter]. rewrite bind_run. cbn [ret l_stream_urls].
    rewrite (subscript_Some _ _ _ Hfirst), bind_run.
    eexists. split; [reflexivity|]. cbn [urls ret].
    split; [rewrite segment_urls_length; lia|].
    split; [apply segment_urls_length | exact Hfirst].
Qed.

Lemma mpd_without_negative_repeats_is_segmented_witness :
  2 + 3 <= count_segments Example.timeline
  ∧ ∃ sm,
      stream_manifest_parse Example.env (Example.downloader 480 Disabled)
        "dash" Example.MPD_mime Example.empty_world
      = (Return sm, Example.empty_world)
      ∧ (1 < length (urls sm))%nat
      ∧ length (urls sm) = Z.to_nat (count_segments Example.timeline)
      ∧ urls sm !! 0%nat = Some "https://cdn.example/a/0.mp4".
Proof.
  apply (proj2 (mpd_without_negative_repeats_is_segmented
                  Example.env (Example.downloader 480 Disabled) "dash" "dash" Example.mpd
                  _ _ _ Example.segment_template {| Dash.Ss := Some Example.timeline |}
                  Example.empty_world
                  eq_refl eq_refl eq_refl eq_refl eq_refl eq_refl eq_refl)
          Example.timeline eq_refl).
  repeat constructor; cbn; lia.
Defined.

(** X11. When negative repeat counts bring the segment count of an
    adaptive-streaming manifest down to zero or below, no URL is built and
    the parse raises [IndexError] on [stream_urls[0]]. *)
Theorem mpd_with_nonpositive_count_is_rejected (env : Env) (self : Download)
    (manifest xml : string) (mpd : Dash.MPD) (period : Dash.Period)
    (adaptation_set : Dash.AdaptationSet) (representation : Dash.Representation)
    (segment_template : Dash.SegmentTemplate) (timeline : Dash.SegmentTimeline)
    (entries : list Dash.S) (w : World) :
  b64decode_utf8 env manifest = Some xml →
  MPEGDASHParser_parse env xml = Some mpd →
  Dash.periods mpd !! 0%nat = Some period →
  Dash.adaptation_sets period !! 0%nat = Some adaptation_set →
  Dash.representations adaptation_set !! 0%nat = Some representation →
  Dash.segment_templates representation !! 0%nat = Some segment_template →
  Dash.segment_timelines segment_template !! 0%nat = Some timeline →
  Dash.Ss timeline = Some entries →
  count_segments entries <= 0 →
  stream_manifest_parse env self manifest (MPD_value env) w = (Raise IndexError, w).
Proof.
  intros Hb64 Hxml Hp Ha Hr Ht Hl Hs Hcount.
  unfold stream_manifest_parse. rewrite String.eqb_refl, bind_run.
  unfold parse_mpd. rewrite Hb64. cbn [from_decoder]. rewrite bind_run. cbn [ret].
  rewrite Hxml. cbn [from_decoder]. rewrite bind_run. cbn [ret].
  rewrite (subscript_Some _ _ _ Hp), bind_run. cbn [ret].
  rewrite (subscript_Some _ _ _ Ha), bind_run. cbn [ret].
  rewrite (subscript_Some _ _ _ Hr), bind_run. cbn [ret].
  rewrite (subscript_Some _ _ _ Ht), bind_run. cbn [ret].
  rewrite (subscript_Some _ _ _ Hl), bind_run. cbn [ret].
  rewrite Hs. cbn [iter]. rewrite bind_run. cbn [ret l_stream_urls].
  unfold segment_urls, range.
  replace (Z.to_nat (count_segments entries)) with 0%nat by lia.
  reflexivity.
Qed.

Lemma mpd_with_nonpositive_count_is_rejected_witness :
  count_segments Live.timeline = 0
  ∧ stream_manifest_parse Live.env (Example.downloader 480 Disabled)
      "live" Example.MPD_mime Example.empty_world
    = (Raise IndexError, Example.empty_world).
Proof.
  split; [reflexivity|].
  apply (mpd_with_nonpositive_count_is_rejected
           Live.env (Example.downloader 480 Disabled) "live" "live" Live.mpd
           Live.period Live.adaptation_set Live.representation Live.segment_template
           {| Dash.Ss := Some Live.timeline |} Live.timeline Example.empty_world
           eq_refl eq_refl eq_refl eq_refl eq_refl eq_refl eq_refl eq_refl).
  vm_compute. discriminate.
Defined.

(** X12. A manifest of the JSON form that decodes is accepted exactly when
    the envelope has the keys [urls], [codecs], [mimeType] and
    [encryptionType], has [encryptionKey] too unless the type is ["NONE"],
    and lists at least one URL; the four fields are copied as they are, the
    value under [encryptionKey], a string or [null], is copied exactly when
    the type is not ["NONE"], and no request is made. *)
Theorem bts_manifest_is_accepted_iff (env : Env) (self : Download)
    (manifest json : string) (envelope : Bts.Envelope) (w w' : World)
    (sm : StreamManifest) :
  BTS_value env ≠ MPD_value env →
  b64decode_utf8 env manifest = Some json →
  json_loads env json = Some envelope →
  stream_manifest_parse env self manifest (BTS_value env) w = (Return sm, w')
  ↔ w' = w
    ∧ Bts.urls envelope = Some (urls sm)
    ∧ Bts.codecs envelope = Some (codecs sm)
    ∧ Bts.mimeType envelope = Some (mime_type sm)
    ∧ Bts.encryptionType envelope = Some (encryption_type sm)
    ∧ (if is_encrypted (encryption_type sm)
       then Bts.encryptionKey envelope = Some (encryption_key sm)
       else encryption_key sm = None)
    ∧ ∃ url0, urls sm !! 0%nat = Some url0
              ∧ file_extension sm = get_file_extension url0 (codecs sm).
Proof.
  intros Hne Hb64 Hjson. apply String.eqb_neq in Hne.
  unfold stream_manifest_parse. rewrite Hne, String.eqb_refl. split.
  - intros H.
    apply bind_Return in H as (locals & w1 & Hlocals & H).
    pose proof (parse_bts_world _ _ _ _ _ Hlocals) as ->.
    apply bind_Return in H as (url0 & w2 & Hurl & H).
    apply subscript_Return in Hurl as [Hurl ->].
    apply ret_Return in H as [<- ->].
    cbn [urls codecs mime_type encryption_type encryption_key file_extension].
    unfold parse_bts in Hlocals. rewrite Hb64 in Hlocals. cbn [from_decoder] in Hlocals.
    apply bind_Return in Hlocals as (? & ? & [<- _]%ret_Return & Hlocals).
    rewrite Hjson in Hlocals. cbn [from_decoder] in Hlocals.
    apply bind_Return in Hlocals as (? & ? & [<- _]%ret_Return & Hlocals).
    apply bind_Return in Hlocals as (l & ? & [Hl _]%getitem_Return & Hlocals).
    apply bind_Return in Hlocals as (c & ? & [Hc _]%getitem_Return & Hlocals).
    apply bind_Return in Hlocals as (m & ? & [Hm _]%getitem_Return & Hlocals).
    apply bind_Return in Hlocals as (t & ? & [Ht _]%getitem_Return & Hlocals).
    apply bind_Return in Hlocals as (k & ? & Hk & Hlocals).
    apply ret_Return in Hlocals as [<- _].
    cbn [l_stream_urls l_codecs l_mime_type l_encryption_type l_encryption_key] in *.
    split; [reflexivity|]. repeat (split; [assumption|]). split.
    + destruct (is_encrypted t).
      * apply getitem_Return in Hk as [Hk _]. exact Hk.
      * apply ret_Return in Hk as [<- _]. reflexivity.
    + exists url0. split; [exact Hurl | reflexivity].
  - intros (-> & Hl & Hc & Hm & Ht & Hk & url0 & Hurl & Hext).
    destruct sm as [l c ext t k m].
    cbn [urls codecs mime_type encryption_type encryption_key file_extension] in *.
    subst ext.
    assert (parse_bts env manifest w
            = (Return {| l_stream_urls := l; l_codecs := c; l_mime_type := m;
                         l_encryption_type := t; l_encryption_key := k |}, w))
      as Hlocals.
    { unfold parse_bts. rewrite Hb64. cbn [from_decoder].
      rewrite bind_run. cbn [ret]. rewrite Hjson. cbn [from_decoder].
      rewrite bind_run. cbn [ret]. rewrite Hl, Hc, Hm, Ht. cbn [getitem].
      do 4 (rewrite bind_run; cbn [ret]). rewrite bind_run.
      destruct (is_encrypted t).
      - rewrite Hk. reflexivity.
      - subst k. reflexivity. }
    rewrite bind_run, Hlocals. cbn [l_stream_urls].
    rewrite (subscript_Some _ _ _ Hurl). reflexivity.
Qed.

Lemma bts_manifest_is_accepted_iff_witness :
  stream_manifest_parse Example.env (Example.downloader 480 Disabled)
    "encrypted" Example.BTS_mime Example.empty_world
  = (Return {| urls := ["https://cdn.example/t/2.flac"];
               codecs := "flac";
               file_extension := ".flac";
               encryption_type := "OLD_AES";
               encryption_key := Some "a2V5";
               mime_type := "audio/flac" |}, Example.empty_world).
Proof.
  apply (bts_manifest_is_accepted_iff Example.env (Example.downloader 480 Disabled)
           "encrypted" "encrypted" Example.envelope_encrypted).
  - vm_compute. discriminate.
  - reflexivity.
  - reflexivity.
  - repeat split; try reflexivity.
    eexists. split; reflexivity.
Defined.

(** ** The segment URLs of a pattern *)

Lemma str_of_nat_inj (m n : nat) : PyStr.str_of_nat m = PyStr.str_of_nat n → m = n.
Proof.
  unfold PyStr.str_of_nat. intros H.
  assert (∀ k, Nat.to_uint k ≠ Decimal.Nil) as Hnil.
  { intros k. rewrite <- (DecimalNat.Unsigned.of_to k) at 1.
    rewrite DecimalNat.Unsigned.to_of. apply DecimalFacts.unorm_nonnil. }
  apply DecimalNat.Unsigned.to_uint_inj.
  pose proof (NilZero.usu _ (Hnil m)) as Hm.
  pose proof (NilZero.usu _ (Hnil n)) as Hn.
  rewrite H in Hm. congruence.
Qed.

Lemma length_append (a b : string) :
  String.length (a +:+ b) = (String.length a + String.length b)%nat.
Proof. induction a as [|x a IH]; [reflexivity|]. simpl. f_equal. exact IH. Qed.

Lemma append_inj_length (a b c d : string) :
  String.length a = String.length b → a +:+ c = b +:+ d → a = b.
Proof.
  revert b. induction a as [|x a IH]; intros [|y b] Hlen H; try discriminate.
  - reflexivity.
  - cbn in Hlen, H. inversion H; subst. f_equal. apply IH; [lia|assumption].
Qed.

Lemma replace_from_length (old : string) (s : string) (skip : nat) :
  ∃ base k : nat,
    (∀ new, String.length (PyStr.replace_from old new skip s)
            = (base + k * String.length new)%nat)
    ∧ (skip = 0%nat → old ≠ EmptyString → PyStr.contains old s = true → (1 ≤ k)%nat).
Proof.
  revert skip. induction s as [|c s IH]; intros skip.
  - exists 0%nat, 0%nat. split; [reflexivity|].
    intros _ Hold H. rewrite contains_nil in H. destruct old; [congruence|discriminate].
  - destruct skip as [|skip].
    + cbn [PyStr.replace_from]. destruct (String.prefix old (String c s)) eqn:Hp.
      * destruct (IH (Nat.pred (String.length old))) as (base & k & Hlen & _).
        exists base, (S k). split; [|lia].
        intros new. rewrite length_append, Hlen. lia.
      * destruct (IH 0%nat) as (base & k & Hlen & Hk).
        exists (S base), k. split.
        -- intros new. cbn [String.length]. rewrite Hlen. lia.
        -- intros _ Hold H. rewrite contains_cons, Hp in H. apply Hk; auto.
    + destruct (IH skip) as (base & k & Hlen & _).
      exists base, k. split; [exact Hlen | discriminate].
Qed.

Lemma replace_same_length_inj (old new1 new2 s : string) :
  old ≠ EmptyString → String.length new1 = String.length new2 →
  PyStr.contains old s = true →
  PyStr.replace old new1 s = PyStr.replace old new2 s → new1 = new2.
Proof.
  intros Hold Hlen. unfold PyStr.replace. induction s as [|c s IH]; intros Hin H.
  - rewrite contains_nil in Hin. destruct old; [congruence|discriminate].
  - cbn [PyStr.replace_from] in H. rewrite contains_cons in Hin.
    destruct (String.prefix old (String c s)).
    + exact (append_inj_length _ _ _ _ Hlen H).
    + inversion H. apply IH; assumption.
Qed.

Lemma replace_inj (old new1 new2 s : string) :
  old ≠ EmptyString → PyStr.contains old s = true →
  PyStr.replace old new1 s = PyStr.replace old new2 s → new1 = new2.
Proof.
  intros Hold Hin H.
  apply (replace_same_length_inj old new1 new2 s); try assumption.
  destruct (replace_from_length old s 0) as (base & k & Hlen & Hk).
  specialize (Hk eq_refl Hold Hin).
  apply (f_equal String.length) in H. unfold PyStr.replace in H.
  rewrite !Hlen in H. nia.
Qed.

Lemma replace_absent (old new s : string) :
  PyStr.contains old s = false → PyStr.replace old new s = s.
Proof.
  unfold PyStr.replace. induction s as [|c s IH]; intros H; [reflexivity|].
  rewrite contains_cons in H. apply orb_false_iff in H as [Hp Hin].
  cbn [PyStr.replace_from]. rewrite Hp, (IH Hin). reflexivity.
Qed.

(** X13. With two segments or more, the segment URLs of an
    adaptive-streaming manifest are pairwise distinct exactly when the media
    pattern holds the placeholder [$Number$]; a pattern without it gives the
    pattern itself for every segment. *)
Theorem segment_urls_distinct_iff_placeholder (media : string) (segments_count : Z) :
  2 ≤ segments_count →
  (NoDup (segment_urls media segments_count)
   ↔ PyStr.contains "$Number$" media = true)
  ∧ (PyStr.contains "$Number$" media = false →
     ∀ url, url ∈ segment_urls media segments_count → url = media).
Proof.
  intros Hn. unfold segment_urls, range. split; [split|].
  - intros Hnd. destruct (PyStr.contains "$Number$" media) eqn:Hin; [reflexivity|].
    destruct (Z.to_nat segments_count) as [|[|n]] eqn:Hc; [lia|lia|].
    cbn [seq map] in Hnd. rewrite !(replace_absent _ _ _ Hin) in Hnd.
    apply NoDup_cons in Hnd as [Hnd _]. exfalso. apply Hnd. left.
  - intros Hin. apply NoDup_fmap_2_strong; [|apply NoDup_seq].
    intros i j _ _ H. apply str_of_nat_inj.
    exact (replace_inj "$Number$" _ _ media ltac:(discriminate) Hin H).
  - intros Hin url Hurl. apply list_elem_of_fmap in Hurl as (i & -> & _).
    apply replace_absent. exact Hin.
Qed.

Lemma segment_urls_distinct_iff_placeholder_witness :
  NoDup (segment_urls "https://cdn.example/v/$Number$.mp4" 3).
Proof.
  apply (segment_urls_distinct_iff_placeholder "https://cdn.example/v/$Number$.mp4" 3);
    [lia | reflexivity].
Defined.

(** ** The requests of the rendition selection *)

Lemma m3u8_load_world (env : Env) (uri : string) (w w' : World) (o : Outcome Hls.M3U8) :
  m3u8_load_ env uri w = (o, w') → w' = add_event (EvM3u8Load uri) w.
Proof.
  unfold m3u8_load_, call. rewrite bind_run. cbn [get_world].
  rewrite bind_run. cbn [emit]. destruct (m3u8_load env (trace w) uri); intros H;
    inversion H; reflexivity.
Qed.

Lemma extract_loop_requests (env : Env) (quality : Z) (playlists : list Hls.Playlist) :
  ∀ (m3u8_playlist : option Hls.M3U8) (best : Z) (mime : string) (w w' : World)
    (o : Outcome (option Hls.M3U8 * string)),
    extract_loop env quality playlists m3u8_playlist best mime w = (o, w') →
    ∃ loaded,
      sublist loaded playlists
      ∧ trace w' = trace w ++ map (λ p, EvM3u8Load (Hls.uri p)) loaded
      ∧ Forall (λ p, best < height p) loaded
      ∧ StronglySorted (λ p q, height p < height q) loaded
      ∧ fs w' = fs w ∧ tasks w' = tasks w.
Proof.
  induction playlists as [|p rest IH]; intros sel best mime w w' o Hrun.
  - inversion Hrun; subst. exists []. rewrite app_nil_r.
    repeat split; constructor.
  - cbn [extract_loop] in Hrun. rewrite bind_run in Hrun.
    unfold resolution_height in Hrun.
    assert (∀ o1 : Outcome (option Hls.M3U8 * string),
              (o1, w) = (o, w') →
              ∃ loaded, sublist loaded (p :: rest)
                ∧ trace w' = trace w ++ map (λ p, EvM3u8Load (Hls.uri p)) loaded
                ∧ Forall (λ p, best < height p) loaded
                ∧ StronglySorted (λ p q, height p < height q) loaded
                ∧ fs w' = fs w ∧ tasks w' = tasks w) as Hstop.
    { intros o1 H. inversion H; subst. exists []. rewrite app_nil_r.
      repeat split; try constructor. apply sublist_nil_l. }
    assert (∀ o1 : Outcome (option Hls.M3U8 * string),
              best < height p →
              (o1, add_event (EvM3u8Load (Hls.uri p)) w) = (o, w') →
              ∃ loaded, sublist loaded (p :: rest)
                ∧ trace w' = trace w ++ map (λ p, EvM3u8Load (Hls.uri p)) loaded
                ∧ Forall (λ p, best < height p) loaded
                ∧ StronglySorted (λ p q, height p < height q) loaded
                ∧ fs w' = fs w ∧ tasks w' = tasks w) as Hone.
    { intros o1 Hlt H. inversion H; subst. exists [p].
      repeat split; try (constructor; constructor); try assumption.
      - apply sublist_skip, sublist_nil_l.
      - constructor; [assumption | constructor]. }
    assert (height p = match Hls.resolution (Hls.stream_info p) with
                       | Some (_, h) => h | None => 0 end) as Hh by reflexivity.
    destruct (Hls.resolution (Hls.stream_info p)) as [[wd h]|];
      cbn [ret raise] in Hrun; [|exact (Hstop _ Hrun)].
    subst h. destruct (best <? height p) eqn:Hcmp.
    + apply Z.ltb_lt in Hcmp. rewrite bind_run in Hrun.
      destruct (m3u8_load_ env (Hls.uri p) w) as [o1 w1] eqn:Hload.
      apply m3u8_load_world in Hload as Hw1. subst w1.
      destruct o1 as [loaded1| |]; [|exact (Hone _ Hcmp Hrun)..].
      destruct (quality =? height p); [exact (Hone _ Hcmp Hrun)|].
      apply IH in Hrun as (loaded & Hsub & Htrace & Hall & Hsorted & Hfs & Htasks).
      exists (p :: loaded). repeat split.
      * apply sublist_skip. exact Hsub.
      * rewrite Htrace. cbn [add_event trace map]. rewrite <- app_assoc. reflexivity.
      * constructor; [exact Hcmp|].
        eapply Forall_impl; [exact Hall|]. cbn. intros; lia.
      * constructor; assumption.
      * exact Hfs.
      * exact Htasks.
    + apply IH in Hrun as (loaded & Hsub & Htrace & Hall & Hsorted & Hfs & Htasks).
      exists loaded. repeat split; try assumption. apply sublist_cons. exact Hsub.
Qed.

(** X14. Whatever its outcome, [_extract_video_stream] requests renditions of
    the variant playlist only: in the listed order, each at most once, each
    of a positive height above the heights of those requested before it; no
    file and no progress task is touched. For a playlist that is no variant
    playlist it requests nothing. *)
Theorem renditions_are_requested_by_rising_height (env : Env)
    (m3u8_variant : Hls.M3U8) (quality : Z) (w w' : World)
    (o : Outcome (option Hls.M3U8 * string)) :
  _extract_video_stream env m3u8_variant quality w = (o, w') →
  ∃ loaded,
    sublist loaded (Hls.playlists m3u8_variant)
    ∧ trace w' = trace w ++ map (λ p, EvM3u8Load (Hls.uri p)) loaded
    ∧ Forall (λ p, 0 < height p) loaded
    ∧ StronglySorted (λ p q, height p < height q) loaded
    ∧ (Hls.is_variant m3u8_variant = false → loaded = [])
    ∧ fs w' = fs w ∧ tasks w' = tasks w.
Proof.
  unfold _extract_video_stream. intros Hrun.
  destruct (Hls.is_variant m3u8_variant).
  - apply extract_loop_requests in Hrun
      as (loaded & Hsub & Htrace & Hall & Hsorted & Hfs & Htasks).
    exists loaded. repeat split; try assumption. discriminate.
  - inversion Hrun; subst. exists []. rewrite app_nil_r.
    repeat split; try constructor. apply sublist_nil_l.
Qed.

Lemma renditions_are_requested_by_rising_height_witness :
  ∃ loaded,
    sublist loaded [Example.r720; Example.r480]
    ∧ trace (_extract_video_stream Example.env
               (Example.variant [Example.r720; Example.r480]) 480
               Example.empty_world).2
      = map (λ p, EvM3u8Load (Hls.uri p)) loaded
    ∧ Forall (λ p, 0 < height p) loaded
    ∧ StronglySorted (λ p q, height p < height q) loaded.
Proof.
  destruct (renditions_are_requested_by_rising_height Example.env
              (Example.variant [Example.r720; Example.r480]) 480
              Example.empty_world _ _ eq_refl)
    as (loaded & Hsub & Htrace & Hall & Hsorted & _).
  exists loaded. repeat split; assumption.
Defined.

(** ** A playlist without a selectable rendition *)



